(** * Warehouse optimisation: validator, ABC classifier, metrics and report

    A shallow embedding of [warehouseoptimization.py].  The Python objects
    that the script manipulates (decoded JSON values, numbers, exceptions,
    the mutable [DataValidator] and [WarehouseOptimizer] objects, the
    standard output and the output file) are modelled explicitly:

    - a decoded JSON document is a [value];
    - Python [int] is [Z]; Python [float] is an IEEE 754 binary64 number,
      taken from the Standard Library's executable specification
      [SpecFloat] at precision 53 and maximal exponent 1024;
    - a Python exception is a constructor of [exn], and a computation that
      may raise returns a [result];
    - the methods of [WarehouseOptimizer] mutate [self] and print, so they
      are state transformers over [state] in the monad [M]. *)

From Stdlib Require Import ZArith List String Ascii Bool Lia.
From Stdlib Require Import Permutation Sorted OrderedTypeEx.
From Stdlib Require Import SpecFloat DecimalString.
Import ListNotations.

Set Warnings "-register-all".

Open Scope string_scope.
Open Scope list_scope.
Open Scope Z_scope.

(* ================================================================== *)
(** * Exceptions and results *)
(* ================================================================== *)

(** The exceptions that the modelled fragment of the interpreter can raise.
    [Unmodelled] marks a behaviour of the interpreter that the embedding
    does not describe (sequence repetition, ordering of keys that are not
    all strings or all numbers); no theorem below is proved through it. *)
Inductive exn : Type :=
| KeyError (key : string)
| TypeError
| AttributeError
| ZeroDivisionError
| OverflowError
| ValueError
| Unmodelled.

Inductive result (A : Type) : Type :=
| Ok (a : A)
| Raise (e : exn).

Arguments Ok {A} a.
Arguments Raise {A} e.

Definition rbind {A B : Type} (r : result A) (k : A -> result B) : result B :=
  match r with
  | Ok a => k a
  | Raise e => Raise e
  end.

Declare Scope result_scope.
Delimit Scope result_scope with result.
Notation "x <- r ;; k" := (rbind r (fun x => k))
  (at level 100, r at next level, right associativity) : result_scope.
Notation "' p <- r ;; k" := (rbind r (fun p => k))
  (at level 100, p pattern, r at next level, right associativity) : result_scope.

(* ================================================================== *)
(** * Python numbers *)
(* ================================================================== *)

Module PyNum.

Definition prec : Z := 53.
Definition emax : Z := 1024.

(** A Python [float]. *)
Definition float : Type := spec_float.

Definition fadd : float -> float -> float := SFadd prec emax.
Definition fsub : float -> float -> float := SFsub prec emax.
Definition fmul : float -> float -> float := SFmul prec emax.
Definition fdiv : float -> float -> float := SFdiv prec emax.
Definition fsqrt : float -> float := SFsqrt prec emax.

(** The binary64 number nearest to an integer (ties to even); an
    infinity when the integer is out of range. *)
Definition float_of_Z (z : Z) : float := binary_normalize prec emax z 0 false.

(** An integer as an operand of the IEEE 754 operations, not rounded. *)
Definition Z2SF (z : Z) : float :=
  match z with
  | Z0 => S754_zero false
  | Zpos p => S754_finite false p 0
  | Zneg p => S754_finite true p 0
  end.

(** The binary64 number nearest to [p / q], for [q <> 0]: the operands
    enter the division as they are, so the quotient is rounded once. *)
Definition fdiv_Z (p q : Z) : float := fdiv (Z2SF p) (Z2SF q).

(** A decimal literal [n / d] of the source, e.g. [0.80] is
    [decimal 80 100]. *)
Definition decimal (n d : Z) : float := fdiv_Z n d.

(** [p / q] rounds to a finite binary64 number: its magnitude is below
    the midpoint of the largest finite number and [2^1024]. *)
Definition quotient_fits (p q : Z) : bool :=
  2 * Z.abs p <? (2 ^ 1025 - 2 ^ 971) * Z.abs q.

(** [float(z)]: raises [OverflowError] when [z] is too large. *)
Definition to_float (z : Z) : result float :=
  if quotient_fits z 1 then Ok (float_of_Z z) else Raise OverflowError.

(** A number: [int] (and [bool], a subclass of [int]) or [float]. *)
Inductive num : Type :=
| NInt (z : Z)
| NFloat (f : float).

Definition num_float (n : num) : result float :=
  match n with
  | NInt z => to_float z
  | NFloat f => Ok f
  end.

(** Binary arithmetic: two [int]s stay exact, otherwise both operands
    are converted to [float]. *)
Definition num_arith (zop : Z -> Z -> Z) (fop : float -> float -> float)
    (a b : num) : result num :=
  match a, b with
  | NInt x, NInt y => Ok (NInt (zop x y))
  | _, _ =>
      (x <- num_float a ;;
       y <- num_float b ;;
       Ok (NFloat (fop x y)))%result
  end.

Definition num_add : num -> num -> result num := num_arith Z.add fadd.
Definition num_sub : num -> num -> result num := num_arith Z.sub fsub.
Definition num_mul : num -> num -> result num := num_arith Z.mul fmul.

(** ** Exact comparison

    Every finite binary64 number is an integer multiple of [2^-1074],
    so numbers are compared exactly on that scale: this is the IEEE 754
    comparison on two [float]s and Python's exact comparison of an
    [int] with a [float]. *)
Inductive xreal : Type :=
| XNaN
| XNegInf
| XFin (z : Z)
| XPosInf.

Definition float_scaled (f : float) : xreal :=
  match f with
  | S754_nan => XNaN
  | S754_infinity s => if s then XNegInf else XPosInf
  | S754_zero _ => XFin 0
  | S754_finite s m e => XFin (cond_Zopp s (Z.shiftl (Zpos m) (e + 1074)))
  end.

Definition num_scaled (n : num) : xreal :=
  match n with
  | NInt z => XFin (Z.shiftl z 1074)
  | NFloat f => float_scaled f
  end.

(** [None] when an operand is a NaN: every comparison is then false. *)
Definition xcompare (a b : xreal) : option comparison :=
  match a, b with
  | XNaN, _ | _, XNaN => None
  | XNegInf, XNegInf => Some Eq
  | XNegInf, _ => Some Lt
  | _, XNegInf => Some Gt
  | XPosInf, XPosInf => Some Eq
  | XPosInf, _ => Some Gt
  | _, XPosInf => Some Lt
  | XFin x, XFin y => Some (Z.compare x y)
  end.

Definition xlt (a b : xreal) : bool :=
  match xcompare a b with Some Lt => true | _ => false end.
Definition xle (a b : xreal) : bool :=
  match xcompare a b with Some Lt | Some Eq => true | _ => false end.
Definition xeq (a b : xreal) : bool :=
  match xcompare a b with Some Eq => true | _ => false end.

Definition num_lt (a b : num) : bool := xlt (num_scaled a) (num_scaled b).
Definition num_le (a b : num) : bool := xle (num_scaled a) (num_scaled b).
Definition num_gt (a b : num) : bool := num_lt b a.
Definition num_ge (a b : num) : bool := num_le b a.
Definition num_eq (a b : num) : bool := xeq (num_scaled a) (num_scaled b).

Definition float_le (a b : float) : bool := num_le (NFloat a) (NFloat b).

Definition float_is_zero (f : float) : bool :=
  match f with S754_zero _ => true | _ => false end.

(** True division [a / b]; the result is always a [float].  Two [int]s
    are divided exactly and rounded once. *)
Definition num_truediv (a b : num) : result float :=
  match a, b with
  | NInt x, NInt y =>
      if y =? 0 then Raise ZeroDivisionError
      else if quotient_fits x y then Ok (fdiv_Z x y)
      else Raise OverflowError
  | _, _ =>
      (x <- num_float a ;;
       y <- num_float b ;;
       if float_is_zero y then Raise ZeroDivisionError
       else Ok (fdiv x y))%result
  end.

(** [math.sqrt] on a [float]. *)
Definition math_sqrt (x : float) : result float :=
  match x with
  | S754_finite true _ _ | S754_infinity true => Raise ValueError
  | _ => Ok (fsqrt x)
  end.

(** [math.ceil] on a [float]. *)
Definition float_ceil (x : float) : result Z :=
  match x with
  | S754_nan => Raise ValueError
  | S754_infinity _ => Raise OverflowError
  | S754_zero _ => Ok 0
  | S754_finite s m e =>
      Ok (match e with
          | Zneg p =>
              if s then - (Zpos m / 2 ^ Zpos p)
              else - ((- Zpos m) / 2 ^ Zpos p)
          | _ => cond_Zopp s (Zpos m * 2 ^ e)
          end)
  end.

Definition math_ceil (n : num) : result Z :=
  match n with
  | NInt z => Ok z
  | NFloat f => float_ceil f
  end.

End PyNum.

Import PyNum.

(* ================================================================== *)
(** * Decoded JSON values *)
(* ================================================================== *)

(** What [json.load] returns.  A [dict] keeps its items in insertion
    order; its keys are strings. *)
Inductive value : Type :=
| VNone
| VBool (b : bool)
| VInt (z : Z)
| VFloat (f : float)
| VStr (s : string)
| VList (l : list value)
| VDict (d : list (string * value)).

Definition of_num (n : num) : value :=
  match n with
  | NInt z => VInt z
  | NFloat f => VFloat f
  end.

(** The number a value stands for in arithmetic, if it is one:
    [isinstance(v, (int, float))]. *)
Definition as_num (v : value) : option num :=
  match v with
  | VBool b => Some (NInt (Z.b2z b))
  | VInt z => Some (NInt z)
  | VFloat f => Some (NFloat f)
  | _ => None
  end.

Definition isinstance_number (v : value) : bool :=
  match as_num v with Some _ => true | None => false end.

Definition isinstance_dict (v : value) : bool :=
  match v with VDict _ => true | _ => false end.

Definition isinstance_list (v : value) : bool :=
  match v with VList _ => true | _ => false end.

(** ** Dictionaries *)

Fixpoint lookup {A : Type} (k : string) (d : list (string * A)) : option A :=
  match d with
  | [] => None
  | (k', v) :: rest => if String.eqb k k' then Some v else lookup k rest
  end.

(** [d[k] = v]: an existing key keeps its place. *)
Fixpoint assign {A : Type} (k : string) (v : A) (d : list (string * A))
    : list (string * A) :=
  match d with
  | [] => [(k, v)]
  | (k', v') :: rest =>
      if String.eqb k k' then (k, v) :: rest else (k', v') :: assign k v rest
  end.

(** [d.update(items)]. *)
Definition update {A : Type} (d items : list (string * A)) : list (string * A) :=
  fold_left (fun acc kv => assign (fst kv) (snd kv) acc) items d.

(** [d[k]] on a Python dict. *)
Definition dict_getitem {A : Type} (d : list (string * A)) (k : string) : result A :=
  match lookup k d with
  | Some v => Ok v
  | None => Raise (KeyError k)
  end.

(** [d.get(k, default)] on a Python dict. *)
Definition dict_get {A : Type} (d : list (string * A)) (k : string) (default : A) : A :=
  match lookup k d with
  | Some v => v
  | None => default
  end.

(** [v[k]] with a string subscript. *)
Definition py_getitem (v : value) (k : string) : result value :=
  match v with
  | VDict d => dict_getitem d k
  | _ => Raise TypeError
  end.

(** [v.get(k, default)]. *)
Definition py_get (v : value) (k : string) (default : value) : result value :=
  match v with
  | VDict d => Ok (dict_get d k default)
  | _ => Raise AttributeError
  end.

(** Is [s1] a prefix of [s2]; is it a substring. *)
Fixpoint prefixb (s1 s2 : string) : bool :=
  match s1, s2 with
  | EmptyString, _ => true
  | String a r1, String b r2 => Ascii.eqb a b && prefixb r1 r2
  | String _ _, EmptyString => false
  end.

Fixpoint substringb (s1 s2 : string) : bool :=
  prefixb s1 s2 ||
  match s2 with
  | EmptyString => false
  | String _ r2 => substringb s1 r2
  end.

(** [k in v] for a string [k]. *)
Definition py_contains (k : string) (v : value) : result bool :=
  match v with
  | VDict d => Ok (match lookup k d with Some _ => true | None => false end)
  | VList l =>
      Ok (existsb (fun x => match x with VStr s => String.eqb k s | _ => false end) l)
  | VStr s => Ok (substringb k s)
  | _ => Raise TypeError
  end.

(** [all(k in v for k in keys)]. *)
Fixpoint all_contained (keys : list string) (v : value) : result bool :=
  match keys with
  | [] => Ok true
  | k :: rest =>
      (b <- py_contains k v ;;
       if b then all_contained rest v else Ok false)%result
  end.

(** [v >= 0]. *)
Definition py_ge_zero (v : value) : result bool :=
  match as_num v with
  | Some n => Ok (num_ge n (NInt 0))
  | None => Raise TypeError
  end.

(** ** Arithmetic with a number on one side

    In the script one operand of every arithmetic operation is known to
    be a number (a literal, a constant or an accumulator); the other is a
    field of a product. *)

(** [n + v]. *)
Definition add_value (n : num) (v : value) : result num :=
  match as_num v with
  | Some m => num_add n m
  | None => Raise TypeError
  end.

(** [z * v] for an [int] [z]: a string or a list would be repeated. *)
Definition int_mul_value (z : Z) (v : value) : result num :=
  match v with
  | VStr _ | VList _ => Raise Unmodelled
  | _ =>
      match as_num v with
      | Some m => num_mul (NInt z) m
      | None => Raise TypeError
      end
  end.

(** [v * z] for an [int] [z]. *)
Definition value_mul_int (v : value) (z : Z) : result num :=
  match v with
  | VStr _ | VList _ => Raise Unmodelled
  | _ =>
      match as_num v with
      | Some m => num_mul m (NInt z)
      | None => Raise TypeError
      end
  end.

(** [v * f] for a [float] [f]. *)
Definition value_mul_float (v : value) (f : float) : result num :=
  match as_num v with
  | Some m => num_mul m (NFloat f)
  | None => Raise TypeError
  end.

(** [v / n]. *)
Definition value_truediv (v : value) (n : num) : result float :=
  match as_num v with
  | Some m => num_truediv m n
  | None => Raise TypeError
  end.

(** ** Formatting *)

(** The decimal numeral of an index. *)
Definition str_nat (n : nat) : string := NilEmpty.string_of_uint (Nat.to_uint n).

(* ================================================================== *)
(** * The script *)
(* ================================================================== *)

Section Script.

(** The interpreter's [repr] of a value, used by an f-string for a value
    that is not a string.  It is a builtin, not part of the script. *)
Variable py_repr : value -> string.

(** [f"{v}"]. *)
Definition py_str (v : value) : string :=
  match v with
  | VStr s => s
  | _ => py_repr v
  end.

(** ** Configuration and global constants *)

Definition WALKING_SPEED_MPS : float := Eval vm_compute in decimal 12 10.
Definition LABOR_COST_PER_HOUR : float := Eval vm_compute in decimal 2250 100.
Definition HOURS_PER_YEAR : Z := 2080.

Definition A_CATEGORY_PERCENTAGE : float := Eval vm_compute in decimal 80 100.
Definition B_CATEGORY_PERCENTAGE : float := Eval vm_compute in decimal 95 100.

Definition ZONE_A_DISTANCE_M : Z := 5.
Definition ZONE_B_DISTANCE_M : Z := 15.
Definition ZONE_C_DISTANCE_M : Z := 30.

Definition ANNUAL_HOLDING_COST_PERCENTAGE : float := Eval vm_compute in decimal 15 100.
Definition COST_PER_ORDER : float := Eval vm_compute in decimal 5000 100.
Definition SERVICE_LEVEL : float := Eval vm_compute in decimal 95 100.
Definition DEMAND_VARIABILITY_FACTOR : float := Eval vm_compute in decimal 2 10.

(* ---------------------------------------------------------------- *)
(** ** class DataValidator *)
(* ---------------------------------------------------------------- *)

(** The object has the fields [data] and [errors]; [data] never changes,
    so each method takes it and transforms the list [errors]. *)

Definition format_error : string := "Invalid data format: Expected a JSON list.".

Definition not_a_dictionary_error (i : nat) : string :=
  "Product at index " ++ str_nat i ++ " is not a dictionary.".

Definition missing_key_error (i : nat) (key : string) : string :=
  "Product at index " ++ str_nat i ++ " is missing required key: '" ++ key ++ "'.".

Definition invalid_field_error (field : string) (sku : value) (index : nat) : string :=
  "Invalid '" ++ field ++ "' for SKU '" ++ py_str sku ++ "' at index "
    ++ str_nat index ++ ".".

Definition _check_overall_format (data : value) (errors : list string) : list string :=
  if negb (isinstance_list data) then errors ++ [format_error] else errors.

(** [not (isinstance(v, (int, float)) and v >= 0)]. *)
Definition not_a_quantity (v : value) : result bool :=
  if isinstance_number v
  then (b <- py_ge_zero v ;; Ok (negb b))%result
  else Ok true.

(** [not (isinstance(dims, dict) and all(k in dims for k in [...]))]. *)
Definition not_dimensions (dims : value) : result bool :=
  if isinstance_dict dims
  then (b <- all_contained ["length"; "width"; "height"] dims ;; Ok (negb b))%result
  else Ok true.

(** One [if ...: self.errors.append(f"Invalid '...' for SKU ...")]. *)
Definition check_field (invalid : value -> result bool) (field : string)
    (v product : value) (index : nat) (errors : list string) : result (list string) :=
  (bad <- invalid v ;;
   if bad
   then (sku <- py_get product "sku" (VStr "N/A") ;;
         Ok (errors ++ [invalid_field_error field sku index]))
   else Ok errors)%result.

Definition _validate_numerical_fields (product : value) (index : nat)
    (errors : list string) : result (list string) :=
  (frequency <- py_get product "frequency" (VInt (-1)) ;;
   unit_cost <- py_get product "unit_cost" (VInt (-1)) ;;
   weight <- py_get product "weight_kg" (VInt (-1)) ;;
   dims <- py_get product "dimensions_cm" (VDict []) ;;
   errors <- check_field not_a_quantity "frequency" frequency product index errors ;;
   errors <- check_field not_a_quantity "unit_cost" unit_cost product index errors ;;
   errors <- check_field not_a_quantity "weight_kg" weight product index errors ;;
   check_field not_dimensions "dimensions_cm" dims product index errors)%result.

Definition required_keys : list string :=
  ["sku"; "product_name"; "frequency"; "category"; "dimensions_cm";
   "weight_kg"; "unit_cost"].

(** [for key in required_keys: if key not in product: ...append(...)]. *)
Fixpoint check_required_keys (keys : list string) (product : value) (i : nat)
    (errors : list string) : result (list string) :=
  match keys with
  | [] => Ok errors
  | key :: rest =>
      (present <- py_contains key product ;;
       check_required_keys rest product i
         (if negb present then errors ++ [missing_key_error i key] else errors))%result
  end.

(** The body of the loop of [_check_product_fields]. *)
Definition check_product (i : nat) (product : value) (errors : list string)
    : result (list string) :=
  if negb (isinstance_dict product)
  then Ok (errors ++ [not_a_dictionary_error i])
  else
    (errors <- check_required_keys required_keys product i errors ;;
     _validate_numerical_fields product i errors)%result.

(** [for i, product in enumerate(...)], from index [i]. *)
Fixpoint check_products_from (i : nat) (products : list value) (errors : list string)
    : result (list string) :=
  match products with
  | [] => Ok errors
  | product :: rest =>
      (errors <- check_product i product errors ;;
       check_products_from (S i) rest errors)%result
  end.

(** Iterating over a value: a list yields its elements, a dict its keys.
    A string would yield its characters, which the embedding, keeping
    strings as bytes, does not describe. *)
Definition py_iter (v : value) : result (list value) :=
  match v with
  | VList l => Ok l
  | VDict d => Ok (map (fun kv => VStr (fst kv)) d)
  | VStr _ => Raise Unmodelled
  | _ => Raise TypeError
  end.

Definition _check_product_fields (data : value) (errors : list string)
    : result (list string) :=
  (products <- py_iter data ;;
   check_products_from 0 products errors)%result.

Definition validate_all (data : value) : result (list string) :=
  let errors := _check_overall_format data [] in
  match errors with
  | [] => _check_product_fields data errors
  | _ => Ok errors
  end.

(* ---------------------------------------------------------------- *)
(** ** Builtins used by the optimizer *)
(* ---------------------------------------------------------------- *)

(** [sum(term(x) for x in items)], continued from the accumulator
    [acc]; the builtin starts from the [int] 0 and adds from left to
    right.  (From version 3.12 on, CPython adds a run of [float]s with a
    compensated sum, which may differ from this one in the last place; the
    two agree on [int]s, and whenever the additions are exact.) *)
Fixpoint sum_from {A : Type} (term : A -> result value) (items : list A) (acc : num)
    : result num :=
  match items with
  | [] => Ok acc
  | x :: rest =>
      (v <- term x ;;
       acc <- add_value acc v ;;
       sum_from term rest acc)%result
  end.

Definition py_sum {A : Type} (term : A -> result value) (items : list A) : result num :=
  sum_from term items (NInt 0).

(** [enumerate(items)]. *)
Definition enumerate {A : Type} (items : list A) : list (nat * A) :=
  combine (seq 0 (List.length items)) items.

(** [sorted] computes the key of every item first, then sorts the items
    by their keys; the sort is stable.  [before ky kx] tells that an
    item of key [ky] stays in front of an earlier item of key [kx]. *)
Fixpoint decorate {K : Type} (key : value -> result K) (items : list value)
    : result (list (K * value)) :=
  match items with
  | [] => Ok []
  | x :: rest =>
      (k <- key x ;;
       rest <- decorate key rest ;;
       Ok ((k, x) :: rest))%result
  end.

Fixpoint insert_by {K : Type} (before : K -> K -> bool) (x : K * value)
    (l : list (K * value)) : list (K * value) :=
  match l with
  | [] => [x]
  | y :: rest =>
      if before (fst y) (fst x) then y :: insert_by before x rest else x :: l
  end.

Definition sort_by {K : Type} (before : K -> K -> bool) (l : list (K * value))
    : list (K * value) :=
  fold_right (insert_by before) [] l.

(** Ascending: an item stays in front of an earlier one when its key is
    smaller.  With [reverse=True]: when its key is greater. *)
Definition ascending {K : Type} (lt : K -> K -> bool) : K -> K -> bool :=
  fun ky kx => lt ky kx.
Definition descending {K : Type} (lt : K -> K -> bool) : K -> K -> bool :=
  fun ky kx => lt kx ky.

(** [lambda p: p['frequency']], as a key that [sorted] can order. *)
Definition frequency_key (p : value) : result xreal :=
  (v <- py_getitem p "frequency" ;;
   match as_num v with
   | Some n =>
       match num_scaled n with
       | XNaN => Raise Unmodelled
       | x => Ok x
       end
   | None => Raise Unmodelled
   end)%result.

(** [sorted(products, key=lambda p: p['frequency'], reverse=True)]. *)
Definition sorted_by_frequency (products : list value) : result (list value) :=
  (keyed <- decorate frequency_key products ;;
   Ok (map snd (sort_by (descending xlt) keyed)))%result.

(** [lambda p: p['sku']], as a key that [sorted] can order. *)
Definition sku_key (p : value) : result string :=
  (v <- py_getitem p "sku" ;;
   match v with
   | VStr s => Ok s
   | _ => Raise Unmodelled
   end)%result.

(** [sorted(products, key=lambda p: p['sku'])]. *)
Definition sorted_by_sku (products : list value) : result (list value) :=
  (keyed <- decorate sku_key products ;;
   Ok (map snd (sort_by (ascending String.ltb) keyed)))%result.

(* ---------------------------------------------------------------- *)
(** ** class WarehouseOptimizer *)
(* ---------------------------------------------------------------- *)

Record optimizer : Type := {
  data_filepath : string;
  products : list value;
  categories : list (string * list value);
  metrics : list (string * value);
  report_data : list (string * value)
}.

(** [__init__]. *)
Definition init (data_filepath : string) : optimizer :=
  {| data_filepath := data_filepath; products := []; categories := [];
     metrics := []; report_data := [] |}.

Definition set_products (v : list value) (o : optimizer) : optimizer :=
  {| data_filepath := data_filepath o; products := v; categories := categories o;
     metrics := metrics o; report_data := report_data o |}.
Definition set_categories (v : list (string * list value)) (o : optimizer) : optimizer :=
  {| data_filepath := data_filepath o; products := products o; categories := v;
     metrics := metrics o; report_data := report_data o |}.
Definition set_metrics (v : list (string * value)) (o : optimizer) : optimizer :=
  {| data_filepath := data_filepath o; products := products o;
     categories := categories o; metrics := v; report_data := report_data o |}.
Definition set_report_data (v : list (string * value)) (o : optimizer) : optimizer :=
  {| data_filepath := data_filepath o; products := products o;
     categories := categories o; metrics := metrics o; report_data := v |}.

(** What [open(data_filepath)] and [json.load] give. *)
Inductive file_source : Type :=
| FileNotFound
| InvalidJSON
| Decoded (data : value).

(** The object, what has been printed, and the output file (its path
    and the document written to it) if one has been written. *)
Record state : Type := {
  self : optimizer;
  stdout : list string;
  output_file : option (string * value)
}.

Definition M (A : Type) : Type := state -> state * result A.

Definition ret {A : Type} (a : A) : M A := fun s => (s, Ok a).

Definition bind {A B : Type} (m : M A) (k : A -> M B) : M B :=
  fun s =>
    match m s with
    | (s', Ok a) => k a s'
    | (s', Raise e) => (s', Raise e)
    end.

Definition lift {A : Type} (r : result A) : M A := fun s => (s, r).

Definition get_self : M optimizer := fun s => (s, Ok (self s)).

Definition modify_self (f : optimizer -> optimizer) : M unit :=
  fun s =>
    ({| self := f (self s); stdout := stdout s; output_file := output_file s |}, Ok tt).

Definition print (line : string) : M unit :=
  fun s =>
    ({| self := self s; stdout := stdout s ++ [line]; output_file := output_file s |},
     Ok tt).

Definition write_file (path : string) (document : value) : M unit :=
  fun s =>
    ({| self := self s; stdout := stdout s; output_file := Some (path, document) |},
     Ok tt).

Declare Scope M_scope.
Delimit Scope M_scope with M.
Notation "x <- m ;; k" := (bind m (fun x => k))
  (at level 100, m at next level, right associativity) : M_scope.
Notation "' p <- m ;; k" := (bind m (fun p => k))
  (at level 100, p pattern, m at next level, right associativity) : M_scope.
Notation "m1 ;; m2" := (bind m1 (fun _ => m2))
  (at level 100, right associativity) : M_scope.

Fixpoint for_each {A : Type} (body : A -> M unit) (items : list A) : M unit :=
  match items with
  | [] => ret tt
  | x :: rest => (body x ;; for_each body rest)%M
  end.

Definition load_data (source : file_source) : M unit :=
  (print "Initializing Warehouse Optimizer..." ;;
   o <- get_self ;;
   match source with
   | Decoded data =>
       errors <- lift (validate_all data) ;;
       match errors with
       | _ :: _ =>
           print "Data validation failed. Please correct the following errors:" ;;
           for_each (fun error => print ("  - " ++ error)) errors ;;
           modify_self (set_products [])
       | [] =>
           (* [self.products = data]: without an error [data] is a list *)
           modify_self (set_products (match data with VList l => l | _ => [] end)) ;;
           print "Data loaded and validated successfully."
       end
   | FileNotFound =>
       print ("Error: The file '" ++ data_filepath o ++ "' was not found.") ;;
       modify_self (set_products [])
   | InvalidJSON =>
       print ("Error: The file '" ++ data_filepath o ++ "' contains invalid JSON.") ;;
       modify_self (set_products [])
   end)%M.

(** [sum(p['frequency'] for p in self.products)]. *)
Definition total_frequency (products : list value) : result num :=
  py_sum (fun p => py_getitem p "frequency") products.

(** The loop of [run_abc_analysis] over the sorted products, from the
    running share [current_percentage] and the three lists so far. *)
Fixpoint abc_loop (total_frequency : num) (sorted_products : list value)
    (current_percentage : float) (category_a category_b category_c : list value)
    : result (list value * list value * list value) :=
  match sorted_products with
  | [] => Ok (category_a, category_b, category_c)
  | p :: rest =>
      (frequency <- py_getitem p "frequency" ;;
       item_percentage <- value_truediv frequency total_frequency ;;
       let current_percentage := fadd current_percentage item_percentage in
       if float_le current_percentage A_CATEGORY_PERCENTAGE
       then abc_loop total_frequency rest current_percentage
              (category_a ++ [p]) category_b category_c
       else if float_le current_percentage B_CATEGORY_PERCENTAGE
       then abc_loop total_frequency rest current_percentage
              category_a (category_b ++ [p]) category_c
       else abc_loop total_frequency rest current_percentage
              category_a category_b (category_c ++ [p]))%result
  end.

Definition zero_frequency_message : string :=
  "Total frequency is zero. Analysis cannot be performed.".

Definition run_abc_analysis : M unit :=
  (o <- get_self ;;
   match products o with
   | [] => ret tt
   | _ :: _ =>
       total <- lift (total_frequency (products o)) ;;
       if num_eq total (NInt 0)
       then print zero_frequency_message
       else
         sorted_products <- lift (sorted_by_frequency (products o)) ;;
         ' (category_a, category_b, category_c) <-
             lift (abc_loop total sorted_products (S754_zero false) [] [] []) ;;
         modify_self (set_categories
           [("categoryA", category_a); ("categoryB", category_b);
            ("categoryC", category_c)])
   end)%M.

(** [sum(p['frequency'] * distance for p in category)]. *)
Definition zone_distance (category : list value) (distance : Z) : result num :=
  py_sum (fun p =>
    (frequency <- py_getitem p "frequency" ;;
     d <- value_mul_int frequency distance ;;
     Ok (of_num d))%result) category.

(** [sum((i + 1) * 2 * p['frequency'] for i, p in enumerate(products))]. *)
Definition original_distance_of (products : list value) : result num :=
  py_sum (fun ip : nat * value =>
    (frequency <- py_getitem (snd ip) "frequency" ;;
     d <- int_mul_value ((Z.of_nat (fst ip) + 1) * 2) frequency ;;
     Ok (of_num d))%result) (enumerate products).

Definition _calculate_distance_metrics : M unit :=
  (o <- get_self ;;
   original_distance <- lift (original_distance_of (products o)) ;;
   category_a <- lift (dict_getitem (categories o) "categoryA") ;;
   sum_a <- lift (zone_distance category_a ZONE_A_DISTANCE_M) ;;
   category_b <- lift (dict_getitem (categories o) "categoryB") ;;
   sum_b <- lift (zone_distance category_b ZONE_B_DISTANCE_M) ;;
   sum_ab <- lift (num_add sum_a sum_b) ;;
   category_c <- lift (dict_getitem (categories o) "categoryC") ;;
   sum_c <- lift (zone_distance category_c ZONE_C_DISTANCE_M) ;;
   optimized_distance <- lift (num_add sum_ab sum_c) ;;
   distance_saved <- lift (num_sub original_distance optimized_distance) ;;
   efficiency_improvement <-
     lift (if num_gt original_distance (NInt 0)
           then (ratio <- num_truediv distance_saved original_distance ;;
                 num_mul (NFloat ratio) (NInt 100))%result
           else Ok (NInt 0)) ;;
   modify_self (fun o => set_metrics (update (metrics o)
     [("original_distance", of_num original_distance);
      ("optimized_distance", of_num optimized_distance);
      ("distance_saved", of_num distance_saved);
      ("efficiency_improvement", of_num efficiency_improvement)]) o))%M.

Definition _calculate_financial_metrics : M unit :=
  (o <- get_self ;;
   original_distance <- lift (dict_getitem (metrics o) "original_distance") ;;
   speed <- lift (num_mul (NFloat WALKING_SPEED_MPS) (NInt 3600)) ;;
   original_time_hours <- lift (value_truediv original_distance speed) ;;
   optimized_distance <- lift (dict_getitem (metrics o) "optimized_distance") ;;
   speed <- lift (num_mul (NFloat WALKING_SPEED_MPS) (NInt 3600)) ;;
   optimized_time_hours <- lift (value_truediv optimized_distance speed) ;;
   let original_cost := fmul original_time_hours LABOR_COST_PER_HOUR in
   let optimized_cost := fmul optimized_time_hours LABOR_COST_PER_HOUR in
   let cost_saved := fsub original_cost optimized_cost in
   let time_saved_hours := fsub original_time_hours optimized_time_hours in
   modify_self (fun o => set_metrics (update (metrics o)
     [("original_time_hours", VFloat original_time_hours);
      ("optimized_time_hours", VFloat optimized_time_hours);
      ("original_cost", VFloat original_cost);
      ("optimized_cost", VFloat optimized_cost);
      ("cost_saved", VFloat cost_saved);
      ("time_saved_hours", VFloat time_saved_hours)]) o))%M.

(** The quantity [eoq] of one product, before it is rounded up. *)
Definition eoq_of (p : value) : result num :=
  (D <- py_getitem p "frequency" ;;
   let S := COST_PER_ORDER in
   unit_cost <- py_getitem p "unit_cost" ;;
   H <- value_mul_float unit_cost ANNUAL_HOLDING_COST_PERCENTAGE ;;
   if num_gt H (NInt 0)
   then (twoD <- int_mul_value 2 D ;;
         twoDS <- num_mul twoD (NFloat S) ;;
         q <- num_truediv twoDS H ;;
         eoq <- math_sqrt q ;;
         Ok (NFloat eoq))
   else Ok (NInt 0))%result.

(** The locals [service_level_z_score] and [lead_time_days]. *)
Definition service_level_z_score : float := Eval vm_compute in decimal 1645 1000.
Definition lead_time_days : Z := 7.

(** The quantity [safety_stock] of one product, before it is rounded up. *)
Definition safety_stock_of (p : value) : result float :=
  (frequency <- py_getitem p "frequency" ;;
   per_day <- value_truediv frequency (NInt 365) ;;
   let demand_std_dev_daily := fmul per_day DEMAND_VARIABILITY_FACTOR in
   lead <- to_float lead_time_days ;;
   root <- math_sqrt lead ;;
   Ok (fmul (fmul service_level_z_score demand_std_dev_daily) root))%result.

(** [inventory_metrics[sku] = ...]: a key must be hashable, a list or a
    dict is not; the embedding keeps the keys of a dict as strings. *)
Definition dict_key (v : value) : result string :=
  match v with
  | VStr s => Ok s
  | VList _ | VDict _ => Raise TypeError
  | _ => Raise Unmodelled
  end.

(** The body of the loop of [_calculate_inventory_metrics]. *)
Definition inventory_step (p : value) (inventory_metrics : list (string * value))
    : result (list (string * value)) :=
  (eoq <- eoq_of p ;;
   safety_stock <- safety_stock_of p ;;
   eoq_units <- math_ceil eoq ;;
   safety_units <- math_ceil (NFloat safety_stock) ;;
   sku <- py_getitem p "sku" ;;
   key <- dict_key sku ;;
   Ok (assign key (VDict [("eoq", VInt eoq_units); ("safety_stock", VInt safety_units)])
         inventory_metrics))%result.

Fixpoint inventory_loop (products : list value) (inventory_metrics : list (string * value))
    : result (list (string * value)) :=
  match products with
  | [] => Ok inventory_metrics
  | p :: rest =>
      (inventory_metrics <- inventory_step p inventory_metrics ;;
       inventory_loop rest inventory_metrics)%result
  end.

Definition _calculate_inventory_metrics : M unit :=
  (o <- get_self ;;
   inventory_metrics <- lift (inventory_loop (products o) []) ;;
   modify_self (fun o => set_report_data
     (assign "inventory_metrics" (VDict inventory_metrics) (report_data o)) o))%M.

Definition calculate_all_metrics : M unit :=
  (o <- get_self ;;
   match products o with
   | [] => ret tt
   | _ :: _ =>
       _calculate_distance_metrics ;;
       _calculate_financial_metrics ;;
       _calculate_inventory_metrics
   end)%M.

Definition _create_results_data_for_json (o : optimizer) : result value :=
  (original_layout_products <- sorted_by_sku (products o) ;;
   let optimized_products_by_category :=
     VDict [("A", VList (dict_get (categories o) "categoryA" []));
            ("B", VList (dict_get (categories o) "categoryB" []));
            ("C", VList (dict_get (categories o) "categoryC" []))] in
   inventory_metrics <- dict_getitem (report_data o) "inventory_metrics" ;;
   Ok (VDict
     [("metrics", VDict (metrics o));
      ("abc_analysis",
        VDict [("categoryA", VList (dict_get (categories o) "categoryA" []));
               ("categoryB", VList (dict_get (categories o) "categoryB" []));
               ("categoryC", VList (dict_get (categories o) "categoryC" []))]);
      ("inventory_metrics", inventory_metrics);
      ("layouts",
        VDict [("original", VList original_layout_products);
               ("optimized", optimized_products_by_category)])]))%result.

(** [open(filepath, 'w')] either succeeds or raises an [IOError] that
    carries a description. *)
Inductive disk : Type :=
| Writable
| Unwritable (description : string).

Definition default_filepath : string := "warehouse_analysis_results.json".

Definition save_results_to_file (d : disk) (filepath : string) : M unit :=
  (o <- get_self ;;
   results_data <- lift (_create_results_data_for_json o) ;;
   match d with
   | Writable =>
       write_file filepath results_data ;;
       print (String "010" "Analysis complete. Results saved to '" ++ filepath ++ "'.")
   | Unwritable e => print ("Error saving file: " ++ e)
   end)%M.

Definition run (source : file_source) (d : disk) : M unit :=
  (load_data source ;;
   o <- get_self ;;
   match products o with
   | [] => ret tt
   | _ :: _ =>
       print "Data loaded successfully. Starting analysis..." ;;
       run_abc_analysis ;;
       calculate_all_metrics ;;
       save_results_to_file d default_filepath
   end)%M.

(** [WarehouseOptimizer("real_world_product_data.json").run()], from an
    empty output. *)
Definition main (source : file_source) (d : disk) : state * result unit :=
  run source d
    {| self := init "real_world_product_data.json"; stdout := [];
       output_file := None |}.

End Script.

(* ================================================================== *)
(** * Specification-level definitions *)
(* ================================================================== *)

(** ** The validator, as the specification words it *)

Definition has_key {A : Type} (k : string) (d : list (string * A)) : bool :=
  match lookup k d with Some _ => true | None => false end.

(** The field is not a number that is at least 0. *)
Definition bad_quantity (v : value) : bool :=
  match as_num v with
  | Some n => negb (num_ge n (NInt 0))
  | None => true
  end.

(** The field is not a record with a length, a width and a height. *)
Definition bad_dimensions (dims : value) : bool :=
  match dims with
  | VDict d => negb (forallb (fun k => has_key k d) ["length"; "width"; "height"])
  | _ => true
  end.

Section Errors.

Variable py_repr : value -> string.

Definition field_errors (bad : bool) (field : string) (sku : value) (i : nat)
    : list string :=
  if bad then [invalid_field_error py_repr field sku i] else [].

(** The errors of the record [p] at index [i]: one for each required key
    that is missing, then one for each of the four fields that is bad;
    for a value that is not a record, only that. *)
Definition product_errors (i : nat) (p : value) : list string :=
  match p with
  | VDict d =>
      let sku := dict_get d "sku" (VStr "N/A") in
      map (missing_key_error i) (filter (fun k => negb (has_key k d)) required_keys)
      ++ field_errors (bad_quantity (dict_get d "frequency" (VInt (-1)))) "frequency" sku i
      ++ field_errors (bad_quantity (dict_get d "unit_cost" (VInt (-1)))) "unit_cost" sku i
      ++ field_errors (bad_quantity (dict_get d "weight_kg" (VInt (-1)))) "weight_kg" sku i
      ++ field_errors (bad_dimensions (dict_get d "dimensions_cm" (VDict [])))
           "dimensions_cm" sku i
  | _ => [not_a_dictionary_error i]
  end.

(** The errors of the records from index [i] on, in order. *)
Fixpoint errors_from (i : nat) (products : list value) : list string :=
  match products with
  | [] => []
  | p :: rest => product_errors i p ++ errors_from (S i) rest
  end.

(** The errors that the validator reports for one record on its own. *)
Definition record_errors (i : nat) (p : value) : list string :=
  match check_product py_repr i p [] with
  | Ok errors => errors
  | Raise _ => []
  end.

(** How an error message names the SKU of a record. *)
Definition sku_text (d : list (string * value)) : string :=
  match lookup "sku" d with
  | Some sku => py_str py_repr sku
  | None => "N/A"
  end.

End Errors.

(** A product that passes every check of the validator. *)
Definition valid_product (p : value) : bool :=
  match p with
  | VDict d =>
      forallb (fun k => has_key k d) required_keys
      && negb (bad_quantity (dict_get d "frequency" (VInt (-1))))
      && negb (bad_quantity (dict_get d "unit_cost" (VInt (-1))))
      && negb (bad_quantity (dict_get d "weight_kg" (VInt (-1))))
      && negb (bad_dimensions (dict_get d "dimensions_cm" (VDict [])))
  | _ => false
  end.

(** The field [frequency] of a record is missing, or is not a number that
    is at least 0. *)
Definition frequency_missing_or_invalid (d : list (string * value)) : Prop :=
  match lookup "frequency" d with
  | None => True
  | Some v =>
      match as_num v with
      | None => True
      | Some n => num_ge n (NInt 0) = false
      end
  end.

(** ** Fields and numbers *)

(** The field of a product as a number, when it is one. *)
Definition field_num (field : string) (p : value) : option num :=
  match py_getitem p field with
  | Ok v => as_num v
  | Raise _ => None
  end.

Definition frequency_of : value -> option num := field_num "frequency".

(** Adding numbers from left to right onto an accumulator. *)
Fixpoint add_all (acc : num) (ns : list num) : result num :=
  match ns with
  | [] => Ok acc
  | n :: rest => (acc <- num_add acc n ;; add_all acc rest)%result
  end.

Definition nonneg (n : num) : Prop := num_ge n (NInt 0) = true.

Definition is_int (n : num) : Prop :=
  match n with NInt _ => True | NFloat _ => False end.

(** The sum of the [int]s among some numbers. *)
Definition int_total (ns : list num) : Z :=
  fold_right (fun n acc => match n with NInt z => z + acc | NFloat _ => acc end) 0 ns.



(** A [float] is a binary64 number, as [json.load] produces them. *)
Definition binary64 (v : value) : Prop :=
  match v with
  | VFloat f => valid_binary prec emax f = true
  | _ => True
  end.



Definition is_real (x : xreal) : Prop := x <> XNaN.

(** ** The classifier, as the specification words it *)

Inductive bucket : Type := BucketA | BucketB | BucketC.

Definition bucket_eqb (x y : bucket) : bool :=
  match x, y with
  | BucketA, BucketA | BucketB, BucketB | BucketC, BucketC => true
  | _, _ => false
  end.

(** The bucket of a record, from the running cumulative share after
    including it: A while the share is at most 0.80, B while it is at
    most 0.95, C otherwise. *)
Definition bucket_of (cumulative_share : float) : bucket :=
  if float_le cumulative_share A_CATEGORY_PERCENTAGE then BucketA
  else if float_le cumulative_share B_CATEGORY_PERCENTAGE then BucketB
  else BucketC.

(** The running cumulative share after each record of the sorted
    sequence, continued from [running]. *)
Fixpoint cumulative_shares (total : num) (sorted_products : list value) (running : float)
    : result (list float) :=
  match sorted_products with
  | [] => Ok []
  | p :: rest =>
      (frequency <- py_getitem p "frequency" ;;
       share <- value_truediv frequency total ;;
       let running := fadd running share in
       shares <- cumulative_shares total rest running ;;
       Ok (running :: shares))%result
  end.

(** The records whose cumulative share falls in bucket [b], in the order
    of the sorted sequence. *)
Definition records_in (b : bucket) (sorted_products : list value) (shares : list float)
    : list value :=
  map fst (filter (fun ps => bucket_eqb (bucket_of (snd ps)) b)
             (combine sorted_products shares)).



(** The sort key of a product's frequency. *)
Definition key_of (p : value) : xreal :=
  match frequency_of p with
  | Some n => num_scaled n
  | None => XNaN
  end.

(** [p] stands in front of [q] in a frequency-descending sequence. *)
Definition frequency_ge (p q : value) : Prop :=
  exists a b, frequency_of p = Some a /\ frequency_of q = Some b /\ num_ge a b = true.

(** The dict that [run_abc_analysis] stores in [self.categories]. *)
Definition categories_of (a b c : list value) : list (string * list value) :=
  [("categoryA", a); ("categoryB", b); ("categoryC", c)].

(** The state after an update of the object. *)
Definition with_self (f : optimizer -> optimizer) (s : state) : state :=
  {| self := f (self s); stdout := stdout s; output_file := output_file s |}.

(** ** The distance metrics, as the specification words them *)

(** The sum of (position x 2) x frequency over the products in their
    original order, the first of them at [position], added from left to
    right onto [acc]. *)
Fixpoint positional_distance (position : Z) (products : list value) (acc : num)
    : result num :=
  match products with
  | [] => Ok acc
  | p :: rest =>
      (frequency <- py_getitem p "frequency" ;;
       d <- int_mul_value (position * 2) frequency ;;
       acc <- num_add acc d ;;
       positional_distance (position + 1) rest acc)%result
  end.

(** The sum of frequency x [distance] over the records of a bucket, added
    from left to right onto [acc]. *)
Fixpoint bucket_distance (distance : Z) (records : list value) (acc : num) : result num :=
  match records with
  | [] => Ok acc
  | p :: rest =>
      (frequency <- py_getitem p "frequency" ;;
       d <- value_mul_int frequency distance ;;
       acc <- num_add acc d ;;
       bucket_distance distance rest acc)%result
  end.

Record distance_metrics : Type := {
  original_distance : num;
  optimized_distance : num;
  distance_saved : num;
  efficiency_improvement : num
}.

(** The four distance metrics of the products and their buckets: the
    bucket distances are 5, 15 and 30; the efficiency improvement is
    saved / original x 100 when the original distance is greater than 0
    and the integer 0 otherwise. *)
Definition distance_metrics_of (products a b c : list value) : result distance_metrics :=
  (original <- positional_distance 1 products (NInt 0) ;;
   in_a <- bucket_distance 5 a (NInt 0) ;;
   in_b <- bucket_distance 15 b (NInt 0) ;;
   in_ab <- num_add in_a in_b ;;
   in_c <- bucket_distance 30 c (NInt 0) ;;
   optimized <- num_add in_ab in_c ;;
   saved <- num_sub original optimized ;;
   efficiency <-
     (if num_gt original (NInt 0)
      then (ratio <- num_truediv saved original ;; num_mul (NFloat ratio) (NInt 100))
      else Ok (NInt 0)) ;;
   Ok {| original_distance := original; optimized_distance := optimized;
         distance_saved := saved; efficiency_improvement := efficiency |})%result.

(** The entries that [_calculate_distance_metrics] stores. *)
Definition distance_entries (m : distance_metrics) : list (string * value) :=
  [("original_distance", of_num (original_distance m));
   ("optimized_distance", of_num (optimized_distance m));
   ("distance_saved", of_num (distance_saved m));
   ("efficiency_improvement", of_num (efficiency_improvement m))].

(** With [int] frequencies the sums are exact: the sum of
    (position x 2) x frequency from [position] on, and the plain sum. *)
Fixpoint weighted_sum (position : Z) (frequencies : list Z) : Z :=
  match frequencies with
  | [] => 0
  | f :: rest => position * 2 * f + weighted_sum (position + 1) rest
  end.

Definition plain_sum (frequencies : list Z) : Z := fold_right Z.add 0 frequencies.

(** The products have the [int] frequencies [fs], in this order. *)
Definition int_frequencies (products : list value) (fs : list Z) : Prop :=
  map frequency_of products = map (fun f => Some (NInt f)) fs.

(** ** The report, as the specification words it *)

(** The SKU of a product, when it is a string. *)
Definition sku_of (p : value) : option string :=
  match py_getitem p "sku" with
  | Ok (VStr s) => Some s
  | _ => None
  end.

(** [p] stands in front of [q] in a sequence sorted by SKU, ascending. *)
Definition sku_le (p q : value) : Prop :=
  exists s1 s2, sku_of p = Some s1 /\ sku_of q = Some s2 /\ String.leb s1 s2 = true.

(** The document that [_create_results_data_for_json] builds from the
    metrics, the three buckets, the inventory parameters and the products
    in the original layout. *)
Definition report (metrics : list (string * value)) (a b c : list value)
    (inventory_metrics : value) (original_layout : list value) : value :=
  VDict
    [("metrics", VDict metrics);
     ("abc_analysis",
       VDict [("categoryA", VList a); ("categoryB", VList b); ("categoryC", VList c)]);
     ("inventory_metrics", inventory_metrics);
     ("layouts",
       VDict [("original", VList original_layout);
              ("optimized", VDict [("A", VList a); ("B", VList b); ("C", VList c)])])].

(** ** The inventory parameters, as the specification words them *)

(** The holding cost per unit: [unit_cost x 0.15]. *)
Definition holding_cost (unit_cost : num) : result num :=
  num_mul unit_cost (NFloat ANNUAL_HOLDING_COST_PERCENTAGE).

(** The quotient [(2 x D x S) / H] under the square root of the EOQ. *)
Definition eoq_quotient (D H : num) : result float :=
  (twoD <- num_mul (NInt 2) D ;;
   twoDS <- num_mul twoD (NFloat COST_PER_ORDER) ;;
   num_truediv twoDS H)%result.

(** The entry of one SKU in [inventory_metrics]. *)
Definition inventory_entry (eoq safety_stock : Z) : value :=
  VDict [("eoq", VInt eoq); ("safety_stock", VInt safety_stock)].

(** [math.sqrt(lead_time_days)], the square root of 7. *)
Definition sqrt_lead_time : float := Eval vm_compute in fsqrt (float_of_Z lead_time_days).



(** ** Sample inputs *)

(** A record with every required field. *)
Definition sample_product (sku : string) (frequency unit_cost : value) : value :=
  VDict [("sku", VStr sku); ("product_name", VStr "Widget"); ("frequency", frequency);
         ("category", VStr "General");
         ("dimensions_cm", VDict [("length", VInt 10); ("width", VInt 20); ("height", VInt 30)]);
         ("weight_kg", VInt 2); ("unit_cost", unit_cost)].

(** The three products of frequencies 100, 50 and 10. *)
Definition product_100 : value := sample_product "P-100" (VInt 100) (VInt 10).
Definition product_50 : value := sample_product "P-050" (VInt 50) (VInt 4).
Definition product_10 : value := sample_product "P-010" (VInt 10) (VInt 25).


(** A stand-in for the interpreter's [repr]. *)
Definition sample_repr (v : value) : string := "<value>".

(** The object after [load_data] has stored [products]. *)
Definition loaded (products : list value) : state :=
  {| self := set_products products (init "real_world_product_data.json");
     stdout := []; output_file := None |}.

(** ** Definitions for the further properties *)

(** A method that leaves the output file as it found it. *)
Definition keeps_output_file {A : Type} (m : M A) : Prop :=
  forall s, output_file (fst (m s)) = output_file s.

(** The state after [load_data] has printed [lines] and stored no product. *)
Definition stopped (lines : list string) (s : state) : state :=
  {| self := set_products [] (self s);
     stdout := stdout s ++ "Initializing Warehouse Optimizer..." :: lines;
     output_file := output_file s |}.

(** A method that does not touch [self.products]. *)
Definition keeps_products {A : Type} (m : M A) : Prop :=
  forall s, products (self (fst (m s))) = products (self s).

(** The values that the validator takes for a quantity: a [bool], an
    [int] that is not negative, and a [float] that is a zero of either
    sign, a positive number or the positive infinity; not a NaN. *)
Definition accepted_quantity (v : value) : bool :=
  match v with
  | VBool _ => true
  | VInt z => 0 <=? z
  | VFloat (S754_zero _) => true
  | VFloat (S754_finite s _ _) | VFloat (S754_infinity s) => negb s
  | _ => false
  end.

(** The four fields whose values the validator looks at. *)
Definition checked_fields : list string :=
  ["frequency"; "unit_cost"; "weight_kg"; "dimensions_cm"].

(** The product has a frequency that equals [n], as numbers compare. *)
Definition has_frequency (n : num) (p : value) : bool :=
  match frequency_of p with
  | Some m => num_eq m n
  | None => false
  end.

(** The product has the SKU [sku]. *)
Definition has_sku (sku : string) (p : value) : bool :=
  match sku_of p with
  | Some s => String.eqb s sku
  | None => false
  end.

(** ** The financial metrics, as the code computes them *)

(** [WALKING_SPEED_MPS * 3600]: the metres walked in an hour, 4320.0. *)
Definition metres_per_hour : float := Eval vm_compute in float_of_Z 4320.

(** The entries that [_calculate_financial_metrics] stores, from the
    hours that the two distances take. *)
Definition financial_entries (original_time_hours optimized_time_hours : float)
    : list (string * value) :=
  let original_cost := fmul original_time_hours LABOR_COST_PER_HOUR in
  let optimized_cost := fmul optimized_time_hours LABOR_COST_PER_HOUR in
  [("original_time_hours", VFloat original_time_hours);
   ("optimized_time_hours", VFloat optimized_time_hours);
   ("original_cost", VFloat original_cost);
   ("optimized_cost", VFloat optimized_cost);
   ("cost_saved", VFloat (fsub original_cost optimized_cost));
   ("time_saved_hours", VFloat (fsub original_time_hours optimized_time_hours))].

(** ** Rounding, as the specification of binary64 has it *)

(** [m x 2^e] on the scale [2^c], for [c <= e]. *)
Definition scaled (c m e : Z) : Z := m * 2 ^ (e - c).

(** The exponent of the binary64 numbers that have [d] digits in front
    of the exponent [e]: [fexp (d + e)]. *)
Definition exponent_of (m e : Z) : Z := fexp prec emax (Zdigits2 m + e).

(** By how many digits rounding shortens the mantissa [m] at the
    exponent [e]. *)
Definition shift (m e : Z) : Z := Z.max 0 (exponent_of m e - e).

(** A mantissa and an exponent within the format, canonical or not. *)
Definition in_format (m e : Z) : Prop := 0 < m < 2 ^ 53 /\ -1074 <= e.

(** A mantissa that stands at or below its canonical exponent: rounding
    it cuts digits, or none. *)
Definition roundable (m e : Z) : Prop := 0 <= m /\ e <= exponent_of m e.

(** [m x 2^e <= m' x 2^e'], whatever the exponents. *)
Definition dyadic_le (m e m' e' : Z) : Prop :=
  scaled (Z.min e e') m e <= scaled (Z.min e e') m' e'.

(** A positive binary64 number between [2^a] and [2^b]. *)
Definition within (a b : Z) (x : float) : Prop :=
  match x with
  | S754_finite false m e =>
      -1074 <= a <= b /\
      bounded prec emax m e = true /\
      scaled (-1074) 1 a <= scaled (-1074) (Z.pos m) e <= scaled (-1074) 1 b
  | _ => False
  end.

(** A product as a stock list has it: the SKU is a string, the frequency
    and the unit cost are [int]s from [low] up to [2^64]. *)
Definition counted_product (low : Z) (p : value) : Prop :=
  exists (sku : string) (frequency unit_cost : Z),
    py_getitem p "sku" = Ok (VStr sku) /\
    py_getitem p "frequency" = Ok (VInt frequency) /\
    py_getitem p "unit_cost" = Ok (VInt unit_cost) /\
    low <= frequency <= 2 ^ 64 /\
    low <= unit_cost <= 2 ^ 64.




(** The frequency of the product is an [int] from [low] on. *)
Definition frequency_from (low : Z) (p : value) : Prop :=
  exists frequency, py_getitem p "frequency" = Ok (VInt frequency) /\ low <= frequency.

(** A zero or a finite binary64 number of the sign [sx] (true for minus)
    whose magnitude is at most [mh x 2^eh]. *)
Definition bounded_by (sx : bool) (mh eh : Z) (x : float) : Prop :=
  match x with
  | S754_zero s => s = sx
  | S754_finite s m e =>
      s = sx /\ bounded prec emax m e = true /\
      scaled (-1074) (Z.pos m) e <= scaled (-1074) mh eh
  | _ => False
  end.

(* ================================================================== *)
(** * Properties *)
(* ================================================================== *)

(** ** The validator *)

Section ValidatorFacts.

Variable py_repr : value -> string.

Lemma not_a_quantity_spec v : not_a_quantity v = Ok (bad_quantity v).
Proof.
  unfold not_a_quantity, bad_quantity, isinstance_number, py_ge_zero.
  destruct (as_num v); reflexivity.
Qed.

Lemma all_contained_dict keys d :
  all_contained keys (VDict d) = Ok (forallb (fun k => has_key k d) keys).
Proof.
  induction keys as [|k keys IH]; simpl; [reflexivity|].
  unfold has_key at 1. destruct (lookup k d); simpl; [exact IH | reflexivity].
Qed.

Lemma not_dimensions_spec v : not_dimensions v = Ok (bad_dimensions v).
Proof.
  destruct v; try reflexivity.
  unfold not_dimensions, bad_dimensions, isinstance_dict.
  rewrite all_contained_dict. reflexivity.
Qed.

Lemma check_field_spec invalid bad field v d i errors :
  invalid v = Ok bad ->
  check_field py_repr invalid field v (VDict d) i errors
  = Ok (errors ++ field_errors py_repr bad field (dict_get d "sku" (VStr "N/A")) i).
Proof.
  intros H. unfold check_field, field_errors. rewrite H. simpl.
  destruct bad; simpl; [reflexivity | now rewrite app_nil_r].
Qed.

Lemma check_required_keys_spec keys d i errors :
  check_required_keys keys (VDict d) i errors
  = Ok (errors ++ map (missing_key_error i) (filter (fun k => negb (has_key k d)) keys)).
Proof.
  revert errors. induction keys as [|k keys IH]; intros errors; simpl.
  - now rewrite app_nil_r.
  - unfold has_key at 1. destruct (lookup k d); simpl; rewrite IH.
    + reflexivity.
    + now rewrite <- app_assoc.
Qed.

Lemma check_product_spec i p errors :
  check_product py_repr i p errors = Ok (errors ++ product_errors py_repr i p).
Proof.
  destruct p; try reflexivity.
  unfold check_product, product_errors. simpl negb. cbv iota.
  rewrite check_required_keys_spec. simpl rbind.
  unfold _validate_numerical_fields. simpl py_get. simpl rbind.
  rewrite (check_field_spec _ _ _ _ _ _ _ (not_a_quantity_spec _)). simpl rbind.
  rewrite (check_field_spec _ _ _ _ _ _ _ (not_a_quantity_spec _)). simpl rbind.
  rewrite (check_field_spec _ _ _ _ _ _ _ (not_a_quantity_spec _)). simpl rbind.
  rewrite (check_field_spec _ _ _ _ _ _ _ (not_dimensions_spec _)).
  now rewrite <- !app_assoc.
Qed.

Lemma check_products_from_spec products : forall i errors,
  check_products_from py_repr i products errors = Ok (errors ++ errors_from py_repr i products).
Proof.
  induction products as [|p rest IH]; intros i errors; simpl.
  - now rewrite app_nil_r.
  - rewrite check_product_spec. simpl. rewrite IH. now rewrite <- app_assoc.
Qed.

Lemma validate_all_list products :
  validate_all py_repr (VList products) = Ok (errors_from py_repr 0 products).
Proof.
  unfold validate_all. simpl. unfold _check_product_fields. simpl.
  now rewrite check_products_from_spec.
Qed.

Lemma validate_all_other data :
  isinstance_list data = false -> validate_all py_repr data = Ok [format_error].
Proof.
  intros H. unfold validate_all, _check_overall_format. rewrite H. reflexivity.
Qed.

(** Data without errors is a list: the branch of [load_data] that stores
    the data only ever stores a list of products. *)
Lemma validate_all_accepts_list data :
  validate_all py_repr data = Ok [] -> exists products, data = VList products.
Proof.
  intros H. destruct data; try (rewrite validate_all_other in H by reflexivity; discriminate).
  eexists; reflexivity.
Qed.

End ValidatorFacts.

Lemma field_errors_nil r bad field sku i : field_errors r bad field sku i = [] <-> bad = false.
Proof. unfold field_errors. destruct bad; split; congruence. Qed.

Lemma missing_keys_nil {A} i keys (d : list (string * A)) :
  map (missing_key_error i) (filter (fun k => negb (has_key k d)) keys) = []
  <-> forallb (fun k => has_key k d) keys = true.
Proof.
  induction keys as [|k keys IH]; simpl; [tauto|].
  destruct (has_key k d); simpl; [exact IH | split; discriminate].
Qed.

Lemma product_errors_nil r i p : product_errors r i p = [] <-> valid_product p = true.
Proof.
  destruct p; try (split; discriminate).
  unfold product_errors, valid_product. cbv zeta.
  rewrite !andb_true_iff, !negb_true_iff, <- (missing_keys_nil i required_keys).
  split.
  - intros H.
    apply app_eq_nil in H as [H0 H]. apply app_eq_nil in H as [H1 H].
    apply app_eq_nil in H as [H2 H]. apply app_eq_nil in H as [H3 H4].
    rewrite field_errors_nil in *. tauto.
  - intros [[[[H0 H1] H2] H3] H4].
    rewrite H0, H1, H2, H3, H4. reflexivity.
Qed.

Lemma errors_from_nil r products : forall i,
  errors_from r i products = [] <-> forallb valid_product products = true.
Proof.
  induction products as [|p rest IH]; intros i; simpl; [tauto|].
  rewrite andb_true_iff, <- IH, <- (product_errors_nil r i). split.
  - intros H. apply app_eq_nil in H. exact H.
  - intros [-> ->]. reflexivity.
Qed.

(** ** Numbers *)

Lemma scaled_compare a b : (Z.shiftl a 1074 ?= Z.shiftl b 1074) = (a ?= b).
Proof.
  rewrite !Z.shiftl_mul_pow2 by lia.
  assert (H : 0 < 2 ^ 1074) by (apply Z.pow_pos_nonneg; lia).
  generalize dependent (2 ^ 1074). intros P H.
  destruct (Z.compare_spec a b) as [E|E|E].
  - subst. apply Z.compare_refl.
  - apply Z.compare_lt_iff. nia.
  - apply Z.compare_gt_iff. nia.
Qed.

Lemma num_le_int a b : num_le (NInt a) (NInt b) = (a <=? b).
Proof.
  unfold num_le, xle. cbn [num_scaled xcompare]. rewrite scaled_compare.
  unfold Z.leb. destruct (a ?= b); reflexivity.
Qed.

Lemma num_lt_int a b : num_lt (NInt a) (NInt b) = (a <? b).
Proof.
  unfold num_lt, xlt. cbn [num_scaled xcompare]. rewrite scaled_compare.
  unfold Z.ltb. destruct (a ?= b); reflexivity.
Qed.

Lemma num_eq_int a b : num_eq (NInt a) (NInt b) = (a =? b).
Proof.
  unfold num_eq, xeq. cbn [num_scaled xcompare]. rewrite scaled_compare.
  now rewrite Z.eqb_compare.
Qed.

Lemma nonneg_int z : nonneg (NInt z) <-> 0 <= z.
Proof. unfold nonneg, num_ge. rewrite num_le_int. apply Z.leb_le. Qed.

Lemma quotient_fits_le x y : 0 <= x <= y -> 0 < y -> quotient_fits x y = true.
Proof.
  intros Hx Hy. unfold quotient_fits. apply Z.ltb_lt.
  rewrite !Z.abs_eq by lia.
  assert (4 <= 2 ^ 1025 - 2 ^ 971).
  { change (2 ^ 1025) with (2 ^ 971 * 2 ^ 54). 
    assert (0 < 2 ^ 971) by (apply Z.pow_pos_nonneg; lia).
    change (2 ^ 54) with 18014398509481984. lia. }
  nia.
Qed.

Lemma quotient_fits_mono x y : 0 <= x <= y -> quotient_fits y 1 = true -> quotient_fits x 1 = true.
Proof.
  unfold quotient_fits. rewrite !Z.ltb_lt. intros H.
  rewrite !Z.abs_eq by lia. lia.
Qed.

Lemma float_zero_scaled f : float_is_zero f = true -> float_scaled f = XFin 0.
Proof. destruct f; simpl; congruence. Qed.

Lemma num_eq_zero_float f : num_eq (NFloat f) (NInt 0) = false -> float_is_zero f = false.
Proof.
  destruct (float_is_zero f) eqn:E; [|reflexivity].
  unfold num_eq. cbn [num_scaled]. rewrite (float_zero_scaled _ E).
  discriminate.
Qed.

Lemma bad_quantity_default : bad_quantity (VInt (-1)) = true.
Proof. unfold bad_quantity. cbn [as_num]. unfold num_ge. now rewrite num_le_int. Qed.

Lemma valid_quantity d field :
  bad_quantity (dict_get d field (VInt (-1))) = false ->
  exists v n, lookup field d = Some v /\ as_num v = Some n /\ nonneg n.
Proof.
  unfold dict_get. destruct (lookup field d) as [v|]; intros H.
  - unfold bad_quantity in H. destruct (as_num v) as [n|] eqn:E; [|discriminate].
    exists v, n. split; [reflexivity|]. split; [exact E|].
    unfold nonneg. now apply negb_false_iff.
  - now rewrite bad_quantity_default in H.
Qed.

Lemma valid_product_frequency p :
  valid_product p = true ->
  exists v n, py_getitem p "frequency" = Ok v /\ as_num v = Some n /\ nonneg n.
Proof.
  destruct p; try discriminate. unfold valid_product.
  rewrite !andb_true_iff, !negb_true_iff. intros [[[[_ H] _] _] _].
  destruct (valid_quantity _ _ H) as (v & n & Hv & Hn & Hp).
  exists v, n. cbn [py_getitem]. unfold dict_getitem. now rewrite Hv.
Qed.



(** The frequencies of valid products, as numbers. *)
Lemma valid_frequencies products :
  forallb valid_product products = true ->
  exists ns, map frequency_of products = map Some ns /\ Forall nonneg ns.
Proof.
  induction products as [|p rest IH]; simpl.
  - exists []. split; [reflexivity | constructor].
  - rewrite andb_true_iff. intros [Hp Hr].
    destruct (IH Hr) as (ns & Hns & Hnn).
    destruct (valid_product_frequency p Hp) as (v & n & Hv & Hn & Hpos).
    exists (n :: ns). split; [|now constructor].
    simpl. rewrite Hns. unfold frequency_of, field_num. now rewrite Hv, Hn.
Qed.

Lemma frequency_of_getitem p n :
  frequency_of p = Some n ->
  exists v, py_getitem p "frequency" = Ok v /\ as_num v = Some n.
Proof.
  unfold frequency_of, field_num. destruct (py_getitem p "frequency") as [v|]; [|discriminate].
  intros H. now exists v.
Qed.

Lemma sum_from_frequencies products ns : forall acc,
  map frequency_of products = map Some ns ->
  sum_from (fun p => py_getitem p "frequency") products acc = add_all acc ns.
Proof.
  revert ns. induction products as [|p rest IH]; intros [|n ns] acc H; try discriminate.
  - reflexivity.
  - simpl in H. injection H as Hp Hr.
    destruct (frequency_of_getitem _ _ Hp) as (v & Hv & Hn).
    simpl. rewrite Hv. simpl. unfold add_value. rewrite Hn.
    destruct (num_add acc n); simpl; [now apply IH | reflexivity].
Qed.

Lemma total_frequency_add_all products ns :
  map frequency_of products = map Some ns ->
  total_frequency products = add_all (NInt 0) ns.
Proof. apply sum_from_frequencies. Qed.

(** ** The exact comparison is the IEEE 754 comparison *)

Lemma digits2_pos_bounds m :
  2 ^ (Z.pos (digits2_pos m) - 1) <= Z.pos m < 2 ^ Z.pos (digits2_pos m).
Proof.
  induction m as [m IH|m IH|]; cbn [digits2_pos].
  - rewrite Pos2Z.inj_succ. replace (Z.succ (Z.pos (digits2_pos m)) - 1)
      with (Z.succ (Z.pos (digits2_pos m) - 1)) by lia.
    rewrite !Z.pow_succ_r by lia. lia.
  - rewrite Pos2Z.inj_succ. replace (Z.succ (Z.pos (digits2_pos m)) - 1)
      with (Z.succ (Z.pos (digits2_pos m) - 1)) by lia.
    rewrite !Z.pow_succ_r by lia. lia.
  - simpl. lia.
Qed.

(** A valid finite number is [m x 2^e] with [e] at least -1074 and [m]
    below [2^53]; above the smallest exponent [m] is at least [2^52]. *)
Lemma bounded_mantissa m e :
  bounded prec emax m e = true ->
  -1074 <= e /\ Z.pos m < 2 ^ 53 /\ (-1074 < e -> 2 ^ 52 <= Z.pos m).
Proof.
  unfold bounded, canonical_mantissa, fexp, emin. intros H.
  apply andb_true_iff in H as [H _]. apply Z.eqb_eq in H.
  change (3 - emax - prec) with (-1074) in H. change prec with 53 in H.
  pose proof (digits2_pos_bounds m) as [Hlo Hhi].
  assert (Hd : Z.pos (digits2_pos m) <= 53) by lia.
  split; [lia|]. split.
  - eapply Z.lt_le_trans; [exact Hhi|]. apply Z.pow_le_mono_r; lia.
  - intros He. assert (Z.pos (digits2_pos m) = 53) as Hd' by lia.
    rewrite Hd' in Hlo. exact Hlo.
Qed.

Lemma scaled_finite_lt m1 e1 m2 e2 :
  bounded prec emax m1 e1 = true -> bounded prec emax m2 e2 = true -> e1 < e2 ->
  Z.shiftl (Z.pos m1) (e1 + 1074) < Z.shiftl (Z.pos m2) (e2 + 1074).
Proof.
  intros H1 H2 He.
  destruct (bounded_mantissa _ _ H1) as (L1 & U1 & _).
  destruct (bounded_mantissa _ _ H2) as (L2 & _ & N2).
  specialize (N2 ltac:(lia)).
  rewrite !Z.shiftl_mul_pow2 by lia.
  replace (e2 + 1074) with ((e1 + 1074) + (e2 - e1)) by lia.
  rewrite (Z.pow_add_r 2 (e1 + 1074) (e2 - e1)) by lia.
  assert (HP : 0 < 2 ^ (e1 + 1074)) by (apply Z.pow_pos_nonneg; lia).
  assert (HQ : 2 ^ 1 <= 2 ^ (e2 - e1)) by (apply Z.pow_le_mono_r; lia).
  change (2 ^ 1) with 2 in HQ. change (2 ^ 53) with (2 * 2 ^ 52) in U1.
  generalize dependent (2 ^ 52). generalize dependent (2 ^ (e2 - e1)).
  generalize dependent (2 ^ (e1 + 1074)). intros P HP Q HQ T U1 N2.
  assert (Z.pos m1 * P < 2 * T * P) by nia.
  assert (2 * T * P <= Z.pos m2 * 2 * P) by nia.
  assert (Z.pos m2 * 2 * P <= Z.pos m2 * Q * P) by nia.
  lia.
Qed.

Lemma scaled_finite_eq m1 m2 e :
  -1074 <= e ->
  (Z.shiftl (Z.pos m1) (e + 1074) ?= Z.shiftl (Z.pos m2) (e + 1074)) = (m1 ?= m2)%positive.
Proof.
  intros He. rewrite !Z.shiftl_mul_pow2 by lia.
  assert (H : 0 < 2 ^ (e + 1074)) by (apply Z.pow_pos_nonneg; lia).
  change (m1 ?= m2)%positive with (Z.pos m1 ?= Z.pos m2).
  destruct (Z.compare_spec (Z.pos m1) (Z.pos m2)) as [E|E|E].
  - rewrite E. apply Z.compare_refl.
  - apply Z.compare_lt_iff. nia.
  - apply Z.compare_gt_iff. nia.
Qed.

Lemma scaled_finite_pos m e : -1074 <= e -> 0 < Z.shiftl (Z.pos m) (e + 1074).
Proof.
  intros He. rewrite Z.shiftl_mul_pow2 by lia.
  assert (0 < 2 ^ (e + 1074)) by (apply Z.pow_pos_nonneg; lia). nia.
Qed.

(** On binary64 numbers the exact comparison is the comparison of the
    IEEE 754 specification. *)
Lemma xcompare_SFcompare x y :
  valid_binary prec emax x = true -> valid_binary prec emax y = true ->
  xcompare (float_scaled x) (float_scaled y) = SFcompare x y.
Proof.
  destruct x as [sx|sx| |sx mx ex], y as [sy|sy| |sy my ey];
    cbn [valid_binary float_scaled SFcompare]; intros Hx Hy;
    try reflexivity; try (destruct sx; reflexivity); try (destruct sy; reflexivity);
    try (destruct sx, sy; reflexivity).
  - destruct (bounded_mantissa _ _ Hy) as (Ly & _).
    pose proof (scaled_finite_pos my ey Ly).
    destruct sy; cbn [cond_Zopp xcompare]; f_equal.
    + apply Z.compare_gt_iff. lia.
    + apply Z.compare_lt_iff. lia.
  - destruct (bounded_mantissa _ _ Hx) as (Lx & _).
    pose proof (scaled_finite_pos mx ex Lx).
    destruct sx; cbn [cond_Zopp xcompare]; f_equal.
    + apply Z.compare_lt_iff. lia.
    + apply Z.compare_gt_iff. lia.
  - destruct (bounded_mantissa _ _ Hx) as (Lx & _).
    destruct (bounded_mantissa _ _ Hy) as (Ly & _).
    pose proof (scaled_finite_pos mx ex Lx). pose proof (scaled_finite_pos my ey Ly).
    cbn [xcompare]. f_equal.
    destruct sx, sy; cbn [cond_Zopp].
    + change (Pos.compare_cont Eq mx my) with (mx ?= my)%positive.
      destruct (Z.compare_spec ex ey) as [E|E|E].
      * subst ey. rewrite <- (scaled_finite_eq mx my ex Lx).
        destruct (Z.compare_spec (Z.shiftl (Z.pos mx) (ex + 1074))
                    (Z.shiftl (Z.pos my) (ex + 1074))); cbn [CompOpp];
          [apply Z.compare_eq_iff | apply Z.compare_gt_iff | apply Z.compare_lt_iff]; lia.
      * pose proof (scaled_finite_lt _ _ _ _ Hx Hy E). apply Z.compare_gt_iff. lia.
      * pose proof (scaled_finite_lt _ _ _ _ Hy Hx E). apply Z.compare_lt_iff. lia.
    + apply Z.compare_lt_iff. lia.
    + apply Z.compare_gt_iff. lia.
    + change (Pos.compare_cont Eq mx my) with (mx ?= my)%positive.
      destruct (Z.compare_spec ex ey) as [E|E|E].
      * subst ey. now rewrite scaled_finite_eq by lia.
      * pose proof (scaled_finite_lt _ _ _ _ Hx Hy E). apply Z.compare_lt_iff. lia.
      * pose proof (scaled_finite_lt _ _ _ _ Hy Hx E). apply Z.compare_gt_iff. lia.
Qed.

(** ** The constants and the range of [float] *)

(** The literals of the script, as [float.hex] prints them: 0.80 is
    0x1.999999999999ap-1, 0.95 is 0x1.e666666666666p-1, 0.15 is
    0x1.3333333333333p-3, 0.2 is 0x1.999999999999ap-3, 1.645 is
    0x1.a51eb851eb852p+0, 1.2 is 0x1.3333333333333p+0. *)
Lemma literals_binary64 :
  A_CATEGORY_PERCENTAGE = S754_finite false 0x1999999999999a (-53) /\
  B_CATEGORY_PERCENTAGE = S754_finite false 0x1e666666666666 (-53) /\
  ANNUAL_HOLDING_COST_PERCENTAGE = S754_finite false 0x13333333333333 (-55) /\
  DEMAND_VARIABILITY_FACTOR = S754_finite false 0x1999999999999a (-55) /\
  service_level_z_score = S754_finite false 0x1a51eb851eb852 (-52) /\
  WALKING_SPEED_MPS = S754_finite false 0x13333333333333 (-52) /\
  COST_PER_ORDER = float_of_Z 50 /\
  Forall (fun c => valid_binary prec emax c = true)
    [A_CATEGORY_PERCENTAGE; B_CATEGORY_PERCENTAGE; ANNUAL_HOLDING_COST_PERCENTAGE;
     DEMAND_VARIABILITY_FACTOR; service_level_z_score; WALKING_SPEED_MPS;
     LABOR_COST_PER_HOUR; COST_PER_ORDER].
Proof. repeat split; repeat constructor. Qed.

(** The largest [int] that [float] converts is just below
    [2^1024 - 2^970]; from there on the nearest binary64 number would be
    an infinity and the conversion raises.  The same bound decides when
    the true division of two [int]s overflows. *)
Lemma to_float_range :
  to_float (2 ^ 1024 - 2 ^ 970 - 1) = Ok (S754_finite false (2 ^ 53 - 1) 971) /\
  float_of_Z (2 ^ 1024 - 2 ^ 970) = S754_infinity false /\
  to_float (2 ^ 1024 - 2 ^ 970) = Raise OverflowError /\
  num_truediv (NInt (2 ^ 1024 - 2 ^ 970 - 1)) (NInt 1)
    = Ok (S754_finite false (2 ^ 53 - 1) 971) /\
  fdiv_Z (2 ^ 1024 - 2 ^ 970) 1 = S754_infinity false /\
  num_truediv (NInt (2 ^ 1024 - 2 ^ 970)) (NInt 1) = Raise OverflowError.
Proof. repeat split; vm_compute; reflexivity. Qed.

(** ** What a successful sum tells about its terms *)

Lemma to_float_ok z : quotient_fits z 1 = true -> to_float z = Ok (float_of_Z z).
Proof. unfold to_float. now intros ->. Qed.

Lemma to_float_fits z f : to_float z = Ok f -> quotient_fits z 1 = true.
Proof. unfold to_float. destruct (quotient_fits z 1); [reflexivity | discriminate]. Qed.

(** An [int] total: every term is an [int], and the total is their sum. *)
Lemma add_all_int ns : forall a t,
  add_all (NInt a) ns = Ok (NInt t) ->
  Forall is_int ns /\ t = a + int_total ns.
Proof.
  induction ns as [|n ns IH]; intros a t H; simpl in *.
  - injection H as <-. split; [constructor | lia].
  - destruct n as [x|g].
    + simpl in H. apply IH in H as [Hi ->]. split; [now constructor | lia].
    + unfold num_add, num_arith in H. simpl in H.
      destruct (to_float a); simpl in H; [|discriminate].
      exfalso. clear -H. revert H. generalize (fadd a0 g). clear.
      induction ns as [|n ns IH]; intros f H; simpl in H; [discriminate|].
      unfold num_add, num_arith in H. simpl in H.
      destruct n as [x|g]; simpl in H.
      * destruct (to_float x); simpl in H; [now apply IH in H | discriminate].
      * now apply IH in H.
Qed.

Lemma add_all_from_float ns : forall f t,
  add_all (NFloat f) ns = Ok t ->
  forall x, In (NInt x) ns -> quotient_fits x 1 = true.
Proof.
  induction ns as [|n ns IH]; intros f t H x Hx; [destruct Hx|].
  simpl in H. unfold num_add, num_arith in H. cbn [num_float rbind] in H.
  destruct n as [z|g]; cbn [num_float rbind] in H.
  - destruct (to_float z) eqn:Ez; cbn [rbind] in H; [|discriminate].
    destruct Hx as [[= ->]|Hx]; [eapply to_float_fits; eauto | eapply IH; eauto].
  - destruct Hx as [Hx|Hx]; [discriminate | eapply IH; eauto].
Qed.

(** A [float] total: every [int] term was converted, so it fits. *)
Lemma add_all_float ns : forall acc t,
  nonneg acc -> Forall nonneg ns ->
  add_all acc ns = Ok (NFloat t) ->
  (forall a, acc = NInt a -> quotient_fits a 1 = true) /\
  (forall x, In (NInt x) ns -> quotient_fits x 1 = true).
Proof.
  induction ns as [|n ns IH]; intros acc t Hacc Hns H.
  - simpl in H. injection H as ->. split; [discriminate | intros x []].
  - inversion Hns as [|? ? Hn Hns']; subst.
    destruct acc as [a|f].
    + destruct n as [x|g].
      * simpl in H. apply nonneg_int in Hacc, Hn.
        apply IH in H as [H1 H2]; [| apply nonneg_int; lia | assumption].
        specialize (H1 _ eq_refl). split.
        -- intros ? [= <-]. apply (quotient_fits_mono a (a + x)); [lia | assumption].
        -- intros y [[= <-]|Hy]; [|now apply H2].
           apply (quotient_fits_mono x (a + x)); [lia | assumption].
      * simpl in H. unfold num_add, num_arith in H. cbn [num_float rbind] in H.
        destruct (to_float a) as [fa|] eqn:Ea; cbn [rbind] in H; [|discriminate].
        split.
        -- intros ? [= <-]. eapply to_float_fits; eauto.
        -- intros y [Hy|Hy]; [discriminate|]. eapply add_all_from_float; eauto.
    + split; [discriminate|]. eapply add_all_from_float; eauto.
Qed.

(** ** Sorting *)

Section Sorting.
Context {K : Type}.
Variable before : K -> K -> bool.

Lemma insert_by_perm x l : Permutation (insert_by before x l) (x :: l).
Proof.
  induction l as [|y l IH]; simpl; [reflexivity|].
  destruct (before (fst y) (fst x)); [|reflexivity].
  rewrite IH. apply perm_swap.
Qed.

Lemma sort_by_perm l : Permutation (sort_by before l) l.
Proof.
  induction l as [|x l IH]; simpl; [reflexivity|].
  rewrite insert_by_perm. now constructor.
Qed.

(** [ordered a b]: an item of key [a] may stand in front of one of key [b]. *)
Variable dom : K -> Prop.
Variable ordered : K -> K -> Prop.
Hypothesis ordered_trans : forall a b c, ordered a b -> ordered b c -> ordered a c.
Hypothesis before_ordered : forall ky kx, dom ky -> dom kx -> before ky kx = true -> ordered ky kx.
Hypothesis not_before_ordered : forall ky kx, dom ky -> dom kx -> before ky kx = false -> ordered kx ky.

Lemma insert_by_sorted x l :
  dom (fst x) -> Forall (fun y => dom (fst y)) l ->
  StronglySorted (fun a b => ordered (fst a) (fst b)) l ->
  StronglySorted (fun a b => ordered (fst a) (fst b)) (insert_by before x l).
Proof.
  intros Hx Hl Hs. induction Hs as [|y l Hs IH Hy]; simpl.
  - repeat constructor.
  - inversion Hl as [|? ? Hdy Hdl]; subst.
    destruct (before (fst y) (fst x)) eqn:E.
    + constructor; [now apply IH|].
      assert (Hp : Permutation (insert_by before x l) (x :: l)) by apply insert_by_perm.
      apply Forall_forall. intros z Hz.
      apply (Permutation_in _ Hp) in Hz. destruct Hz as [<-|Hz].
      * now apply before_ordered.
      * rewrite Forall_forall in Hy. now apply Hy.
    + constructor; [now constructor|].
      assert (Hxy : ordered (fst x) (fst y)) by now apply not_before_ordered.
      constructor; [exact Hxy|].
      eapply Forall_impl; [|exact Hy]. intros z Hz. cbv beta in *.
      eapply ordered_trans; eauto.
Qed.

Lemma sort_by_sorted l :
  Forall (fun y => dom (fst y)) l ->
  StronglySorted (fun a b => ordered (fst a) (fst b)) (sort_by before l).
Proof.
  induction 1 as [|x l Hx Hl IH]; simpl; [constructor|].
  apply insert_by_sorted; auto.
  apply Forall_forall. intros z Hz.
  apply (Permutation_in _ (sort_by_perm l)) in Hz.
  rewrite Forall_forall in Hl. now apply Hl.
Qed.
End Sorting.

Lemma decorate_map {K : Type} (key : value -> result K) (k : value -> K) items :
  Forall (fun p => key p = Ok (k p)) items ->
  decorate key items = Ok (map (fun p => (k p, p)) items).
Proof.
  induction 1 as [|p items Hp _ IH]; simpl; [reflexivity|].
  now rewrite Hp, IH.
Qed.

(* xreal order *)

Lemma xle_trans a b c : xle a b = true -> xle b c = true -> xle a c = true.
Proof.
  unfold xle. destruct a, b, c; simpl; try congruence.
  destruct (z ?= z0) eqn:E1; destruct (z0 ?= z1) eqn:E2; try congruence;
  destruct (z ?= z1) eqn:E3; try congruence; intros _ _;
  rewrite ?Z.compare_eq_iff, ?Z.compare_lt_iff, ?Z.compare_gt_iff in *; lia.
Qed.

Lemma xlt_xle a b : xlt a b = true -> xle a b = true.
Proof. unfold xlt, xle. destruct (xcompare a b) as [[]|]; congruence. Qed.

Lemma not_xlt_xle a b : is_real a -> is_real b -> xlt a b = false -> xle b a = true.
Proof.
  unfold is_real, xlt, xle. destruct a, b; simpl; try congruence.
  intros _ _. rewrite (Z.compare_antisym z z0). destruct (z ?= z0); simpl; congruence.
Qed.

(** ** The classifier *)

Lemma int_total_ge ns x : Forall nonneg ns -> In (NInt x) ns -> 0 <= x <= int_total ns.
Proof.
  induction 1 as [|n ns Hn Hns IH]; intros Hx; [destruct Hx|].
  assert (H0 : 0 <= int_total ns).
  { clear -Hns. induction Hns as [|m ms Hm _ IH]; simpl; [lia|].
    destruct m; [apply nonneg_int in Hm; lia | assumption]. }
  destruct Hx as [->|Hx]; simpl.
  - apply nonneg_int in Hn. lia.
  - specialize (IH Hx). destruct n as [z|]; [apply nonneg_int in Hn; lia | lia].
Qed.

(** Every share of a total that could be computed and is not zero is
    defined. *)
Lemma share_defined ns t :
  Forall nonneg ns -> add_all (NInt 0) ns = Ok t -> num_eq t (NInt 0) = false ->
  forall n, In n ns -> exists q, num_truediv n t = Ok q.
Proof.
  intros Hns Hsum Hz n Hn. destruct t as [T|ft].
  - destruct (add_all_int _ _ _ Hsum) as [Hint ->].
    rewrite Forall_forall in Hint. specialize (Hint _ Hn).
    destruct n as [x|]; [|destruct Hint].
    pose proof (int_total_ge _ _ Hns Hn) as Hx.
    rewrite num_eq_int in Hz. apply Z.eqb_neq in Hz.
    unfold num_truediv. simpl Z.add in *.
    destruct (int_total ns =? 0) eqn:E; [apply Z.eqb_eq in E; lia|].
    rewrite quotient_fits_le by lia. eauto.
  - apply num_eq_zero_float in Hz.
    destruct (add_all_float _ _ _ (proj2 (nonneg_int 0) (Z.le_refl 0)) Hns Hsum) as [_ Hfit].
    destruct n as [x|g]; unfold num_truediv; cbn [num_float rbind].
    + rewrite (to_float_ok _ (Hfit _ Hn)). cbn [rbind]. rewrite Hz. eauto.
    + rewrite Hz. eauto.
Qed.

Lemma abc_loop_spec total sorted : forall current a b c,
  abc_loop total sorted current a b c =
  (shares <- cumulative_shares total sorted current ;;
   Ok (a ++ records_in BucketA sorted shares,
       b ++ records_in BucketB sorted shares,
       c ++ records_in BucketC sorted shares))%result.
Proof.
  induction sorted as [|p rest IH]; intros current a b c.
  - simpl. unfold records_in. simpl. now rewrite !app_nil_r.
  - simpl. destruct (py_getitem p "frequency") as [f|]; [|reflexivity]. cbn [rbind].
    destruct (value_truediv f total) as [share|]; [|reflexivity]. cbn [rbind].
    set (cur := fadd current share).
    destruct (float_le cur A_CATEGORY_PERCENTAGE) eqn:EA;
      [|destruct (float_le cur B_CATEGORY_PERCENTAGE) eqn:EB];
      rewrite IH; destruct (cumulative_shares total rest cur) as [shares|]; try reflexivity;
      cbn [rbind]; unfold records_in; cbn [combine filter snd]; unfold bucket_of;
      rewrite EA, ?EB; cbn [bucket_eqb map fst]; now rewrite <- ?app_assoc.
Qed.

Lemma cumulative_shares_length total sorted : forall running shares,
  cumulative_shares total sorted running = Ok shares -> List.length shares = List.length sorted.
Proof.
  induction sorted as [|p rest IH]; intros running shares H; simpl in H.
  - now injection H as <-.
  - destruct (py_getitem p "frequency"); [|discriminate]. cbn [rbind] in H.
    destruct (value_truediv a total); [|discriminate]. cbn [rbind] in H.
    destruct (cumulative_shares total rest _) eqn:E; [|discriminate].
    injection H as <-. simpl. f_equal. eauto.
Qed.

Lemma cumulative_shares_defined total sorted :
  Forall (fun p => exists v q, py_getitem p "frequency" = Ok v /\ value_truediv v total = Ok q) sorted ->
  forall running, exists shares, cumulative_shares total sorted running = Ok shares.
Proof.
  induction 1 as [|p rest (v & q & Hv & Hq) _ IH]; intros running; simpl.
  - eauto.
  - rewrite Hv. cbn [rbind]. rewrite Hq. cbn [rbind].
    destruct (IH (fadd running q)) as [shares ->]. cbn [rbind]. eauto.
Qed.

(** The three buckets split the sorted sequence. *)
Lemma records_in_partition sorted shares :
  List.length shares = List.length sorted ->
  Permutation (records_in BucketA sorted shares ++ records_in BucketB sorted shares
               ++ records_in BucketC sorted shares) sorted.
Proof.
  revert shares. induction sorted as [|p rest IH]; intros [|c shares] H; try discriminate.
  - reflexivity.
  - injection H as H. specialize (IH _ H). unfold records_in in *. cbn [combine filter snd].
    destruct (bucket_of c); cbn [bucket_eqb map fst app].
    + now constructor.
    + rewrite <- Permutation_middle. now constructor.
    + rewrite app_assoc, <- Permutation_middle, <- app_assoc. now constructor.
Qed.

Lemma nonneg_real n : nonneg n -> is_real (num_scaled n).
Proof.
  unfold nonneg, num_ge, num_le, xle, is_real. intros H E. rewrite E in H.
  cbn in H. discriminate.
Qed.

Lemma frequency_key_valid p :
  valid_product p = true -> frequency_key p = Ok (key_of p) /\ is_real (key_of p).
Proof.
  intros H. destruct (valid_product_frequency p H) as (v & n & Hv & Hn & Hp).
  unfold frequency_key, key_of, frequency_of, field_num. rewrite Hv. cbn [rbind]. rewrite Hn.
  pose proof (nonneg_real n Hp) as Hr. split; [|exact Hr].
  destruct (num_scaled n); [now destruct Hr | reflexivity..].
Qed.

Lemma StronglySorted_map {A B : Type} (R : A -> A -> Prop) (R' : B -> B -> Prop) (f : A -> B) l :
  (forall x y, In x l -> In y l -> R x y -> R' (f x) (f y)) ->
  StronglySorted R l -> StronglySorted R' (map f l).
Proof.
  intros H Hs. induction Hs as [|x l Hs IH Hx]; simpl; constructor.
  - apply IH. intros; apply H; simpl; auto.
  - apply Forall_forall. intros y Hy. apply in_map_iff in Hy as (z & <- & Hz).
    rewrite Forall_forall in Hx. apply H; simpl; auto.
Qed.

Lemma StronglySorted_filter {A : Type} (R : A -> A -> Prop) (keep : A -> bool) l :
  StronglySorted R l -> StronglySorted R (filter keep l).
Proof.
  induction 1 as [|x l Hs IH Hx]; simpl; [constructor|].
  destruct (keep x); [|assumption]. constructor; [assumption|].
  apply Forall_forall. intros y Hy. apply filter_In in Hy as [Hy _].
  rewrite Forall_forall in Hx. auto.
Qed.

Lemma key_of_frequency_ge p q :
  valid_product p = true -> valid_product q = true ->
  xle (key_of q) (key_of p) = true -> frequency_ge p q.
Proof.
  intros Hp Hq H.
  destruct (valid_product_frequency p Hp) as (v & a & Hv & Ha & _).
  destruct (valid_product_frequency q Hq) as (w & b & Hw & Hb & _).
  unfold key_of, frequency_of, field_num in H. rewrite Hv, Hw, Ha, Hb in H.
  exists a, b. unfold frequency_of, field_num. rewrite Hv, Hw. auto.
Qed.

(** [sorted] on valid products: a frequency-descending permutation. *)
Lemma sorted_by_frequency_valid products :
  forallb valid_product products = true ->
  exists sorted_products,
    sorted_by_frequency products = Ok sorted_products /\
    Permutation sorted_products products /\
    StronglySorted frequency_ge sorted_products.
Proof.
  intros Hv. rewrite forallb_forall in Hv.
  set (keyed := map (fun p => (key_of p, p)) products).
  assert (Hd : decorate frequency_key products = Ok keyed).
  { apply decorate_map. apply Forall_forall. intros p Hp.
    now apply frequency_key_valid, Hv. }
  assert (Hsnd : map snd keyed = products).
  { unfold keyed. rewrite map_map. simpl. apply map_id. }
  exists (map snd (sort_by (descending xlt) keyed)).
  unfold sorted_by_frequency. rewrite Hd. cbn [rbind].
  split; [reflexivity|]. split.
  - transitivity (map snd keyed); [apply Permutation_map, sort_by_perm | now rewrite Hsnd].
  - assert (Hin : forall x, In x (sort_by (descending xlt) keyed) ->
                            fst x = key_of (snd x) /\ valid_product (snd x) = true).
    { intros x Hx. apply (Permutation_in _ (sort_by_perm _ keyed)) in Hx.
      unfold keyed in Hx. apply in_map_iff in Hx as (p & <- & Hp). simpl. auto. }
    apply (StronglySorted_map (fun a b => xle (fst b) (fst a) = true)).
    + intros x y Hx Hy Hxy. destruct (Hin x Hx) as [Ex Vx], (Hin y Hy) as [Ey Vy].
      rewrite Ex, Ey in Hxy. now apply key_of_frequency_ge.
    + apply (sort_by_sorted (descending xlt) is_real (fun a b => xle b a = true)).
      * intros a b c Hab Hbc. eapply xle_trans; eauto.
      * intros ky kx _ _ H. now apply xlt_xle.
      * intros ky kx Hy Hx H. now apply not_xlt_xle.
      * apply Forall_forall. intros x Hx. unfold keyed in Hx.
        apply in_map_iff in Hx as (p & <- & Hp). simpl.
        now apply frequency_key_valid, Hv.
Qed.

(** [run_abc_analysis] on valid products whose total frequency is not
    zero: the sorted sequence, its cumulative shares, and the categories
    stored in the object. *)
Lemma run_abc_analysis_classifies s total :
  products (self s) <> [] ->
  forallb valid_product (products (self s)) = true ->
  total_frequency (products (self s)) = Ok total ->
  num_eq total (NInt 0) = false ->
  exists sorted_products shares,
    sorted_by_frequency (products (self s)) = Ok sorted_products /\
    Permutation sorted_products (products (self s)) /\
    StronglySorted frequency_ge sorted_products /\
    cumulative_shares total sorted_products (S754_zero false) = Ok shares /\
    List.length shares = List.length sorted_products /\
    run_abc_analysis s =
      (with_self (set_categories (categories_of
         (records_in BucketA sorted_products shares)
         (records_in BucketB sorted_products shares)
         (records_in BucketC sorted_products shares))) s, Ok tt).
Proof.
  intros Hne Hv Ht Hz.
  destruct (sorted_by_frequency_valid _ Hv) as (sorted & Hs & Hperm & Hsorted).
  destruct (valid_frequencies _ Hv) as (ns & Hns & Hnn).
  assert (Hsum : add_all (NInt 0) ns = Ok total).
  { now rewrite <- (total_frequency_add_all _ _ Hns). }
  assert (Hdef : Forall (fun p => exists v q, py_getitem p "frequency" = Ok v
                                    /\ value_truediv v total = Ok q) sorted).
  { apply Forall_forall. intros p Hp. apply (Permutation_in _ Hperm) in Hp.
    assert (Hn : In (frequency_of p) (map Some ns)).
    { rewrite <- Hns. now apply in_map. }
    apply in_map_iff in Hn as (n & Hn & Hin). symmetry in Hn.
    destruct (frequency_of_getitem _ _ Hn) as (v & Hv' & Hn').
    destruct (share_defined ns total Hnn Hsum Hz n Hin) as [q Hq].
    exists v, q. split; [assumption|]. unfold value_truediv. now rewrite Hn'. }
  destruct (cumulative_shares_defined total sorted Hdef (S754_zero false)) as [shares Hsh].
  exists sorted, shares. repeat (split; [assumption|]).
  split; [eapply cumulative_shares_length; eauto|].
  unfold run_abc_analysis, bind, get_self, lift, modify_self, with_self.
  destruct (products (self s)) as [|p0 rest] eqn:Ep; [now destruct Hne|].
  rewrite Ht, Hz, Hs, abc_loop_spec, Hsh. reflexivity.
Qed.



(** ** The validator's claims *)

(** C4. A top-level value that is not a list yields exactly one error, the
    format error, and no record is checked; the records are checked only
    when the value is a list. *)
Theorem validate_all_rejects_non_list :
  forall (py_repr : value -> string) (data : value),
    isinstance_list data = false ->
    validate_all py_repr data = Ok [format_error] /\
    _check_overall_format data [] = [format_error] /\
    forall products,
      _check_overall_format (VList products) [] = [] /\
      validate_all py_repr (VList products) = check_products_from py_repr 0 products [].
Proof.
  intros py_repr data H. split; [now apply validate_all_other|]. split.
  - unfold _check_overall_format. now rewrite H.
  - intros products. split; reflexivity.
Qed.

Lemma validate_all_rejects_non_list_witness :
  isinstance_list (VDict [("sku", VStr "A1")]) = false /\
  validate_all sample_repr (VDict [("sku", VStr "A1")]) = Ok [format_error].
Proof.
  split; [reflexivity|].
  apply (validate_all_rejects_non_list sample_repr (VDict [("sku", VStr "A1")])).
  reflexivity.
Defined.

Lemma errors_from_app r l1 l2 : forall i,
  errors_from r i (l1 ++ l2) = errors_from r i l1 ++ errors_from r (i + List.length l1) l2.
Proof.
  induction l1 as [|p l1 IH]; intros i; simpl.
  - now rewrite Nat.add_0_r, ?app_nil_l.
  - rewrite IH, <- app_assoc. do 3 f_equal. lia.
Qed.

Lemma record_errors_spec r i p : record_errors r i p = product_errors r i p.
Proof. unfold record_errors. now rewrite check_product_spec. Qed.

Lemma errors_from_concat r products : forall i,
  errors_from r i products
  = List.concat (map (fun ip => record_errors r (fst ip) (snd ip))
              (combine (seq i (List.length products)) products)).
Proof.
  induction products as [|p rest IH]; intros i; simpl; [reflexivity|].
  now rewrite IH, record_errors_spec.
Qed.

Lemma errors_from_nth r products : forall i k p,
  nth_error products k = Some p ->
  forall e, In e (product_errors r (i + k) p) -> In e (errors_from r i products).
Proof.
  induction products as [|q rest IH]; intros i k p Hk e He; [now destruct k|].
  simpl. apply in_or_app. destruct k as [|k]; simpl in Hk.
  - injection Hk as ->. rewrite Nat.add_0_r in He. now left.
  - right. apply (IH (S i) k p Hk). now replace (S i + k)%nat with (i + S k)%nat by lia.
Qed.

Lemma frequency_bad d : frequency_missing_or_invalid d ->
  bad_quantity (dict_get d "frequency" (VInt (-1))) = true.
Proof.
  unfold frequency_missing_or_invalid, dict_get.
  destruct (lookup "frequency" d) as [v|]; [|intros _; apply bad_quantity_default].
  unfold bad_quantity. destruct (as_num v); [|reflexivity]. now intros ->.
Qed.

(** C5. On a list the errors of all records accumulate: the result is the
    concatenation, in order, of what each record yields on its own.  A
    record whose [frequency] is missing or invalid yields a message made of
    its SKU (or ["N/A"] when it has none) and its index. *)
Theorem validate_all_accumulates :
  forall (py_repr : value -> string) (products : list value) (i : nat)
         (d : list (string * value)),
    nth_error products i = Some (VDict d) ->
    frequency_missing_or_invalid d ->
    exists errors,
      validate_all py_repr (VList products) = Ok errors /\
      errors = List.concat (map (fun ip => record_errors py_repr (fst ip) (snd ip))
                         (enumerate products)) /\
      In ("Invalid 'frequency' for SKU '" ++ sku_text py_repr d ++ "' at index "
            ++ str_nat i ++ ".")%string errors.
Proof.
  intros py_repr products i d Hi Hbad.
  exists (errors_from py_repr 0 products).
  split; [apply validate_all_list|]. split; [apply errors_from_concat|].
  apply (errors_from_nth py_repr products 0 i _ Hi). simpl.
  apply in_or_app. right. apply in_or_app. left.
  rewrite (frequency_bad d Hbad). simpl. left.
  unfold invalid_field_error, sku_text, dict_get.
  destruct (lookup "sku" d); reflexivity.
Qed.

Lemma validate_all_accumulates_witness :
  exists errors,
    validate_all sample_repr
      (VList [VInt 7; sample_product "A1" (VInt 5) (VInt 1);
              VDict [("product_name", VStr "Crate"); ("frequency", VStr "many")]]) = Ok errors /\
    In "Product at index 0 is not a dictionary." errors /\
    In "Invalid 'frequency' for SKU 'N/A' at index 2." errors.
Proof.
  destruct (validate_all_accumulates sample_repr
      [VInt 7; sample_product "A1" (VInt 5) (VInt 1);
       VDict [("product_name", VStr "Crate"); ("frequency", VStr "many")]]
      2%nat [("product_name", VStr "Crate"); ("frequency", VStr "many")]
      eq_refl I) as (errors & Hv & He & Hin).
  exists errors. split; [exact Hv|]. split; [|exact Hin].
  rewrite He. vm_compute. auto.
Defined.

(** C9. The validator returns a list of errors on every value and never
    raises.  A list element that is not a record yields its own error and
    nothing else: the errors around it are those of the elements in front
    of it and of the elements behind it. *)
Theorem validate_all_total :
  forall (py_repr : value -> string) (front : list value) (p : value) (behind : list value),
    isinstance_dict p = false ->
    (forall data, exists errors, validate_all py_repr data = Ok errors) /\
    exists errors_front errors_behind,
      validate_all py_repr (VList front) = Ok errors_front /\
      check_products_from py_repr (S (List.length front)) behind [] = Ok errors_behind /\
      validate_all py_repr (VList (front ++ p :: behind))
      = Ok (errors_front ++ [not_a_dictionary_error (List.length front)] ++ errors_behind).
Proof.
  intros py_repr front p behind Hp. split.
  - intros data. destruct (isinstance_list data) eqn:E.
    + destruct data; try discriminate. eexists. apply validate_all_list.
    + eexists. now apply validate_all_other.
  - exists (errors_from py_repr 0 front), (errors_from py_repr (S (List.length front)) behind).
    split; [apply validate_all_list|]. split; [apply check_products_from_spec|].
    rewrite validate_all_list, errors_from_app. simpl.
    destruct p; try discriminate; reflexivity.
Qed.

Lemma validate_all_total_witness :
  validate_all sample_repr (VList [sample_product "A1" (VInt 5) (VInt 1); VStr "oops"; VNone])
  = Ok ["Product at index 1 is not a dictionary."; "Product at index 2 is not a dictionary."].
Proof.
  destruct (validate_all_total sample_repr [sample_product "A1" (VInt 5) (VInt 1)]
              (VStr "oops") [VNone] eq_refl) as [_ (e1 & e2 & H1 & H2 & H)].
  cbn [app] in H. rewrite H. vm_compute in H1, H2.
  injection H1 as <-. injection H2 as <-. reflexivity.
Defined.

(** ** The pipeline *)

Lemma bind_ok {A B} (m : M A) (k : A -> M B) s s' a :
  m s = (s', Ok a) -> bind m k s = k a s'.
Proof. unfold bind. now intros ->. Qed.

Lemma bind_raise {A B} (m : M A) (k : A -> M B) s s' e :
  m s = (s', Raise e) -> bind m k s = (s', Raise e).
Proof. unfold bind. now intros ->. Qed.

Lemma load_data_valid py_repr products s :
  validate_all py_repr (VList products) = Ok [] ->
  load_data py_repr (Decoded (VList products)) s
  = ({| self := set_products products (self s);
        stdout := (stdout s ++ ["Initializing Warehouse Optimizer..."])
                    ++ ["Data loaded and validated successfully."];
        output_file := output_file s |}, Ok tt).
Proof.
  intros Hv. unfold load_data, bind, print, get_self, lift, modify_self.
  cbn [self stdout output_file]. rewrite Hv. reflexivity.
Qed.

Lemma run_abc_analysis_zero s total :
  products (self s) <> [] ->
  total_frequency (products (self s)) = Ok total ->
  num_eq total (NInt 0) = true ->
  run_abc_analysis s
  = ({| self := self s; stdout := stdout s ++ [zero_frequency_message];
        output_file := output_file s |}, Ok tt).
Proof.
  intros Hne Ht Hz. unfold run_abc_analysis, bind, get_self, lift, print.
  destruct (products (self s)) as [|p rest]; [congruence|].
  now rewrite Ht, Hz.
Qed.

Lemma _calculate_distance_metrics_no_categories s :
  categories (self s) = [] ->
  exists e, _calculate_distance_metrics s = (s, Raise e).
Proof.
  intros Hc. unfold _calculate_distance_metrics, bind, get_self, lift.
  destruct (original_distance_of (products (self s))) as [od|e]; [|eauto].
  rewrite Hc. cbn [dict_getitem lookup]. eauto.
Qed.

Lemma calculate_all_metrics_no_categories s :
  products (self s) <> [] -> categories (self s) = [] ->
  exists e, calculate_all_metrics s = (s, Raise e).
Proof.
  intros Hne Hc. unfold calculate_all_metrics. unfold bind at 1, get_self.
  destruct (products (self s)) as [|p rest]; [congruence|].
  destruct (_calculate_distance_metrics_no_categories s Hc) as [e He].
  exists e. now apply bind_raise.
Qed.

(** C1. On the single product of frequency 0 and unit cost 10 the run
    prints the zero-frequency diagnostic and writes no file, but it does
    not stop there: [calculate_all_metrics] reads [self.categories], which
    [run_abc_analysis] left empty, and the [KeyError] leaves [run]. *)
Theorem zero_total_frequency_raises_KeyError :
  forall (py_repr : value -> string) (d : disk),
    exists s,
      main py_repr (Decoded (VList [sample_product "X" (VInt 0) (VInt 10)])) d
      = (s, Raise (KeyError "categoryA")) /\
      output_file s = None /\
      categories (self s) = [] /\
      stdout s = ["Initializing Warehouse Optimizer...";
                  "Data loaded and validated successfully.";
                  "Data loaded successfully. Starting analysis...";
                  zero_frequency_message].
Proof.
  intros py_repr d. eexists. split; [vm_compute; reflexivity|].
  repeat split.
Qed.

(** The same on every input that validates and whose total frequency is
    zero: the run ends with an exception and without an output file. *)
Lemma zero_total_frequency_never_completes :
  forall (py_repr : value -> string) (d : disk) (catalog : list value) (total : num),
    catalog <> [] ->
    validate_all py_repr (VList catalog) = Ok [] ->
    total_frequency catalog = Ok total ->
    num_eq total (NInt 0) = true ->
    exists s e,
      main py_repr (Decoded (VList catalog)) d = (s, Raise e) /\
      output_file s = None /\
      In zero_frequency_message (stdout s).
Proof.
  intros py_repr d catalog total Hne Hv Ht Hz.
  unfold main, run.
  rewrite (bind_ok _ _ _ _ _ (load_data_valid py_repr catalog _ Hv)).
  unfold bind at 1, get_self. cbn [self set_products products].
  destruct catalog as [|p rest] eqn:Ep; [congruence|]. rewrite <- Ep in *.
  unfold bind at 1, print. cbn [self stdout output_file].
  erewrite bind_ok; [|apply (run_abc_analysis_zero _ total); cbn [self set_products products]; assumption].
  cbn [self stdout output_file].
  match goal with |- context [bind calculate_all_metrics _ ?s] =>
    destruct (calculate_all_metrics_no_categories s) as [e He];
      [cbn [self set_products products]; assumption | reflexivity |]
  end.
  erewrite bind_raise by exact He.
  do 2 eexists. split; [reflexivity|]. split; [reflexivity|].
  cbn [stdout]. apply in_or_app. right. now left.
Qed.

(** ** The classifier's claims *)

Lemma num_gt_not_zero t : num_gt t (NInt 0) = true -> num_eq t (NInt 0) = false.
Proof.
  unfold num_gt, num_lt, num_eq, xlt, xeq. cbn [num_scaled].
  change (Z.shiftl 0 1074) with 0.
  destruct (num_scaled t) as [| |z|]; unfold xcompare; try congruence.
  destruct (Z.compare_spec 0 z), (Z.compare_spec z 0); try lia; congruence.
Qed.

Lemma validated_products py_repr products :
  validate_all py_repr (VList products) = Ok [] -> forallb valid_product products = true.
Proof.
  rewrite validate_all_list. intros [= H]. now apply (errors_from_nil py_repr products 0%nat).
Qed.














(** ** The distance metrics *)

Lemma as_num_of_num n : as_num (of_num n) = Some n.
Proof. now destruct n. Qed.

Lemma add_value_of_num acc n : add_value acc (of_num n) = num_add acc n.
Proof. unfold add_value. now rewrite as_num_of_num. Qed.

Lemma original_distance_from products : forall i acc,
  sum_from (fun ip : nat * value =>
      (frequency <- py_getitem (snd ip) "frequency" ;;
       d <- int_mul_value ((Z.of_nat (fst ip) + 1) * 2) frequency ;;
       Ok (of_num d))%result)
    (combine (seq i (List.length products)) products) acc
  = positional_distance (Z.of_nat i + 1) products acc.
Proof.
  induction products as [|p rest IH]; intros i acc; [reflexivity|].
  cbn [List.length seq combine sum_from positional_distance fst snd].
  destruct (py_getitem p "frequency") as [f|]; [|reflexivity]. cbn [rbind].
  destruct (int_mul_value ((Z.of_nat i + 1) * 2) f) as [d|]; [|reflexivity]. cbn [rbind].
  rewrite add_value_of_num. destruct (num_add acc d) as [acc'|]; [|reflexivity]. cbn [rbind].
  rewrite IH. now replace (Z.of_nat (S i) + 1) with (Z.of_nat i + 1 + 1) by lia.
Qed.

Lemma original_distance_positional products :
  original_distance_of products = positional_distance 1 products (NInt 0).
Proof. apply (original_distance_from products 0%nat). Qed.

Lemma zone_distance_from distance records : forall acc,
  sum_from (fun p =>
      (frequency <- py_getitem p "frequency" ;;
       d <- value_mul_int frequency distance ;;
       Ok (of_num d))%result) records acc
  = bucket_distance distance records acc.
Proof.
  induction records as [|p rest IH]; intros acc; [reflexivity|].
  cbn [sum_from bucket_distance].
  destruct (py_getitem p "frequency") as [f|]; [|reflexivity]. cbn [rbind].
  destruct (value_mul_int f distance) as [d|]; [|reflexivity]. cbn [rbind].
  rewrite add_value_of_num. destruct (num_add acc d) as [acc'|]; [|reflexivity]. cbn [rbind].
  apply IH.
Qed.

Lemma zone_distance_bucket records distance :
  zone_distance records distance = bucket_distance distance records (NInt 0).
Proof. apply zone_distance_from. Qed.

(** [_calculate_distance_metrics] computes the metrics of the
    specification and stores them; it raises when they raise. *)
Lemma _calculate_distance_metrics_spec s a b c :
  categories (self s) = categories_of a b c ->
  _calculate_distance_metrics s =
    match distance_metrics_of (products (self s)) a b c with
    | Ok m =>
        (with_self (fun o => set_metrics (update (metrics o) (distance_entries m)) o) s, Ok tt)
    | Raise e => (s, Raise e)
    end.
Proof.
  intros Hc. unfold _calculate_distance_metrics, distance_metrics_of, bind, get_self, lift.
  rewrite Hc. cbn [categories_of dict_getitem lookup String.eqb Ascii.eqb Bool.eqb].
  rewrite original_distance_positional, !zone_distance_bucket.
  change ZONE_A_DISTANCE_M with 5. change ZONE_B_DISTANCE_M with 15.
  change ZONE_C_DISTANCE_M with 30.
  destruct (positional_distance 1 (products (self s)) (NInt 0)) as [original|]; [|reflexivity].
  cbn [rbind].
  destruct (bucket_distance 5 a (NInt 0)) as [in_a|]; [|reflexivity]. cbn [rbind].
  destruct (bucket_distance 15 b (NInt 0)) as [in_b|]; [|reflexivity]. cbn [rbind].
  destruct (num_add in_a in_b) as [in_ab|]; [|reflexivity]. cbn [rbind].
  destruct (bucket_distance 30 c (NInt 0)) as [in_c|]; [|reflexivity]. cbn [rbind].
  destruct (num_add in_ab in_c) as [optimized|]; [|reflexivity]. cbn [rbind].
  destruct (num_sub original optimized) as [saved|]; [|reflexivity]. cbn [rbind].
  destruct (num_gt original (NInt 0)).
  - destruct (num_truediv saved original) as [ratio|]; [|reflexivity]. cbn [rbind].
    destruct (num_mul (NFloat ratio) (NInt 100)) as [eff|]; reflexivity.
  - reflexivity.
Qed.

Lemma int_frequency_terms p f z :
  frequency_of p = Some (NInt f) ->
  exists v, py_getitem p "frequency" = Ok v /\
            int_mul_value z v = Ok (NInt (z * f)) /\
            value_mul_int v z = Ok (NInt (f * z)).
Proof.
  intros H. destruct (frequency_of_getitem _ _ H) as (v & Hv & Hn).
  exists v. split; [exact Hv|].
  destruct v; try discriminate; simpl in Hn; injection Hn as <-; split; reflexivity.
Qed.

Lemma positional_distance_int products fs :
  int_frequencies products fs ->
  forall position acc,
    positional_distance position products (NInt acc)
    = Ok (NInt (acc + weighted_sum position fs)).
Proof.
  unfold int_frequencies. revert fs.
  induction products as [|p rest IH]; intros [|f fs] H position acc; try discriminate.
  - simpl. now rewrite Z.add_0_r.
  - simpl in H. injection H as Hp Hr.
    destruct (int_frequency_terms p f (position * 2) Hp) as (v & Hv & Hm & _).
    cbn [positional_distance weighted_sum]. rewrite Hv. cbn [rbind]. rewrite Hm. cbn [rbind].
    cbn [num_add num_arith rbind]. rewrite (IH fs Hr). do 2 f_equal. lia.
Qed.

Lemma bucket_distance_int distance records fs :
  int_frequencies records fs ->
  forall acc,
    bucket_distance distance records (NInt acc)
    = Ok (NInt (acc + plain_sum fs * distance)).
Proof.
  unfold int_frequencies. revert fs.
  induction records as [|p rest IH]; intros [|f fs] H acc; try discriminate.
  - simpl. now rewrite Z.add_0_r.
  - simpl in H. injection H as Hp Hr.
    destruct (int_frequency_terms p f distance Hp) as (v & Hv & _ & Hm).
    cbn [bucket_distance]. rewrite Hv. cbn [rbind]. rewrite Hm. cbn [rbind].
    cbn [num_add num_arith rbind]. rewrite (IH fs Hr). do 2 f_equal.
    unfold plain_sum. simpl. lia.
Qed.

Lemma weighted_sum_bound fs : Forall (fun f => 0 <= f) fs ->
  forall position, 1 <= position -> 2 * plain_sum fs <= weighted_sum position fs.
Proof.
  induction 1 as [|f fs Hf _ IH]; intros position Hp; [simpl; lia|].
  specialize (IH (position + 1) ltac:(lia)). unfold plain_sum in *.
  cbn [weighted_sum fold_right].
  assert (0 <= (position - 1) * f) by (apply Z.mul_nonneg_nonneg; lia). lia.
Qed.

Lemma plain_sum_app l1 l2 : plain_sum (l1 ++ l2) = plain_sum l1 + plain_sum l2.
Proof. unfold plain_sum. induction l1; simpl; lia. Qed.

Lemma plain_sum_perm l1 l2 : Permutation l1 l2 -> plain_sum l1 = plain_sum l2.
Proof. unfold plain_sum. induction 1; simpl; lia. Qed.

Lemma plain_sum_nonneg fs : Forall (fun f => 0 <= f) fs -> 0 <= plain_sum fs.
Proof. unfold plain_sum. induction 1; simpl; lia. Qed.

Lemma int_frequencies_app a b fa fb :
  int_frequencies a fa -> int_frequencies b fb -> int_frequencies (a ++ b) (fa ++ fb).
Proof. unfold int_frequencies. intros Ha Hb. now rewrite !map_app, Ha, Hb. Qed.

Lemma int_frequencies_perm l1 l2 f1 f2 :
  int_frequencies l1 f1 -> int_frequencies l2 f2 -> Permutation l1 l2 -> Permutation f1 f2.
Proof.
  unfold int_frequencies. intros H1 H2 Hp.
  apply (Permutation_map frequency_of) in Hp. rewrite H1, H2 in Hp.
  apply Permutation_map_inv in Hp as (f3 & Hf3 & Hp).
  assert (f3 = f1); [|now subst].
  clear -Hf3. revert f3 Hf3. induction f1 as [|x f1 IH]; intros [|y f3] H; try discriminate.
  - reflexivity.
  - simpl in H. injection H as -> H. f_equal. now apply IH.
Qed.

(** With [int] frequencies, and buckets that hold the products, the
    metrics are exact integers. *)
Lemma distance_metrics_of_int products a b c fs fa fb fc :
  int_frequencies products fs -> int_frequencies a fa ->
  int_frequencies b fb -> int_frequencies c fc ->
  Forall (fun f => 0 <= f) fs ->
  Permutation (a ++ b ++ c) products ->
  distance_metrics_of products a b c =
    Ok {| original_distance := NInt (weighted_sum 1 fs);
          optimized_distance := NInt (plain_sum fa * 5 + plain_sum fb * 15 + plain_sum fc * 30);
          distance_saved :=
            NInt (weighted_sum 1 fs
                  - (plain_sum fa * 5 + plain_sum fb * 15 + plain_sum fc * 30));
          efficiency_improvement :=
            if 0 <? weighted_sum 1 fs
            then NFloat (fmul (fdiv_Z (weighted_sum 1 fs
                                       - (plain_sum fa * 5 + plain_sum fb * 15
                                          + plain_sum fc * 30))
                                 (weighted_sum 1 fs))
                           (float_of_Z 100))
            else NInt 0 |}.
Proof.
  intros Hs Ha Hb Hc Hpos Hperm.
  assert (Hf : Permutation (fa ++ fb ++ fc) fs).
  { eapply int_frequencies_perm; [| exact Hs | exact Hperm].
    repeat apply int_frequencies_app; assumption. }
  assert (Hsum : plain_sum fa + plain_sum fb + plain_sum fc = plain_sum fs).
  { rewrite <- (plain_sum_perm _ _ Hf), !plain_sum_app. lia. }
  assert (Hall : Forall (fun f => 0 <= f) (fa ++ fb ++ fc)).
  { apply Forall_forall. intros x Hx. rewrite Forall_forall in Hpos.
    apply Hpos. now apply (Permutation_in _ Hf). }
  apply Forall_app in Hall as [Hfa Hall]. apply Forall_app in Hall as [Hfb Hfc].
  pose proof (plain_sum_nonneg _ Hfa). pose proof (plain_sum_nonneg _ Hfb).
  pose proof (plain_sum_nonneg _ Hfc).
  pose proof (weighted_sum_bound fs Hpos 1 ltac:(lia)) as HW.
  unfold distance_metrics_of.
  rewrite (positional_distance_int _ _ Hs), (bucket_distance_int _ _ _ Ha),
    (bucket_distance_int _ _ _ Hb), (bucket_distance_int _ _ _ Hc).
  cbn [rbind num_add num_sub num_arith]. rewrite !Z.add_0_l.
  unfold num_gt. rewrite num_lt_int.
  set (W := weighted_sum 1 fs) in *.
  set (O := plain_sum fa * 5 + plain_sum fb * 15 + plain_sum fc * 30) in *.
  destruct (0 <? W) eqn:E; [|reflexivity].
  apply Z.ltb_lt in E. unfold num_truediv.
  replace (W =? 0) with false by (symmetry; apply Z.eqb_neq; lia).
  assert (Hq : quotient_fits (W - O) W = true).
  { unfold quotient_fits. apply Z.ltb_lt.
    assert (Z.abs (W - O) <= 14 * W) by (subst O; lia).
    rewrite (Z.abs_eq W) by lia.
    assert (32 <= 2 ^ 1025 - 2 ^ 971).
    { change (2 ^ 1025) with (2 ^ 971 * 2 ^ 54).
      assert (0 < 2 ^ 971) by (apply Z.pow_pos_nonneg; lia).
      change (2 ^ 54) with 18014398509481984. lia. }
    nia. }
  rewrite Hq. cbn [rbind]. reflexivity.
Qed.



(** ** The report *)

Lemma string_ltb_leb s1 s2 : String.ltb s1 s2 = true -> String.leb s1 s2 = true.
Proof. unfold String.ltb, String.leb. destruct (String.compare s1 s2); congruence. Qed.

Lemma string_not_ltb_leb s1 s2 : String.ltb s1 s2 = false -> String.leb s2 s1 = true.
Proof.
  unfold String.ltb, String.leb. rewrite (String.compare_antisym s2 s1).
  destruct (String.compare s1 s2); simpl; congruence.
Qed.

Lemma string_leb_trans s1 s2 s3 :
  String.leb s1 s2 = true -> String.leb s2 s3 = true -> String.leb s1 s3 = true.
Proof.
  unfold String.leb.
  destruct (String.compare s1 s2) eqn:E12; try discriminate;
    destruct (String.compare s2 s3) eqn:E23; try discriminate; intros _ _.
  - apply String.compare_eq_iff in E12. subst s1. now rewrite E23.
  - apply String.compare_eq_iff in E12. subst s1. now rewrite E23.
  - apply String.compare_eq_iff in E23. subst s3. now rewrite E12.
  - change (String_as_OT.cmp s1 s2 = Lt) in E12. change (String_as_OT.cmp s2 s3 = Lt) in E23.
    rewrite String_as_OT.cmp_lt in E12, E23.
    pose proof (String_as_OT.lt_trans _ _ _ E12 E23) as H.
    rewrite <- String_as_OT.cmp_lt in H. unfold String_as_OT.cmp in H. now rewrite H.
Qed.

Lemma sku_key_string p s : sku_of p = Some s -> sku_key p = Ok s.
Proof.
  unfold sku_of, sku_key. destruct (py_getitem p "sku") as [[]|]; try discriminate.
  now intros [= ->].
Qed.

(** [sorted] by SKU on products whose SKUs are strings: an ascending
    permutation. *)
Lemma sorted_by_sku_strings products :
  Forall (fun p => exists s, sku_of p = Some s) products ->
  exists original,
    sorted_by_sku products = Ok original /\
    Permutation original products /\
    StronglySorted sku_le original.
Proof.
  intros Hv.
  set (k := fun p => match sku_of p with Some s => s | None => "" end).
  set (keyed := map (fun p => (k p, p)) products).
  assert (Hd : decorate sku_key products = Ok keyed).
  { apply decorate_map. eapply Forall_impl; [|exact Hv]. intros p [s Hs].
    unfold k. rewrite Hs. now apply sku_key_string. }
  assert (Hsnd : map snd keyed = products).
  { unfold keyed. rewrite map_map. simpl. apply map_id. }
  exists (map snd (sort_by (ascending String.ltb) keyed)).
  unfold sorted_by_sku. rewrite Hd. cbn [rbind].
  split; [reflexivity|]. split.
  - transitivity (map snd keyed); [apply Permutation_map, sort_by_perm | now rewrite Hsnd].
  - assert (Hin : forall x, In x (sort_by (ascending String.ltb) keyed) ->
                            sku_of (snd x) = Some (fst x)).
    { intros x Hx. apply (Permutation_in _ (sort_by_perm _ keyed)) in Hx.
      unfold keyed in Hx. apply in_map_iff in Hx as (p & <- & Hp). simpl.
      rewrite Forall_forall in Hv. destruct (Hv p Hp) as [s Hs]. unfold k. now rewrite Hs. }
    apply (StronglySorted_map (fun a b => String.leb (fst a) (fst b) = true)).
    + intros x y Hx Hy Hxy. exists (fst x), (fst y). auto.
    + apply (sort_by_sorted (ascending String.ltb) (fun _ => True)
               (fun a b => String.leb a b = true)).
      * intros a b c. apply string_leb_trans.
      * intros ky kx _ _ H. now apply string_ltb_leb.
      * intros ky kx _ _ H. now apply string_not_ltb_leb.
      * apply Forall_forall. auto.
Qed.

Lemma records_in_sorted b sorted shares :
  StronglySorted frequency_ge sorted -> StronglySorted frequency_ge (records_in b sorted shares).
Proof.
  intros Hs. unfold records_in.
  apply (StronglySorted_map (fun x y => frequency_ge (fst x) (fst y))); [auto|].
  apply StronglySorted_filter.
  revert shares. induction Hs as [|p rest Hs IH Hp]; intros [|c shares]; simpl; try constructor.
  - apply IH.
  - apply Forall_forall. intros [q d] Hq. apply in_combine_l in Hq.
    rewrite Forall_forall in Hp. simpl. auto.
Qed.

(** C8. The report's layouts are two views of the same products, with
    nothing recomputed.  For an object [o] that holds the products and the
    categories left by the classifier (on products that validate, with
    string SKUs): "original" is a rearrangement of the products in
    ascending order of SKU, and "optimized" (like "abc_analysis") holds
    under A, B and C the very lists that the classifier stored, each in
    descending order of frequency. *)
Theorem report_layouts :
  forall (py_repr : value -> string) (s : state) (total : num) (o : optimizer)
         (inventory_metrics : value),
    products (self s) <> [] ->
    validate_all py_repr (VList (products (self s))) = Ok [] ->
    total_frequency (products (self s)) = Ok total ->
    num_gt total (NInt 0) = true ->
    Forall (fun p => exists sku, sku_of p = Some sku) (products (self s)) ->
    products o = products (self s) ->
    categories o = categories (self (fst (run_abc_analysis s))) ->
    lookup "inventory_metrics" (report_data o) = Some inventory_metrics ->
    exists (a b c original : list value),
      run_abc_analysis s = (with_self (set_categories (categories_of a b c)) s, Ok tt) /\
      StronglySorted frequency_ge a /\
      StronglySorted frequency_ge b /\
      StronglySorted frequency_ge c /\
      _create_results_data_for_json o
      = Ok (report (metrics o) a b c inventory_metrics original) /\
      Permutation original (products o) /\
      StronglySorted sku_le original.
Proof.
  intros py_repr s total o inv Hne Hv Ht Hpos Hsku Hprod Hcat Hinv.
  apply validated_products in Hv. apply num_gt_not_zero in Hpos.
  destruct (run_abc_analysis_classifies s total Hne Hv Ht Hpos)
    as (sorted & shares & _ & _ & Hsorted & _ & _ & Hrun).
  rewrite <- Hprod in Hsku.
  destruct (sorted_by_sku_strings _ Hsku) as (original & Ho & Hperm & Hso).
  rewrite Hrun in Hcat. cbn [fst with_self self set_categories categories] in Hcat.
  exists (records_in BucketA sorted shares), (records_in BucketB sorted shares),
         (records_in BucketC sorted shares), original.
  split; [exact Hrun|].
  repeat (split; [now apply records_in_sorted|]).
  split; [|split; assumption].
  unfold _create_results_data_for_json, report. rewrite Ho, Hcat. cbn [rbind].
  unfold dict_getitem. rewrite Hinv. reflexivity.
Qed.

Lemma report_layouts_witness :
  exists a b c original,
    _create_results_data_for_json
      (set_report_data [("inventory_metrics", VDict [])]
         (set_categories (categories_of [product_100] [product_50] [product_10])
            (self (loaded [product_50; product_10; product_100]))))
    = Ok (report [] a b c (VDict []) original) /\
    StronglySorted frequency_ge a /\
    StronglySorted sku_le original /\
    Permutation original [product_50; product_10; product_100].
Proof.
  destruct (report_layouts sample_repr (loaded [product_50; product_10; product_100]) (NInt 160)
              (set_report_data [("inventory_metrics", VDict [])]
                 (set_categories (categories_of [product_100] [product_50] [product_10])
                    (self (loaded [product_50; product_10; product_100]))))
              (VDict []))
    as (a & b & c & original & _ & Ha & _ & _ & Hr & Hp & Hs).
  - discriminate.
  - vm_compute. reflexivity.
  - vm_compute. reflexivity.
  - vm_compute. reflexivity.
  - repeat constructor; eexists; vm_compute; reflexivity.
  - reflexivity.
  - vm_compute. reflexivity.
  - reflexivity.
  - exists a, b, c, original. auto.
Defined.

(** ** The inventory parameters *)











Lemma int_mul_value_num z v n : as_num v = Some n -> int_mul_value z v = num_mul (NInt z) n.
Proof. destruct v; try discriminate; unfold int_mul_value; now intros ->. Qed.

Lemma value_mul_float_num v n f : as_num v = Some n -> value_mul_float v f = num_mul n (NFloat f).
Proof. unfold value_mul_float. now intros ->. Qed.

Lemma value_truediv_num v n m : as_num v = Some n -> value_truediv v m = num_truediv n m.
Proof. unfold value_truediv. now intros ->. Qed.















(** [eoq_of] in terms of the holding cost and the quotient. *)
Lemma eoq_of_spec p f c D unit_cost :
  py_getitem p "frequency" = Ok f -> as_num f = Some D ->
  py_getitem p "unit_cost" = Ok c -> as_num c = Some unit_cost ->
  eoq_of p =
    (H <- holding_cost unit_cost ;;
     if num_gt H (NInt 0)
     then (q <- eoq_quotient D H ;; root <- math_sqrt q ;; Ok (NFloat root))
     else Ok (NInt 0))%result.
Proof.
  intros Hf HD Hc Hu. unfold eoq_of, holding_cost, eoq_quotient.
  rewrite Hf, Hc. cbn [rbind].
  rewrite (value_mul_float_num _ _ _ Hu), (int_mul_value_num _ _ _ HD).
  destruct (num_mul unit_cost (NFloat ANNUAL_HOLDING_COST_PERCENTAGE)) as [H|]; [|reflexivity].
  cbn [rbind]. destruct (num_gt H (NInt 0)); [|reflexivity].
  destruct (num_mul (NInt 2) D) as [twoD|]; [|reflexivity]. cbn [rbind].
  destruct (num_mul twoD (NFloat COST_PER_ORDER)) as [twoDS|]; reflexivity.
Qed.

(** [safety_stock_of] in terms of the frequency per day. *)
Lemma safety_stock_of_spec p f D :
  py_getitem p "frequency" = Ok f -> as_num f = Some D ->
  safety_stock_of p =
    (per_day <- num_truediv D (NInt 365) ;;
     Ok (fmul (fmul service_level_z_score (fmul per_day DEMAND_VARIABILITY_FACTOR))
           sqrt_lead_time))%result.
Proof.
  intros Hf HD. unfold safety_stock_of. rewrite Hf. cbn [rbind].
  rewrite (value_truediv_num _ _ _ HD).
  destruct (num_truediv D (NInt 365)) as [per_day|]; [|reflexivity]. cbn [rbind].
  assert (E : (lead <- to_float lead_time_days ;; root <- math_sqrt lead ;;
               Ok (fmul (fmul service_level_z_score (fmul per_day DEMAND_VARIABILITY_FACTOR))
                     root))%result
              = (root <- Ok sqrt_lead_time ;;
                 Ok (fmul (fmul service_level_z_score (fmul per_day DEMAND_VARIABILITY_FACTOR))
                       root))%result).
  { change (to_float lead_time_days) with (Ok (A := float) (float_of_Z lead_time_days)).
    cbn [rbind].
    change (math_sqrt (float_of_Z lead_time_days)) with (Ok (A := float) sqrt_lead_time).
    reflexivity. }
  exact E.
Qed.







(* ================================================================== *)
(** * Further properties *)
(* ================================================================== *)

(** ** The run: what is written, and when *)

Lemma keeps_ret {A} (a : A) : keeps_output_file (ret a).
Proof. intros s. reflexivity. Qed.

Lemma keeps_lift {A} (r : result A) : keeps_output_file (lift r).
Proof. intros s. reflexivity. Qed.

Lemma keeps_get_self : keeps_output_file get_self.
Proof. intros s. reflexivity. Qed.

Lemma keeps_modify_self f : keeps_output_file (modify_self f).
Proof. intros s. reflexivity. Qed.

Lemma keeps_print line : keeps_output_file (print line).
Proof. intros s. reflexivity. Qed.

Lemma keeps_bind {A B} (m : M A) (k : A -> M B) :
  keeps_output_file m -> (forall a, keeps_output_file (k a)) -> keeps_output_file (bind m k).
Proof.
  intros Hm Hk s. unfold bind. specialize (Hm s).
  destruct (m s) as [s' [a|e]]; simpl in *.
  - now rewrite Hk.
  - assumption.
Qed.

Lemma keeps_for_each {A} (body : A -> M unit) items :
  (forall x, keeps_output_file (body x)) -> keeps_output_file (for_each body items).
Proof.
  intros Hb. induction items as [|x rest IH]; simpl.
  - apply keeps_ret.
  - apply keeps_bind; auto.
Qed.

Create HintDb keeps.
#[local] Hint Resolve keeps_ret keeps_lift keeps_get_self keeps_modify_self keeps_print
  keeps_for_each : keeps.

Ltac keeps_step :=
  match goal with
  | |- keeps_output_file (bind _ _) => apply keeps_bind; [|intros]
  | |- keeps_output_file (match ?x with _ => _ end) => destruct x
  | |- keeps_output_file (if ?x then _ else _) => destruct x
  | |- keeps_output_file (for_each _ _) => apply keeps_for_each; intros
  | |- keeps_output_file _ => solve [auto with keeps]
  end.

Lemma keeps_load_data py_repr source : keeps_output_file (load_data py_repr source).
Proof. unfold load_data. repeat keeps_step. Qed.

Lemma keeps_run_abc_analysis : keeps_output_file run_abc_analysis.
Proof. unfold run_abc_analysis. repeat keeps_step. Qed.

Lemma keeps__calculate_distance_metrics : keeps_output_file _calculate_distance_metrics.
Proof. unfold _calculate_distance_metrics. repeat keeps_step. Qed.

Lemma keeps__calculate_financial_metrics : keeps_output_file _calculate_financial_metrics.
Proof. unfold _calculate_financial_metrics. repeat keeps_step. Qed.

Lemma keeps__calculate_inventory_metrics : keeps_output_file _calculate_inventory_metrics.
Proof. unfold _calculate_inventory_metrics. repeat keeps_step. Qed.

Lemma keeps_calculate_all_metrics : keeps_output_file calculate_all_metrics.
Proof.
  unfold calculate_all_metrics.
  repeat keeps_step; auto using keeps__calculate_distance_metrics,
    keeps__calculate_financial_metrics, keeps__calculate_inventory_metrics.
Qed.

Lemma for_each_print (f : string -> string) lines s :
  for_each (fun line => print (f line)) lines s
  = ({| self := self s; stdout := stdout s ++ map f lines; output_file := output_file s |},
     Ok tt).
Proof.
  revert s. induction lines as [|l rest IH]; intros s; simpl.
  - unfold ret. rewrite app_nil_r. now destruct s.
  - unfold bind, print. rewrite IH. cbn [self stdout output_file].
    now rewrite <- app_assoc.
Qed.

(** [run] without products: the three ways in which [load_data] stores
    none although the data raises no complaint of the validator. *)
Lemma run_without_products :
  forall (py_repr : value -> string) (d : disk) (s : state),
    run py_repr FileNotFound d s
    = (stopped [("Error: The file '" ++ data_filepath (self s) ++ "' was not found.")%string] s,
       Ok tt) /\
    run py_repr InvalidJSON d s
    = (stopped [("Error: The file '" ++ data_filepath (self s)
                 ++ "' contains invalid JSON.")%string] s,
       Ok tt) /\
    run py_repr (Decoded (VList [])) d s
    = (stopped ["Data loaded and validated successfully."] s, Ok tt).
Proof.
  intros py_repr d s. unfold run, load_data, stopped, bind, print, get_self, modify_self.
  cbn [self stdout output_file set_products products].
  split; [|split].
  - now rewrite <- app_assoc.
  - now rewrite <- app_assoc.
  - change (validate_all py_repr (VList [])) with (@Ok (list string) []).
    unfold lift. cbn [self stdout output_file set_products products].
    now rewrite <- !app_assoc.
Qed.


(** [run] on data that the validator refuses. *)
Lemma run_invalid_data :
  forall (py_repr : value -> string) (data : value) (errors : list string)
         (d : disk) (s : state),
    validate_all py_repr data = Ok errors ->
    errors <> [] ->
    run py_repr (Decoded data) d s
    = (stopped ("Data validation failed. Please correct the following errors:"
                 :: map (fun error => ("  - " ++ error)%string) errors) s, Ok tt).
Proof.
  intros py_repr data errors d s Hv Hne.
  unfold run, load_data, stopped.
  unfold bind at 1. unfold bind at 1. unfold print at 1. cbn [self stdout output_file].
  unfold bind at 1, get_self at 1. cbn [self stdout output_file].
  unfold bind at 1, lift at 1. rewrite Hv.
  destruct errors as [|e rest]; [congruence|].
  unfold bind at 1, print at 1. cbn [self stdout output_file].
  unfold bind at 1. rewrite for_each_print. cbn [self stdout output_file].
  unfold modify_self, bind, get_self. cbn [self stdout output_file set_products products].
  repeat rewrite <- app_assoc. reflexivity.
Qed.

(** X2. Data that does not validate is never analysed: [run] prints every
    error of the validator on a line of its own behind ["  - "], stores
    no product, writes no file and returns normally. *)
Theorem run_prints_validation_errors :
  forall (py_repr : value -> string) (data : value) (errors : list string)
         (d : disk) (s : state),
    validate_all py_repr data = Ok errors ->
    errors <> [] ->
    run py_repr (Decoded data) d s
    = (stopped ("Data validation failed. Please correct the following errors:"
                 :: map (fun error => ("  - " ++ error)%string) errors) s, Ok tt).
Proof. exact run_invalid_data. Qed.

Lemma run_prints_validation_errors_witness :
  run sample_repr (Decoded (VDict [])) Writable (loaded [product_100])
  = (stopped ["Data validation failed. Please correct the following errors:";
              "  - Invalid data format: Expected a JSON list."] (loaded [product_100]), Ok tt).
Proof.
  apply (run_prints_validation_errors sample_repr (VDict []) [format_error]).
  - reflexivity.
  - discriminate.
Defined.

Lemma run_decoded_valid py_repr catalog d s :
  validate_all py_repr (VList catalog) = Ok [] ->
  catalog <> [] ->
  run py_repr (Decoded (VList catalog)) d s
  = bind run_abc_analysis (fun _ =>
      bind calculate_all_metrics (fun _ => save_results_to_file d default_filepath))
      {| self := set_products catalog (self s);
         stdout := stdout s ++ ["Initializing Warehouse Optimizer...";
                                "Data loaded and validated successfully.";
                                "Data loaded successfully. Starting analysis..."];
         output_file := output_file s |}.
Proof.
  intros Hv Hne. unfold run.
  rewrite (bind_ok _ _ _ _ _ (load_data_valid py_repr catalog _ Hv)).
  unfold bind at 1, get_self. cbn [self set_products products].
  destruct catalog as [|p rest] eqn:Ep; [congruence|]. rewrite <- Ep in *.
  unfold bind at 1, print. cbn [self stdout output_file].
  now rewrite <- !app_assoc.
Qed.

Lemma run_abc_analysis_products s s' r :
  run_abc_analysis s = (s', r) -> products (self s') = products (self s).
Proof.
  unfold run_abc_analysis, bind, get_self, lift, print, modify_self, ret.
  destruct (products (self s)) as [|p rest] eqn:Ep.
  - intros H. injection H as <- _. assumption.
  - destruct (total_frequency (p :: rest)) as [total|e].
    + destruct (num_eq total (NInt 0)).
      * intros H. injection H as <- _. assumption.
      * destruct (sorted_by_frequency (p :: rest)) as [sorted|e].
        -- destruct (abc_loop total sorted (S754_zero false) [] [] []) as [[[a b] c]|e];
             intros H; injection H as <- _; assumption.
        -- intros H. injection H as <- _. assumption.
    + intros H. injection H as <- _. assumption.
Qed.

Lemma run_abc_analysis_ok s s' :
  products (self s) <> [] ->
  categories (self s) = [] ->
  run_abc_analysis s = (s', Ok tt) ->
  categories (self s') <> [] ->
  exists total, total_frequency (products (self s)) = Ok total /\
                num_eq total (NInt 0) = false.
Proof.
  intros Hne Hc. unfold run_abc_analysis, bind, get_self, lift, print, modify_self, ret.
  destruct (products (self s)) as [|p rest] eqn:Ep; [congruence|].
  destruct (total_frequency (p :: rest)) as [total|e]; [|discriminate].
  destruct (num_eq total (NInt 0)) eqn:Hz.
  - intros H. injection H as <-. cbn [self]. congruence.
  - intros _ _. now exists total.
Qed.

Lemma modify_self_products f s :
  (forall o, products (f o) = products o) ->
  products (self (fst (modify_self f s))) = products (self s).
Proof. intros H. unfold modify_self. cbn [fst self]. apply H. Qed.

Lemma keeps_products_bind {A B} (m : M A) (k : A -> M B) :
  keeps_products m -> (forall a, keeps_products (k a)) -> keeps_products (bind m k).
Proof.
  intros Hm Hk s. unfold bind. specialize (Hm s).
  destruct (m s) as [s' [a|e]]; simpl in *.
  - now rewrite Hk.
  - assumption.
Qed.

Lemma keeps_products_lift {A} (r : result A) : keeps_products (lift r).
Proof. intros s. reflexivity. Qed.

Lemma keeps_products_get_self : keeps_products get_self.
Proof. intros s. reflexivity. Qed.

Lemma keeps_products_ret {A} (a : A) : keeps_products (ret a).
Proof. intros s. reflexivity. Qed.

Lemma keeps_products_set_metrics f :
  keeps_products (modify_self (fun o => set_metrics (f o) o)).
Proof. intros s. reflexivity. Qed.

Lemma keeps_products_set_report_data f :
  keeps_products (modify_self (fun o => set_report_data (f o) o)).
Proof. intros s. reflexivity. Qed.

#[local] Hint Resolve keeps_products_lift keeps_products_get_self keeps_products_ret
  keeps_products_set_metrics keeps_products_set_report_data : keeps.

Ltac keeps_products_step :=
  match goal with
  | |- keeps_products (bind _ _) => apply keeps_products_bind; [|intros]
  | |- keeps_products (match ?x with _ => _ end) => destruct x
  | |- keeps_products _ => solve [auto with keeps]
  end.

Lemma calculate_all_metrics_products s s' r :
  calculate_all_metrics s = (s', r) -> products (self s') = products (self s).
Proof.
  intros H. assert (K : keeps_products calculate_all_metrics).
  { unfold calculate_all_metrics, _calculate_distance_metrics,
      _calculate_financial_metrics, _calculate_inventory_metrics.
    repeat keeps_products_step. }
  specialize (K s). now rewrite H in K.
Qed.

(** X3. [run] writes a report only at its very end: when a file has been
    written, the data was a non-empty list that validates, its total
    frequency was not zero, the disk was writable, the path is the default
    one, [run] returned normally, and the document is the report of the
    object as the run leaves it. *)
Theorem report_written_only_after_analysis :
  forall (py_repr : value -> string) (source : file_source) (d : disk)
         (path : string) (document : value),
    output_file (fst (main py_repr source d)) = Some (path, document) ->
    exists (catalog : list value) (total : num),
      source = Decoded (VList catalog) /\
      catalog <> [] /\
      validate_all py_repr (VList catalog) = Ok [] /\
      total_frequency catalog = Ok total /\
      num_eq total (NInt 0) = false /\
      d = Writable /\
      path = default_filepath /\
      snd (main py_repr source d) = Ok tt /\
      products (self (fst (main py_repr source d))) = catalog /\
      _create_results_data_for_json (self (fst (main py_repr source d))) = Ok document.
Proof.
  intros py_repr source d path document. unfold main.
  set (s0 := {| self := init "real_world_product_data.json"; stdout := [];
                output_file := None |}).
  destruct source as [| |data].
  - destruct (run_without_products py_repr d s0) as (-> & _). discriminate.
  - destruct (run_without_products py_repr d s0) as (_ & -> & _). discriminate.
  - destruct (validate_all py_repr data) as [errors|e] eqn:Hv.
    2:{ unfold run, load_data, bind, print, get_self, lift. rewrite Hv. discriminate. }
    destruct errors as [|e rest].
    2:{ rewrite (run_invalid_data py_repr data _ d s0 Hv) by discriminate.
        discriminate. }
    destruct (validate_all_accepts_list py_repr data Hv) as [catalog ->].
    destruct catalog as [|p0 rest0] eqn:Ec.
    { destruct (run_without_products py_repr d s0) as (_ & _ & ->). discriminate. }
    rewrite <- Ec in *. assert (Hne : catalog <> []) by (rewrite Ec; discriminate).
    rewrite (run_decoded_valid py_repr catalog d s0 Hv Hne).
    match goal with |- context [bind _ _ ?s] => set (s1 := s) end.
    assert (O1 : output_file s1 = None) by reflexivity.
    assert (P1 : products (self s1) = catalog) by reflexivity.
    assert (C1 : categories (self s1) = []) by reflexivity.
    clearbody s1.
    unfold bind.
    pose proof (keeps_run_abc_analysis s1) as K2.
    destruct (run_abc_analysis s1) as [s2 [[]|e]] eqn:Habc; cbn [fst snd] in K2 |- *.
    2:{ rewrite K2, O1. discriminate. }
    pose proof (run_abc_analysis_products _ _ _ Habc) as P2.
    unfold bind.
    pose proof (keeps_calculate_all_metrics s2) as K3.
    destruct (calculate_all_metrics s2) as [s3 [[]|e]] eqn:Hcalc; cbn [fst snd] in K3 |- *.
    2:{ rewrite K3, K2, O1. discriminate. }
    assert (Hcat : categories (self s2) <> []).
    { intros Hc. destruct (calculate_all_metrics_no_categories s2) as [e He]; auto.
      - rewrite P2, P1. exact Hne.
      - congruence. }
    rewrite <- P1 in Hne.
    destruct (run_abc_analysis_ok s1 s2 Hne C1 Habc Hcat) as (total & Ht & Hz).
    rewrite P1 in Ht, Hne.
    assert (P3 : products (self s3) = catalog).
    { rewrite <- P1, <- P2. eapply calculate_all_metrics_products; eauto. }
    unfold save_results_to_file, bind, get_self, lift.
    destruct (_create_results_data_for_json (self s3)) as [doc|e] eqn:Hdoc.
    2:{ cbn [fst]. rewrite K3, K2, O1. discriminate. }
    destruct d as [|description].
    2:{ unfold print. cbn [fst output_file]. rewrite K3, K2, O1. discriminate. }
    unfold write_file, print. cbn [fst snd self stdout output_file].
    intros H. injection H as <- <-.
    exists catalog, total. repeat (split; [first [reflexivity | assumption]|]).
    exact Hdoc.
Qed.

Lemma report_written_only_after_analysis_witness :
  exists document,
    output_file (fst (main sample_repr (Decoded (VList [product_100; product_50; product_10]))
                        Writable))
    = Some (default_filepath, document) /\
    _create_results_data_for_json
      (self (fst (main sample_repr (Decoded (VList [product_100; product_50; product_10]))
                    Writable))) = Ok document.
Proof.
  eexists. split; [vm_compute; reflexivity|].
  match goal with |- _ = Ok ?doc =>
    destruct (report_written_only_after_analysis sample_repr
                (Decoded (VList [product_100; product_50; product_10])) Writable
                default_filepath doc) as (c & t & _ & _ & _ & _ & _ & _ & _ & _ & _ & H)
  end; [vm_compute; reflexivity | exact H].
Defined.


(** X4. An output file that cannot be opened costs the report and nothing
    else: [save_results_to_file] catches the error, so the run returns as
    it does with a writable disk and leaves the object in the same state;
    no file is written, and the last line printed tells the error in place
    of the success. *)
Theorem unwritable_disk_is_reported :
  forall (py_repr : value -> string) (source : file_source) (description : string),
    let written := main py_repr source Writable in
    let failed := main py_repr source (Unwritable description) in
    snd failed = snd written /\
    self (fst failed) = self (fst written) /\
    output_file (fst failed) = None /\
    match output_file (fst written) with
    | None => stdout (fst failed) = stdout (fst written)
    | Some (path, _) =>
        exists lines,
          stdout (fst written)
          = lines ++ [String "010" "Analysis complete. Results saved to '" ++ path ++ "'."]%string /\
          stdout (fst failed) = lines ++ [("Error saving file: " ++ description)%string]
    end.
Proof.
  intros py_repr source description. cbv zeta. unfold main.
  set (s0 := {| self := init "real_world_product_data.json"; stdout := [];
                output_file := None |}).
  assert (O0 : output_file s0 = None) by reflexivity. clearbody s0.
  unfold run, bind.
  pose proof (keeps_load_data py_repr source s0) as K1.
  destruct (load_data py_repr source s0) as [s1 [[]|e]]; cbn [fst snd] in *.
  2:{ rewrite K1, O0. auto. }
  unfold get_self. destruct (products (self s1)) as [|p rest].
  { unfold ret. cbn [fst snd]. rewrite K1, O0. auto. }
  unfold print. cbn [self stdout output_file].
  match goal with |- context [run_abc_analysis ?s] =>
    pose proof (keeps_run_abc_analysis s) as K2;
    destruct (run_abc_analysis s) as [s2 [[]|e]]
  end; cbn [fst snd output_file] in *.
  2:{ rewrite K2, K1, O0. auto. }
  pose proof (keeps_calculate_all_metrics s2) as K3.
  destruct (calculate_all_metrics s2) as [s3 [[]|e]]; cbn [fst snd] in *.
  2:{ rewrite K3, K2, K1, O0. auto. }
  unfold save_results_to_file, bind, get_self, lift.
  destruct (_create_results_data_for_json (self s3)) as [doc|e]; cbn [fst snd].
  2:{ rewrite K3, K2, K1, O0. auto. }
  unfold write_file, print. cbn [fst snd self stdout output_file].
  rewrite K3, K2, K1, O0. repeat split. exists (stdout s3). split; reflexivity.
Qed.

(** ** What the validator accepts *)

(** The lists without an error are the lists of valid products. *)
Lemma validate_all_valid_products :
  forall (py_repr : value -> string) (data : value),
    validate_all py_repr data = Ok [] <->
    exists products, data = VList products /\ forallb valid_product products = true.
Proof.
  intros py_repr data. split.
  - intros H. destruct (validate_all_accepts_list py_repr data H) as [products ->].
    exists products. split; [reflexivity|]. now apply (validated_products py_repr).
  - intros (products & -> & H). rewrite validate_all_list. f_equal.
    now apply errors_from_nil.
Qed.

(** X5. The validator returns no error exactly for a list whose every
    element is a record that has the seven required keys, a [frequency], a
    [unit_cost] and a [weight_kg] that are numbers not below 0, and a
    [dimensions_cm] that is a record with the keys [length], [width] and
    [height]. *)
Theorem validate_all_accepts_valid_products :
  forall (py_repr : value -> string) (data : value),
    validate_all py_repr data = Ok [] <->
    exists products, data = VList products /\ forallb valid_product products = true.
Proof. exact validate_all_valid_products. Qed.

(** X6. What the validator takes for a quantity: every [bool], every
    [int] from 0 on and, among the binary64 numbers, the zeros, the
    positive numbers and the positive infinity; a NaN, a negative number
    and a value that is not a number are refused. *)
Theorem not_a_quantity_accepts :
  forall v : value,
    binary64 v ->
    not_a_quantity v = Ok (negb (accepted_quantity v)).
Proof.
  intros v Hv. rewrite not_a_quantity_spec. f_equal.
  unfold bad_quantity. destruct v as [| b | z | f | s | l | d]; try reflexivity.
  - cbn [as_num accepted_quantity]. unfold num_ge. rewrite num_le_int. now destruct b.
  - cbn [as_num accepted_quantity]. unfold num_ge. now rewrite num_le_int.
  - cbn [as_num accepted_quantity]. unfold num_ge, num_le, xle. cbn [num_scaled].
    change (Z.shiftl 0 1074) with 0.
    destruct f as [s | s | | s m e]; cbn [float_scaled xcompare]; try reflexivity.
    + now destruct s.
    + cbn [binary64] in Hv. cbn [valid_binary] in Hv.
      apply bounded_mantissa in Hv as [He _].
      pose proof (scaled_finite_pos m e He) as Hp.
      destruct s; cbn [cond_Zopp negb].
      * destruct (Z.compare_spec 0 (- Z.shiftl (Z.pos m) (e + 1074))); try reflexivity; lia.
      * destruct (Z.compare_spec 0 (Z.shiftl (Z.pos m) (e + 1074))); try reflexivity; lia.
Qed.

Lemma not_a_quantity_accepts_witness :
  not_a_quantity (VFloat (S754_infinity false)) = Ok false /\
  not_a_quantity (VFloat S754_nan) = Ok true /\
  not_a_quantity (VFloat (S754_zero true)) = Ok false /\
  not_a_quantity (VBool false) = Ok false.
Proof.
  split; [|split; [|split]].
  - exact (not_a_quantity_accepts (VFloat (S754_infinity false)) eq_refl).
  - exact (not_a_quantity_accepts (VFloat S754_nan) eq_refl).
  - exact (not_a_quantity_accepts (VFloat (S754_zero true)) eq_refl).
  - exact (not_a_quantity_accepts (VBool false) I).
Defined.

Lemma In_field_errors r field sku i :
  In (invalid_field_error r field sku i) (field_errors r true field sku i).
Proof. now left. Qed.

Lemma dict_get_missing {A} (d : list (string * A)) k default :
  lookup k d = None -> dict_get d k default = default.
Proof. unfold dict_get. now intros ->. Qed.

Lemma bad_dimensions_default : bad_dimensions (VDict []) = true.
Proof. reflexivity. Qed.

(** X7. A record that lacks one of the four checked fields is reported
    twice for it: once because the key is missing, and once because the
    default that stands in for the missing value is not valid. *)
Theorem missing_checked_field_is_reported_twice :
  forall (py_repr : value -> string) (products : list value) (i : nat)
         (d : list (string * value)) (field : string),
    nth_error products i = Some (VDict d) ->
    In field checked_fields ->
    lookup field d = None ->
    exists errors,
      validate_all py_repr (VList products) = Ok errors /\
      In (missing_key_error i field) errors /\
      In (invalid_field_error py_repr field (dict_get d "sku" (VStr "N/A")) i) errors.
Proof.
  intros py_repr products i d field Hi Hf Hl.
  exists (errors_from py_repr 0 products). split; [apply validate_all_list|].
  assert (Hmissing : In (missing_key_error i field)
                        (map (missing_key_error i)
                           (filter (fun k => negb (has_key k d)) required_keys))).
  { apply in_map, filter_In. split.
    - unfold checked_fields, required_keys in *. simpl in *.
      repeat (destruct Hf as [<-|Hf]; [tauto|]). contradiction.
    - unfold has_key. now rewrite Hl. }
  split; apply (errors_from_nth py_repr products 0 i _ Hi); cbn [Nat.add product_errors].
  - apply in_or_app. now left.
  - apply in_or_app. right.
    unfold checked_fields in Hf. simpl in Hf.
    destruct Hf as [<-|[<-|[<-|[<-|[]]]]].
    + apply in_or_app. left. rewrite (dict_get_missing _ _ _ Hl), bad_quantity_default.
      apply In_field_errors.
    + apply in_or_app. right. apply in_or_app. left.
      rewrite (dict_get_missing _ _ _ Hl), bad_quantity_default. apply In_field_errors.
    + do 2 (apply in_or_app; right). apply in_or_app. left.
      rewrite (dict_get_missing _ _ _ Hl), bad_quantity_default. apply In_field_errors.
    + do 3 (apply in_or_app; right).
      rewrite (dict_get_missing _ _ _ Hl), bad_dimensions_default. apply In_field_errors.
Qed.

Lemma missing_checked_field_is_reported_twice_witness :
  exists errors,
    validate_all sample_repr
      (VList [product_100; VDict [("sku", VStr "B-7"); ("frequency", VInt 3)]]) = Ok errors /\
    In "Product at index 1 is missing required key: 'unit_cost'." errors /\
    In "Invalid 'unit_cost' for SKU 'B-7' at index 1." errors.
Proof.
  exact (missing_checked_field_is_reported_twice sample_repr
           [product_100; VDict [("sku", VStr "B-7"); ("frequency", VInt 3)]] 1%nat
           [("sku", VStr "B-7"); ("frequency", VInt 3)] "unit_cost" eq_refl
           (or_intror (or_introl eq_refl)) eq_refl).
Defined.

Lemma lookup_assign_same {A} k (v : A) d : lookup k (assign k v d) = Some v.
Proof.
  induction d as [|[k' v'] rest IH]; simpl.
  - now rewrite String.eqb_refl.
  - destruct (String.eqb k k') eqn:E; simpl.
    + now rewrite String.eqb_refl.
    + now rewrite E.
Qed.

Lemma lookup_assign_other {A} k k' (v : A) d :
  k' <> k -> lookup k' (assign k v d) = lookup k' d.
Proof.
  intros Hne. induction d as [|[k0 v0] rest IH]; simpl.
  - destruct (String.eqb_spec k' k); [contradiction | reflexivity].
  - destruct (String.eqb_spec k k0) as [->|Hk]; simpl.
    + destruct (String.eqb_spec k' k0); [contradiction | reflexivity].
    + now rewrite IH.
Qed.

Lemma has_key_assign {A} k k' (v : A) d :
  has_key k' d = true -> has_key k' (assign k v d) = true.
Proof.
  unfold has_key. destruct (String.eqb_spec k' k) as [->|Hne].
  - now rewrite lookup_assign_same.
  - now rewrite lookup_assign_other.
Qed.

Lemma dict_get_assign_other {A} k k' (v default : A) d :
  k' <> k -> dict_get (assign k v d) k' default = dict_get d k' default.
Proof. intros H. unfold dict_get. now rewrite lookup_assign_other. Qed.

Lemma valid_product_assign k v d :
  ~ In k checked_fields ->
  valid_product (VDict d) = true -> valid_product (VDict (assign k v d)) = true.
Proof.
  intros Hk. unfold checked_fields in Hk. simpl in Hk.
  unfold valid_product. rewrite !andb_true_iff.
  intros [[[[H0 H1] H2] H3] H4].
  rewrite !dict_get_assign_other by (intros E; subst k; tauto).
  repeat split; try assumption.
  rewrite forallb_forall in *. intros x Hx. apply has_key_assign. auto.
Qed.

Lemma forallb_middle {A} (f : A -> bool) front x behind :
  forallb f (front ++ x :: behind) = forallb f front && (f x && forallb f behind).
Proof. now rewrite forallb_app. Qed.

(** X8. The validator looks at the values of four fields only: setting
    any other field of a record to any value, a [sku], a [product_name]
    or a [category] of any type or a field that is not required at all,
    keeps a list that validates valid. *)
Theorem validate_all_ignores_other_fields :
  forall (py_repr : value -> string) (front behind : list value)
         (d : list (string * value)) (k : string) (v : value),
    validate_all py_repr (VList (front ++ VDict d :: behind)) = Ok [] ->
    ~ In k checked_fields ->
    validate_all py_repr (VList (front ++ VDict (assign k v d) :: behind)) = Ok [].
Proof.
  intros py_repr front behind d k v Hv Hk.
  apply validate_all_valid_products. eexists. split; [reflexivity|].
  apply (validated_products py_repr) in Hv.
  rewrite forallb_middle in *. rewrite !andb_true_iff in *.
  destruct Hv as (Hf & Hd & Hb). repeat split; try assumption.
  now apply valid_product_assign.
Qed.

Lemma validate_all_ignores_other_fields_witness :
  validate_all sample_repr
    (VList [sample_product "A-1" (VInt 5) (VInt 1);
            VDict (assign "sku" (VList [VNone])
                     [("sku", VStr "P-100"); ("product_name", VStr "Widget");
                      ("frequency", VInt 100); ("category", VStr "General");
                      ("dimensions_cm",
                        VDict [("length", VInt 10); ("width", VInt 20); ("height", VInt 30)]);
                      ("weight_kg", VInt 2); ("unit_cost", VInt 10)])]) = Ok [].
Proof.
  apply (validate_all_ignores_other_fields sample_repr
           [sample_product "A-1" (VInt 5) (VInt 1)] [] _ "sku" (VList [VNone])).
  - reflexivity.
  - unfold checked_fields. simpl. intros [H|[H|[H|[H|[]]]]]; discriminate.
Defined.

(** ** The sort is stable *)

Section Stability.

Context {K : Type} (before : K -> K -> bool) (sel : K -> bool).

Hypothesis ties : forall a b, sel a = true -> sel b = true -> before a b = false.

Lemma insert_by_filter x l :
  filter (fun y => sel (fst y)) (insert_by before x l)
  = filter (fun y => sel (fst y)) (x :: l).
Proof.
  induction l as [|y rest IH]; [reflexivity|].
  cbn [insert_by]. destruct (before (fst y) (fst x)) eqn:E; [|reflexivity].
  cbn [filter] in *. rewrite IH.
  destruct (sel (fst y)) eqn:Ey, (sel (fst x)) eqn:Ex; try reflexivity.
  rewrite (ties _ _ Ey Ex) in E. discriminate.
Qed.

Lemma sort_by_filter l :
  filter (fun y => sel (fst y)) (sort_by before l) = filter (fun y => sel (fst y)) l.
Proof.
  induction l as [|x rest IH]; [reflexivity|].
  cbn [sort_by fold_right]. fold (sort_by before rest).
  rewrite insert_by_filter. cbn [filter]. now rewrite IH.
Qed.

End Stability.

Lemma decorate_keys {K : Type} (key : value -> result K) items : forall keyed,
  decorate key items = Ok keyed ->
  map snd keyed = items /\ Forall (fun kp => key (snd kp) = Ok (fst kp)) keyed.
Proof.
  induction items as [|x rest IH]; intros keyed; cbn [decorate].
  - intros [= <-]. split; [reflexivity | constructor].
  - destruct (key x) as [k|e] eqn:Ek; [|discriminate]. cbn [rbind].
    destruct (decorate key rest) as [keyed'|e]; [|discriminate]. cbn [rbind].
    intros [= <-]. destruct (IH keyed' eq_refl) as [H1 H2].
    split; [cbn [map snd]; now rewrite H1 | constructor; assumption].
Qed.

Lemma filter_map_snd {K : Type} (f : value -> bool) (g : K -> bool) (l : list (K * value)) :
  Forall (fun kp => f (snd kp) = g (fst kp)) l ->
  filter f (map snd l) = map snd (filter (fun kp => g (fst kp)) l).
Proof.
  induction 1 as [|kp rest H _ IH]; [reflexivity|].
  cbn [map filter]. rewrite H, IH. now destruct (g (fst kp)).
Qed.

Lemma sorted_filter_stable {K : Type} (key : value -> result K) (before : K -> K -> bool)
    (f : value -> bool) (g : K -> bool) items keyed :
  (forall a b, g a = true -> g b = true -> before a b = false) ->
  (forall p k, key p = Ok k -> f p = g k) ->
  decorate key items = Ok keyed ->
  filter f (map snd (sort_by before keyed)) = filter f items.
Proof.
  intros Hties Hfg Hd. destruct (decorate_keys key items keyed Hd) as [Hitems Hkeys].
  assert (Hall : forall l : list (K * value),
             Forall (fun kp => key (snd kp) = Ok (fst kp)) l ->
             Forall (fun kp => f (snd kp) = g (fst kp)) l).
  { intros l. apply Forall_impl. intros kp. apply Hfg. }
  rewrite (filter_map_snd f g).
  - rewrite (sort_by_filter before g Hties), <- (filter_map_snd f g) by auto.
    now rewrite Hitems.
  - apply Hall. rewrite Forall_forall in *. intros kp Hin. apply Hkeys.
    eapply Permutation_in; [apply sort_by_perm | exact Hin].
Qed.

Lemma xeq_not_xlt a b c : xeq a c = true -> xeq b c = true -> xlt b a = false.
Proof.
  unfold xeq, xlt.
  destruct a as [| |x|], b as [| |y|], c as [| |z|]; cbn [xcompare]; try discriminate;
    try reflexivity.
  destruct (Z.compare_spec x z), (Z.compare_spec y z); try discriminate.
  subst. now rewrite Z.compare_refl.
Qed.

Lemma frequency_key_has_frequency n p k :
  frequency_key p = Ok k -> has_frequency n p = xeq k (num_scaled n).
Proof.
  unfold frequency_key, has_frequency, frequency_of, field_num.
  destruct (py_getitem p "frequency") as [v|e]; [|discriminate]. cbn [rbind].
  destruct (as_num v) as [m|]; [|discriminate].
  unfold num_eq. destruct (num_scaled m); try discriminate; now intros [= <-].
Qed.

Lemma sku_key_has_sku sku p k : sku_key p = Ok k -> has_sku sku p = String.eqb k sku.
Proof.
  unfold sku_key, has_sku, sku_of.
  destruct (py_getitem p "sku") as [v|e]; [|discriminate]. cbn [rbind].
  destruct v; try discriminate. now intros [= <-].
Qed.

Lemma string_eqb_not_ltb a b c :
  String.eqb a c = true -> String.eqb b c = true -> String.ltb a b = false.
Proof.
  intros Ha Hb. apply String.eqb_eq in Ha, Hb. subst.
  unfold String.ltb. pose proof (String.compare_antisym c c) as H.
  destruct (String.compare c c); try reflexivity; discriminate.
Qed.

(** X9. Both sorts of the script are stable.  In the order by descending
    frequency that the classifier walks through, the products of one
    frequency stand as they stand in the input; in the original layout of
    the report, ordered by SKU, the products of one SKU do. *)
Theorem sorts_are_stable :
  forall (products : list value),
    (forall sorted_products,
        sorted_by_frequency products = Ok sorted_products ->
        forall n, filter (has_frequency n) sorted_products
                  = filter (has_frequency n) products) /\
    (forall original_layout_products,
        sorted_by_sku products = Ok original_layout_products ->
        forall sku, filter (has_sku sku) original_layout_products
                    = filter (has_sku sku) products).
Proof.
  intros products. split.
  - intros sorted. unfold sorted_by_frequency.
    destruct (decorate frequency_key products) as [keyed|e] eqn:Hd; [|discriminate].
    cbn [rbind]. intros [= <-] n.
    apply (sorted_filter_stable frequency_key (descending xlt) (has_frequency n)
             (fun k => xeq k (num_scaled n)) products keyed).
    + intros a b Ha Hb. unfold descending. eapply xeq_not_xlt; eauto.
    + intros p k. apply frequency_key_has_frequency.
    + exact Hd.
  - intros sorted. unfold sorted_by_sku.
    destruct (decorate sku_key products) as [keyed|e] eqn:Hd; [|discriminate].
    cbn [rbind]. intros [= <-] sku.
    apply (sorted_filter_stable sku_key (ascending String.ltb) (has_sku sku)
             (fun k => String.eqb k sku) products keyed).
    + intros a b Ha Hb. unfold ascending. eapply string_eqb_not_ltb; eauto.
    + intros p k. apply sku_key_has_sku.
    + exact Hd.
Qed.

(** ** One entry for each SKU *)












(** ** A product that is never picked *)







(** ** The financial metrics *)

Lemma lookup_update {A} (items : list (string * A)) : forall d k,
  NoDup (map fst items) ->
  lookup k (update d items)
  = match lookup k items with Some v => Some v | None => lookup k d end.
Proof.
  unfold update. induction items as [|[k1 v1] rest IH]; intros d k Hnd; [reflexivity|].
  cbn [fold_left fst snd]. inversion Hnd as [|? ? Hnot Hnd']; subst.
  rewrite IH by assumption. cbn [lookup].
  destruct (String.eqb_spec k k1) as [->|Hne].
  - rewrite lookup_assign_same.
    destruct (lookup k1 rest) eqn:E; [|reflexivity].
    exfalso. apply Hnot. cbn [map fst] in *.
    clear -E. induction rest as [|[k2 v2] rest IH]; [discriminate|].
    cbn [lookup] in E. cbn [map fst In].
    destruct (String.eqb_spec k1 k2); [now left | right; auto].
  - now rewrite lookup_assign_other.
Qed.

Lemma speed_is_metres_per_hour :
  num_mul (NFloat WALKING_SPEED_MPS) (NInt 3600) = Ok (NFloat metres_per_hour).
Proof. reflexivity. Qed.

Lemma value_truediv_float_errors v h :
  float_is_zero h = false ->
  match value_truediv v (NFloat h) with
  | Ok _ => True
  | Raise e => e = TypeError \/ e = OverflowError
  end.
Proof.
  intros Hh. unfold value_truediv. destruct (as_num v) as [n|]; [|now left].
  unfold num_truediv. destruct n as [z|f]; cbn [num_float rbind].
  - unfold to_float. destruct (quotient_fits z 1); cbn [rbind]; [|now right].
    now rewrite Hh.
  - now rewrite Hh.
Qed.

(** X12. [_calculate_financial_metrics] reads the two distances from
    [self.metrics], turns each into hours at 4320 metres an hour and into
    a cost at 22.5 an hour, and stores six entries, the savings being the
    differences; every other entry of [self.metrics] stays as it is.  It
    fails, leaving the object as it was, only with a [KeyError] for a
    distance that is not there, a [TypeError] for one that is not a
    number, or an [OverflowError] for an [int] beyond the range of
    [float]: it never divides by zero. *)
Theorem financial_metrics_of_distances :
  forall s : state,
    match _calculate_financial_metrics s with
    | (s', Ok _) =>
        exists (original optimized : value) (original_time_hours optimized_time_hours : float),
          lookup "original_distance" (metrics (self s)) = Some original /\
          lookup "optimized_distance" (metrics (self s)) = Some optimized /\
          value_truediv original (NFloat metres_per_hour) = Ok original_time_hours /\
          value_truediv optimized (NFloat metres_per_hour) = Ok optimized_time_hours /\
          s' = with_self (fun o => set_metrics
                 (update (metrics o)
                    (financial_entries original_time_hours optimized_time_hours)) o) s /\
          forall k,
            lookup k (metrics (self s'))
            = match lookup k (financial_entries original_time_hours optimized_time_hours) with
              | Some v => Some v
              | None => lookup k (metrics (self s))
              end
    | (s', Raise e) =>
        s' = s /\
        In e [KeyError "original_distance"; KeyError "optimized_distance";
              TypeError; OverflowError]
    end.
Proof.
  intros s. unfold _calculate_financial_metrics, bind, get_self, lift.
  rewrite speed_is_metres_per_hour. unfold dict_getitem.
  destruct (lookup "original_distance" (metrics (self s))) as [original|].
  2:{ split; [reflexivity | now left]. }
  pose proof (value_truediv_float_errors original metres_per_hour eq_refl) as E1.
  destruct (value_truediv original (NFloat metres_per_hour)) as [t1|e1] eqn:H1.
  2:{ split; [reflexivity|]. cbn [In]. destruct E1 as [->| ->]; auto. }
  destruct (lookup "optimized_distance" (metrics (self s))) as [optimized|].
  2:{ split; [reflexivity | right; now left]. }
  pose proof (value_truediv_float_errors optimized metres_per_hour eq_refl) as E2.
  destruct (value_truediv optimized (NFloat metres_per_hour)) as [t2|e2] eqn:H2.
  2:{ split; [reflexivity|]. cbn [In]. destruct E2 as [->| ->]; auto. }
  exists original, optimized, t1, t2.
  do 2 (split; [reflexivity|]). do 2 (split; [assumption|]). split; [reflexivity|].
  intros k. unfold modify_self. cbn [self metrics set_metrics].
  apply lookup_update. unfold financial_entries. cbn [map fst].
  repeat constructor; cbn [In]; intros H;
    repeat (destruct H as [H|H]; [discriminate|]); exact H.
Qed.

(** ** Rounding to binary64 *)

Lemma fexp_eq e : fexp prec emax e = Z.max (e - 53) (-1074).
Proof. reflexivity. Qed.

Lemma fexp_le a b : a <= b -> fexp prec emax a <= fexp prec emax b.
Proof. rewrite !fexp_eq. lia. Qed.

Lemma pow2_pos n : 0 < 2 ^ n \/ n < 0.
Proof. destruct (Z.le_gt_cases 0 n); [left; now apply Z.pow_pos_nonneg | now right]. Qed.

Lemma pow2_split a b : 0 <= a -> 0 <= b -> 2 ^ (a + b) = 2 ^ a * 2 ^ b.
Proof. intros. now apply Z.pow_add_r. Qed.

Lemma pow2_le a b : 0 <= a <= b -> 2 ^ a <= 2 ^ b.
Proof. intros. apply Z.pow_le_mono_r; lia. Qed.

Lemma pow2_lt a b : 0 <= a < b -> 2 ^ a < 2 ^ b.
Proof. intros. apply Z.pow_lt_mono_r; lia. Qed.

Lemma pow2_double a b : 0 <= a < b -> 2 ^ a * 2 <= 2 ^ b.
Proof.
  intros H. replace (2 ^ a * 2) with (2 ^ (a + 1)) by (rewrite Z.pow_add_r by lia; reflexivity).
  apply pow2_le. lia.
Qed.

(** *** Digits *)

Lemma Zdigits2_bounds m : 0 < m -> 2 ^ (Zdigits2 m - 1) <= m < 2 ^ Zdigits2 m.
Proof. destruct m as [|p|p]; try lia. intros _. apply digits2_pos_bounds. Qed.

Lemma Zdigits2_pos m : 0 < m -> 0 < Zdigits2 m.
Proof. destruct m; simpl; lia. Qed.

Lemma Zdigits2_unique m k : 2 ^ (k - 1) <= m < 2 ^ k -> 0 < m -> Zdigits2 m = k.
Proof.
  intros [Hl Hu] Hm. pose proof (Zdigits2_bounds m Hm) as [Bl Bu].
  pose proof (Zdigits2_pos m Hm) as Hd.
  assert (Hk : 0 < k).
  { destruct (Z.lt_ge_cases 0 k); [assumption|].
    destruct (Z.eq_dec k 0) as [->|]; [simpl in Hu; lia|].
    rewrite Z.pow_neg_r in Hu by lia. lia. }
  destruct (Z.lt_trichotomy (Zdigits2 m) k) as [H|[H|H]]; [|assumption|].
  - assert (2 ^ Zdigits2 m <= 2 ^ (k - 1)) by (apply pow2_le; lia). lia.
  - assert (2 ^ k <= 2 ^ (Zdigits2 m - 1)) by (apply pow2_le; lia). lia.
Qed.

Lemma Zdigits2_le a b : 0 < a <= b -> Zdigits2 a <= Zdigits2 b.
Proof.
  intros [Ha Hab]. pose proof (Zdigits2_bounds a Ha) as [Al Au].
  pose proof (Zdigits2_bounds b ltac:(lia)) as [Bl Bu].
  pose proof (Zdigits2_pos a Ha). pose proof (Zdigits2_pos b ltac:(lia)).
  destruct (Z.le_gt_cases (Zdigits2 a) (Zdigits2 b)); [assumption|].
  assert (2 ^ Zdigits2 b <= 2 ^ (Zdigits2 a - 1)) by (apply pow2_le; lia). lia.
Qed.

Lemma Zdigits2_div m n :
  0 <= n -> 2 ^ n <= m -> Zdigits2 (m / 2 ^ n) = Zdigits2 m - n.
Proof.
  intros Hn Hm. assert (Hp : 0 < 2 ^ n) by (apply Z.pow_pos_nonneg; lia).
  assert (Hm0 : 0 < m) by lia.
  pose proof (Zdigits2_bounds m Hm0) as [Bl Bu]. pose proof (Zdigits2_pos m Hm0) as Hd.
  assert (Hdn : n < Zdigits2 m).
  { destruct (Z.lt_ge_cases n (Zdigits2 m)); [assumption|].
    assert (2 ^ Zdigits2 m <= 2 ^ n) by (apply pow2_le; lia). lia. }
  apply Zdigits2_unique.
  - split.
    + apply Z.div_le_lower_bound; [assumption|].
      rewrite <- pow2_split by lia. now replace (n + (Zdigits2 m - n - 1)) with (Zdigits2 m - 1) by lia.
    + apply Z.div_lt_upper_bound; [assumption|].
      rewrite <- pow2_split by lia. now replace (n + (Zdigits2 m - n)) with (Zdigits2 m) by lia.
  - apply Z.div_str_pos. lia.
Qed.

Lemma Zdigits2_small m n : 0 <= m < 2 ^ n -> 0 <= n -> m / 2 ^ n = 0.
Proof. intros. now apply Z.div_small. Qed.

Lemma Zdigits2_mul_pow2 m n : 0 < m -> 0 <= n -> Zdigits2 (m * 2 ^ n) = Zdigits2 m + n.
Proof.
  intros Hm Hn. assert (Hp : 0 < 2 ^ n) by (apply Z.pow_pos_nonneg; lia).
  pose proof (Zdigits2_bounds m Hm) as [Bl Bu]. pose proof (Zdigits2_pos m Hm) as Hd.
  apply Zdigits2_unique; [|nia].
  replace (Zdigits2 m + n - 1) with ((Zdigits2 m - 1) + n) by lia.
  rewrite !pow2_split by lia. nia.
Qed.

(** *** Shifting a mantissa to the right *)

Lemma shr_1_m mrs : 0 <= shr_m mrs -> shr_m (shr_1 mrs) = shr_m mrs / 2.
Proof.
  destruct mrs as [m r s]. cbn [shr_m]. intros Hm. unfold shr_1.
  destruct m as [|[p|p|]|p]; cbn [shr_m]; try lia.
  - reflexivity.
  - rewrite Pos2Z.inj_xI. apply Z.div_unique with (r := 1); lia.
  - rewrite Pos2Z.inj_xO. apply Z.div_unique with (r := 0); lia.
  - reflexivity.
Qed.

Lemma iter_pos_shr_1_m p : forall mrs,
  0 <= shr_m mrs -> shr_m (iter_pos shr_1 p mrs) = shr_m mrs / 2 ^ Z.pos p.
Proof.
  assert (Hnn : forall x k, 0 <= x -> 0 <= x / 2 ^ Z.pos k).
  { intros x k Hx. apply Z.div_pos; [assumption | apply Z.pow_pos_nonneg; lia]. }
  induction p as [p IH|p IH|]; intros mrs Hm; cbn [iter_pos].
  - assert (H1 : 0 <= shr_m (shr_1 mrs)) by (rewrite shr_1_m by assumption; apply Z.div_pos; lia).
    rewrite IH; [|rewrite IH by assumption; now apply Hnn].
    rewrite IH, shr_1_m by assumption.
    rewrite !Z.div_div by (try apply Z.pow_pos_nonneg; lia).
    f_equal. rewrite <- Z.pow_add_r by lia. rewrite <- Z.pow_succ_r by lia. f_equal. lia.
  - rewrite IH; [|rewrite IH by assumption; now apply Hnn].
    rewrite IH by assumption.
    rewrite !Z.div_div by (try apply Z.pow_pos_nonneg; lia).
    f_equal. rewrite <- Z.pow_add_r by lia. f_equal. lia.
  - rewrite shr_1_m by assumption. reflexivity.
Qed.

Lemma shr_spec mrs e n :
  0 <= shr_m mrs ->
  shr_m (fst (shr mrs e n)) = shr_m mrs / 2 ^ Z.max 0 n /\
  snd (shr mrs e n) = e + Z.max 0 n.
Proof.
  intros Hm. destruct n as [|p|p]; cbn [shr fst snd].
  - change (Z.max 0 0) with 0. rewrite Z.pow_0_r, Z.div_1_r. lia.
  - rewrite iter_pos_shr_1_m by assumption.
    replace (Z.max 0 (Z.pos p)) with (Z.pos p) by lia. auto.
  - replace (Z.max 0 (Z.neg p)) with 0 by lia. rewrite Z.pow_0_r, Z.div_1_r. lia.
Qed.

Lemma divide_div a b m : 0 < a -> (a * b | m) -> (a | m) /\ (b | m / a).
Proof.
  intros Ha [k ->]. split.
  - exists (k * b). ring.
  - exists k. replace (k * (a * b)) with (k * b * a) by ring.
    now rewrite Z.div_mul by lia.
Qed.

Lemma shr_1_exact mrs :
  0 <= shr_m mrs -> shr_r mrs = false -> shr_s mrs = false -> (2 | shr_m mrs) ->
  shr_r (shr_1 mrs) = false /\ shr_s (shr_1 mrs) = false.
Proof.
  destruct mrs as [m r s]. cbn [shr_m shr_r shr_s]. intros Hm -> -> [k Hk].
  unfold shr_1. destruct m as [|[p|p|]|p]; cbn [shr_r shr_s orb]; auto; lia.
Qed.

Lemma iter_pos_shr_1_exact p : forall mrs,
  0 <= shr_m mrs -> shr_r mrs = false -> shr_s mrs = false -> (2 ^ Z.pos p | shr_m mrs) ->
  shr_r (iter_pos shr_1 p mrs) = false /\ shr_s (iter_pos shr_1 p mrs) = false.
Proof.
  assert (Hnn : forall x k, 0 <= x -> 0 <= x / 2 ^ Z.pos k).
  { intros x k Hx. apply Z.div_pos; [assumption | apply Z.pow_pos_nonneg; lia]. }
  assert (Hpp : forall k, 0 < 2 ^ Z.pos k) by (intros; apply Z.pow_pos_nonneg; lia).
  induction p as [p IH|p IH|]; intros mrs Hm Hr Hs Hd; cbn [iter_pos].
  - assert (E : 2 ^ Z.pos p~1 = 2 * (2 ^ Z.pos p * 2 ^ Z.pos p)).
    { rewrite <- Z.pow_add_r by lia. rewrite <- Z.pow_succ_r by lia. f_equal. lia. }
    rewrite E in Hd. apply divide_div in Hd as [H2 Hd]; [|lia].
    apply divide_div in Hd as [Hd1 Hd2]; [|apply Hpp].
    destruct (shr_1_exact mrs Hm Hr Hs H2) as [Hr1 Hs1].
    assert (H1 : 0 <= shr_m (shr_1 mrs)) by (rewrite shr_1_m by assumption; apply Z.div_pos; lia).
    rewrite <- shr_1_m in Hd1, Hd2 by assumption.
    destruct (IH _ H1 Hr1 Hs1 Hd1) as [Hr2 Hs2].
    apply IH; try assumption.
    + rewrite iter_pos_shr_1_m by assumption. now apply Hnn.
    + now rewrite iter_pos_shr_1_m by assumption.
  - assert (E : 2 ^ Z.pos p~0 = 2 ^ Z.pos p * 2 ^ Z.pos p).
    { rewrite <- Z.pow_add_r by lia. f_equal. lia. }
    rewrite E in Hd. apply divide_div in Hd as [Hd1 Hd2]; [|apply Hpp].
    destruct (IH _ Hm Hr Hs Hd1) as [Hr2 Hs2].
    apply IH; try assumption.
    + rewrite iter_pos_shr_1_m by assumption. now apply Hnn.
    + now rewrite iter_pos_shr_1_m by assumption.
  - apply shr_1_exact; assumption.
Qed.

Lemma shr_fexp_spec m e l :
  0 <= m ->
  shr_m (fst (shr_fexp prec emax m e l)) = m / 2 ^ shift m e /\
  snd (shr_fexp prec emax m e l) = e + shift m e.
Proof.
  intros Hm. unfold shr_fexp, shift, exponent_of.
  assert (E : shr_m (shr_record_of_loc m l) = m) by now destruct l as [|[| |]].
  pose proof (shr_spec (shr_record_of_loc m l) e (fexp prec emax (Zdigits2 m + e) - e)) as H.
  rewrite E in H. now apply H.
Qed.

Lemma shr_fexp_exact m e :
  0 <= m -> (2 ^ shift m e | m) ->
  loc_of_shr_record (fst (shr_fexp prec emax m e loc_Exact)) = loc_Exact.
Proof.
  intros Hm. unfold shr_fexp, shift, exponent_of.
  destruct (fexp prec emax (Zdigits2 m + e) - e) as [|p|p]; cbn [shr fst]; try reflexivity.
  replace (Z.max 0 (Z.pos p)) with (Z.pos p) by lia. intros Hd.
  destruct (iter_pos_shr_1_exact p (shr_record_of_loc m loc_Exact) Hm eq_refl eq_refl Hd)
    as [Hr Hs].
  destruct (iter_pos shr_1 p (shr_record_of_loc m loc_Exact)) as [m' r s].
  cbn [shr_r shr_s] in *. now subst.
Qed.

Lemma round_nearest_even_bounds m l :
  m <= round_nearest_even m l <= m + 1 /\ round_nearest_even m loc_Exact = m.
Proof.
  split; [|reflexivity]. destruct l as [|[| |]]; cbn [round_nearest_even]; try lia.
  destruct (Z.even m); lia.
Qed.

(** What [binary_round_aux] makes of [mx x 2^ex]: the mantissa is cut to
    the digits of the format, moved up by one or not, and cut again if
    that gave it one digit too many. *)
Lemma binary_round_aux_steps sx mx ex lx :
  0 <= mx ->
  exists m2,
    mx / 2 ^ shift mx ex <= m2 <= mx / 2 ^ shift mx ex + 1 /\
    (lx = loc_Exact -> (2 ^ shift mx ex | mx) -> m2 = mx / 2 ^ shift mx ex) /\
    binary_round_aux prec emax sx mx ex lx
    = match m2 / 2 ^ shift m2 (ex + shift mx ex) with
      | Z0 => S754_zero sx
      | Zpos m =>
          if ex + shift mx ex + shift m2 (ex + shift mx ex) <=? emax - prec
          then S754_finite sx m (ex + shift mx ex + shift m2 (ex + shift mx ex))
          else S754_infinity sx
      | Zneg _ => S754_nan
      end.
Proof.
  intros Hm. unfold binary_round_aux.
  pose proof (shr_fexp_spec mx ex lx Hm) as [H1 H2].
  pose proof (fun H => shr_fexp_exact mx ex Hm H) as Hex.
  destruct (shr_fexp prec emax mx ex lx) as [mrs' e'] eqn:E1. cbn [fst snd] in H1, H2.
  set (m2 := round_nearest_even (shr_m mrs') (loc_of_shr_record mrs')).
  assert (Hm1 : 0 <= shr_m mrs').
  { rewrite H1. apply Z.div_pos; [assumption|]. apply Z.pow_pos_nonneg; [lia|].
    unfold shift. lia. }
  assert (Hm2 : 0 <= m2).
  { pose proof (round_nearest_even_bounds (shr_m mrs') (loc_of_shr_record mrs')). lia. }
  pose proof (shr_fexp_spec m2 e' loc_Exact Hm2) as [H3 H4].
  destruct (shr_fexp prec emax m2 e' loc_Exact) as [mrs'' e''] eqn:E2.
  cbn [fst snd] in H3, H4. exists m2.
  split; [|split].
  - rewrite <- H1. apply round_nearest_even_bounds.
  - intros -> Hd. rewrite E1 in Hex. cbn [fst] in Hex. unfold m2.
    rewrite (Hex Hd), <- H1. reflexivity.
  - rewrite H3, H4, H2. reflexivity.
Qed.

(** *** Bounds that rounding keeps *)

Lemma in_format_valid m e : bounded prec emax m e = true -> in_format (Z.pos m) e.
Proof. intros H. apply bounded_mantissa in H. unfold in_format. lia. Qed.

Lemma scaled_pos c m e : 0 < m -> c <= e -> 0 < scaled c m e.
Proof.
  intros Hm Hc. unfold scaled. apply Z.mul_pos_pos; [assumption|].
  apply Z.pow_pos_nonneg; lia.
Qed.

Lemma scaled_le c m m' e : m <= m' -> c <= e -> scaled c m e <= scaled c m' e.
Proof.
  intros Hm Hc. unfold scaled. apply Z.mul_le_mono_nonneg_r; [|assumption].
  apply Z.pow_nonneg. lia.
Qed.

Lemma scaled_exponent c m e n :
  c <= e -> 0 <= n -> scaled c m (e + n) = m * 2 ^ n * 2 ^ (e - c).
Proof.
  intros Hc Hn. unfold scaled. replace (e + n - c) with (n + (e - c)) by lia.
  rewrite Z.pow_add_r by lia. ring.
Qed.

Lemma exponent_of_ge m e : -1074 <= exponent_of m e /\ Zdigits2 m + e - 53 <= exponent_of m e.
Proof. unfold exponent_of. rewrite fexp_eq. lia. Qed.

(** Cutting the mantissa does not go below a number of the format that
    was not above. *)
Lemma floor_step c ml el m e :
  in_format ml el -> 0 <= m -> c <= e -> c <= el ->
  scaled c ml el <= scaled c m e ->
  scaled c ml el <= scaled c (m / 2 ^ shift m e) (e + shift m e).
Proof.
  intros [[Hl0 Hl1] Hel] Hm Hce Hcl H.
  assert (Hpos : 0 < scaled c ml el) by now apply scaled_pos.
  assert (Hm0 : 0 < m).
  { destruct (Z.eq_dec m 0) as [->|]; [unfold scaled in H at 2; lia | lia]. }
  pose proof (Zdigits2_bounds m Hm0) as [Bl Bu]. pose proof (Zdigits2_pos m Hm0) as Hd.
  pose proof (exponent_of_ge m e) as [X1 X2].
  assert (Hn : 0 <= shift m e) by (unfold shift; lia).
  destruct (Z.eq_dec (shift m e) 0) as [E0|Hn0].
  { rewrite E0, Z.pow_0_r, Z.div_1_r, Z.add_0_r. exact H. }
  assert (En : shift m e = exponent_of m e - e) by (unfold shift in *; lia).
  set (n := shift m e) in *. set (e1 := exponent_of m e) in *.
  rewrite scaled_exponent by lia.
  assert (HP : 0 < 2 ^ (e - c)) by (apply Z.pow_pos_nonneg; lia).
  assert (HN : 0 < 2 ^ n) by (apply Z.pow_pos_nonneg; lia).
  unfold scaled in H, Hpos |- *.
  destruct (Z.le_gt_cases e1 el) as [Hge|Hlt].
  - replace (el - c) with ((el - e1) + n + (e - c)) in * by lia.
    rewrite !Z.pow_add_r in * by lia.
    assert (HQ : 0 < 2 ^ (el - e1)) by (apply Z.pow_pos_nonneg; lia).
    assert (Hq : ml * 2 ^ (el - e1) <= m / 2 ^ n).
    { apply Z.div_le_lower_bound; [assumption|]. nia. }
    nia.
  - assert (Ee : e1 = Zdigits2 m + e - 53).
    { unfold e1, exponent_of in *. rewrite fexp_eq in *. lia. }
    assert (Hq : 2 ^ 52 <= m / 2 ^ n).
    { apply Z.div_le_lower_bound; [assumption|].
      rewrite <- Z.pow_add_r by lia.
      replace (n + 52) with (Zdigits2 m - 1) by lia. assumption. }
    assert (Hs : 2 ^ (el - c) * 2 <= 2 ^ n * 2 ^ (e - c)).
    { rewrite <- Z.pow_add_r by lia. apply pow2_double. lia. }
    change (2 ^ 53) with (2 ^ 52 * 2) in Hl1.
    assert (0 < 2 ^ (el - c)) by (apply Z.pow_pos_nonneg; lia).
    nia.
Qed.

(** A number of the format above a number on the grid of a canonical
    exponent is at least the next number on the grid. *)
Lemma ceil_step c mh eh m1 e1 :
  in_format mh eh -> c <= e1 -> c <= eh -> 0 <= m1 -> -1074 <= e1 ->
  (-1074 < e1 -> 2 ^ 52 <= m1) ->
  scaled c m1 e1 < scaled c mh eh ->
  scaled c (m1 + 1) e1 <= scaled c mh eh.
Proof.
  intros [[Hh0 Hh1] Heh] Hc1 Hch Hm1 He1 Hcan H. unfold scaled in *.
  assert (HP : 0 < 2 ^ (e1 - c)) by (apply Z.pow_pos_nonneg; lia).
  destruct (Z.le_gt_cases e1 eh) as [Hge|Hlt].
  - replace (eh - c) with ((eh - e1) + (e1 - c)) in * by lia.
    rewrite Z.pow_add_r in * by lia.
    assert (HQ : 0 < 2 ^ (eh - e1)) by (apply Z.pow_pos_nonneg; lia).
    assert (m1 < mh * 2 ^ (eh - e1)) by nia. nia.
  - exfalso. specialize (Hcan ltac:(lia)).
    assert (Hs : 2 ^ (eh - c) * 2 <= 2 ^ (e1 - c)).
    { apply pow2_double. lia. }
    change (2 ^ 53) with (2 ^ 52 * 2) in Hh1.
    assert (0 < 2 ^ (eh - c)) by (apply Z.pow_pos_nonneg; lia).
    nia.
Qed.

(** Cutting a mantissa that stands at or below its canonical exponent
    gives a canonical one. *)
Lemma canonical_step m e :
  0 < m -> e <= exponent_of m e ->
  e + shift m e = exponent_of m e /\
  0 <= m / 2 ^ shift m e < 2 ^ 53 /\
  (0 < m / 2 ^ shift m e ->
   Zdigits2 (m / 2 ^ shift m e) + (e + shift m e) = Zdigits2 m + e) /\
  (-1074 < e + shift m e -> 2 ^ 52 <= m / 2 ^ shift m e).
Proof.
  intros Hm He. pose proof (exponent_of_ge m e) as [X1 X2].
  pose proof (Zdigits2_bounds m Hm) as [Bl Bu]. pose proof (Zdigits2_pos m Hm) as Hd.
  assert (En : shift m e = exponent_of m e - e) by (unfold shift; lia).
  set (n := shift m e) in *. set (e1 := exponent_of m e) in *.
  assert (Hn : 0 <= n) by lia.
  assert (HN : 0 < 2 ^ n) by (apply Z.pow_pos_nonneg; lia).
  split; [lia|].
  destruct (Z.le_gt_cases (2 ^ n) m) as [Hbig|Hsmall].
  - pose proof (Zdigits2_div m n Hn Hbig) as Edig.
    assert (Hq0 : 0 < m / 2 ^ n) by (apply Z.div_str_pos; lia).
    pose proof (Zdigits2_bounds _ Hq0) as [Ql Qu]. rewrite Edig in Ql, Qu.
    split; [|split].
    + split; [lia|]. eapply Z.lt_le_trans; [exact Qu|]. apply pow2_le.
      pose proof (Zdigits2_pos _ Hq0). lia.
    + intros _. lia.
    + intros Hcan. assert (Ee : e1 = Zdigits2 m + e - 53).
      { unfold e1, exponent_of in *. rewrite fexp_eq in *. lia. }
      replace (Zdigits2 m - n - 1) with 52 in Ql by lia. exact Ql.
  - rewrite Z.div_small by lia. split; [|split].
    + split; [lia | now apply Z.pow_pos_nonneg].
    + lia.
    + intros Hcan. exfalso.
      assert (Ee : e1 = Zdigits2 m + e - 53).
      { unfold e1, exponent_of in *. rewrite fexp_eq in *. lia. }
      assert (2 ^ n <= 2 ^ (Zdigits2 m - 1)) by (apply pow2_le; lia). lia.
Qed.

Lemma scaled_floor c m e n :
  0 <= m -> c <= e -> 0 <= n -> scaled c (m / 2 ^ n) (e + n) <= scaled c m e.
Proof.
  intros Hm Hc Hn. rewrite scaled_exponent by assumption. unfold scaled.
  assert (HN : 0 < 2 ^ n) by (apply Z.pow_pos_nonneg; lia).
  assert (HP : 0 < 2 ^ (e - c)) by (apply Z.pow_pos_nonneg; lia).
  pose proof (Z.mul_div_le m (2 ^ n) HN). nia.
Qed.

Lemma scaled_floor_exact c m e n :
  c <= e -> 0 <= n -> (2 ^ n | m) -> scaled c (m / 2 ^ n) (e + n) = scaled c m e.
Proof.
  intros Hc Hn [k ->]. rewrite scaled_exponent by assumption. unfold scaled.
  assert (HN : 0 < 2 ^ n) by (apply Z.pow_pos_nonneg; lia).
  rewrite Z.div_mul by lia. reflexivity.
Qed.

Lemma scaled_floor_strict c m e n :
  0 <= m -> c <= e -> 0 <= n -> ~ (2 ^ n | m) ->
  scaled c (m / 2 ^ n) (e + n) < scaled c m e.
Proof.
  intros Hm Hc Hn Hd. rewrite scaled_exponent by assumption. unfold scaled.
  assert (HN : 0 < 2 ^ n) by (apply Z.pow_pos_nonneg; lia).
  assert (HP : 0 < 2 ^ (e - c)) by (apply Z.pow_pos_nonneg; lia).
  pose proof (Z.div_mod m (2 ^ n) ltac:(lia)) as E.
  pose proof (Z.mod_pos_bound m (2 ^ n) HN) as B.
  assert (m mod 2 ^ n <> 0).
  { intros H0. apply Hd. exists (m / 2 ^ n). lia. }
  nia.
Qed.

Lemma shift_nonneg m e : 0 <= shift m e.
Proof. unfold shift. lia. Qed.

(** Rounding does not go below a number of the format that the exact
    value is not below; it may overflow. *)
Lemma binary_round_aux_lower c sx mx ex lx ml el :
  in_format ml el -> 0 <= mx -> c <= ex -> c <= el ->
  scaled c ml el <= scaled c mx ex ->
  match binary_round_aux prec emax sx mx ex lx with
  | S754_infinity s => s = sx
  | S754_finite s m e => s = sx /\ ex <= e /\ scaled c ml el <= scaled c (Z.pos m) e
  | _ => False
  end.
Proof.
  intros Hlo Hm Hce Hcl H.
  destruct (binary_round_aux_steps sx mx ex lx Hm) as (m2 & [Hm2 _] & _ & ->).
  pose proof (shift_nonneg mx ex) as Hn.
  pose proof (floor_step c ml el mx ex Hlo Hm Hce Hcl H) as H1.
  set (e1 := ex + shift mx ex) in *.
  assert (Hm1 : 0 <= mx / 2 ^ shift mx ex).
  { apply Z.div_pos; [assumption | apply Z.pow_pos_nonneg; lia]. }
  assert (H2 : scaled c ml el <= scaled c m2 e1).
  { eapply Z.le_trans; [exact H1|]. apply scaled_le; [assumption | unfold e1; lia]. }
  pose proof (shift_nonneg m2 e1) as Hn'.
  pose proof (floor_step c ml el m2 e1 Hlo ltac:(lia) ltac:(unfold e1; lia) Hcl H2) as H3.
  assert (Hpos : 0 < scaled c ml el).
  { destruct Hlo as [[? ?] ?]. apply scaled_pos; lia. }
  destruct (m2 / 2 ^ shift m2 e1) as [|m3|m3] eqn:E3.
  - unfold scaled in H3, Hpos. lia.
  - destruct (e1 + shift m2 e1 <=? emax - prec); [|reflexivity].
    split; [reflexivity|]. split; [unfold e1 in *; lia | exact H3].
  - assert (0 <= m2 / 2 ^ shift m2 e1).
    { apply Z.div_pos; [lia | apply Z.pow_pos_nonneg; lia]. }
    lia.
Qed.

(** Rounding a mantissa that stands at or below its canonical exponent
    gives a number of the format. *)
Lemma binary_round_aux_valid sx mx ex lx :
  0 <= mx -> ex <= exponent_of mx ex ->
  valid_binary prec emax (binary_round_aux prec emax sx mx ex lx) = true.
Proof.
  intros Hm Hex.
  destruct (binary_round_aux_steps sx mx ex lx Hm) as (m2 & [Hm2l Hm2u] & _ & ->).
  set (m1 := mx / 2 ^ shift mx ex) in *. set (e1 := ex + shift mx ex) in *.
  assert (F1 : -1074 <= e1 /\ 0 <= m1 /\
               (0 < m1 -> exponent_of m1 e1 = e1) /\ (m1 = 0 -> e1 = -1074)).
  { destruct (Z.eq_dec mx 0) as [->|Hne].
    - assert (E : e1 = -1074).
      { unfold e1, shift, exponent_of in *. cbn [Zdigits2] in *. rewrite fexp_eq in *. lia. }
      assert (E1 : m1 = 0) by (unfold m1; apply Z.div_0_l; apply Z.pow_nonzero; [lia | apply shift_nonneg]).
      rewrite E, E1. repeat split; lia.
    - destruct (canonical_step mx ex ltac:(lia) Hex) as (A & [B1 B2] & C & D).
      fold m1 in B1, B2, C, D. fold e1 in A, C, D.
      pose proof (exponent_of_ge mx ex). split; [lia|]. split; [lia|]. split.
      + intros Hp. unfold exponent_of. rewrite (C Hp). exact (eq_sym A).
      + intros E0. destruct (Z.eq_dec e1 (-1074)); [assumption|].
        assert (2 ^ 52 <= m1) by (apply D; lia). rewrite E0 in *. lia. }
  destruct F1 as (He1 & Hm1 & Hc1 & Hz1).
  destruct (Z.eq_dec m2 0) as [->|Hne2].
  { rewrite Z.div_0_l by (apply Z.pow_nonzero; [lia | apply shift_nonneg]). reflexivity. }
  assert (Hex2 : e1 <= exponent_of m2 e1).
  { destruct (Z.eq_dec m1 0) as [E0|Hne1].
    - rewrite (Hz1 E0). apply exponent_of_ge.
    - rewrite <- (Hc1 ltac:(lia)) at 1. unfold exponent_of. apply fexp_le.
      pose proof (Zdigits2_le m1 m2 ltac:(lia)). lia. }
  destruct (canonical_step m2 e1 ltac:(lia) Hex2) as (A & [B1 B2] & C & D).
  destruct (m2 / 2 ^ shift m2 e1) as [|m3|m3] eqn:E3; try reflexivity.
  destruct (e1 + shift m2 e1 <=? emax - prec) eqn:Ee; [|reflexivity].
  cbn [valid_binary]. unfold bounded, canonical_mantissa. rewrite Ee, andb_true_r.
  apply Z.eqb_eq. change (Z.pos (digits2_pos m3)) with (Zdigits2 (Z.pos m3)).
  rewrite (C ltac:(lia)). fold (exponent_of m2 e1). lia.
Qed.

(** Rounding does not go above a number of the format that the exact
    value is not above, and does not overflow then. *)
Lemma binary_round_aux_upper c sx mx ex lx mh eh :
  in_format mh eh -> eh <= 971 ->
  0 <= mx -> ex <= exponent_of mx ex -> c <= ex -> c <= eh ->
  scaled c (match lx with loc_Exact => mx | _ => mx + 1 end) ex <= scaled c mh eh ->
  match binary_round_aux prec emax sx mx ex lx with
  | S754_zero s => s = sx
  | S754_finite s m e => s = sx /\ scaled c (Z.pos m) e <= scaled c mh eh
  | _ => False
  end.
Proof.
  intros Hhi Heh Hm Hex Hce Hch H.
  pose proof (binary_round_aux_valid sx mx ex lx Hm Hex) as Hvalid.
  destruct (binary_round_aux_steps sx mx ex lx Hm) as (m2 & [Hm2l Hm2u] & Hexact & E).
  rewrite E in Hvalid |- *. clear E.
  pose proof (shift_nonneg mx ex) as Hn.
  set (m1 := mx / 2 ^ shift mx ex) in *. set (e1 := ex + shift mx ex) in *.
  assert (Hm1 : 0 <= m1).
  { apply Z.div_pos; [assumption | apply Z.pow_pos_nonneg; lia]. }
  assert (Hc1 : c <= e1) by (unfold e1; lia).
  assert (Hfloor : scaled c m1 e1 <= scaled c mx ex) by now apply scaled_floor.
  assert (Hle : scaled c mx ex <= scaled c mh eh).
  { eapply Z.le_trans; [|exact H]. apply scaled_le; [|assumption].
    destruct lx; lia. }
  assert (H2 : scaled c m2 e1 <= scaled c mh eh).
  { assert (Hcases : (lx = loc_Exact /\ (2 ^ shift mx ex | mx)) \/
                     scaled c m1 e1 < scaled c mh eh).
    { destruct lx as [|cmp].
      - destruct (Z.eq_dec (mx mod 2 ^ shift mx ex) 0) as [Hd|Hd].
        + left. split; [reflexivity|]. apply Z.mod_divide; [|assumption].
          apply Z.pow_nonzero; lia.
        + right. eapply Z.lt_le_trans; [|exact Hle].
          apply scaled_floor_strict; try assumption.
          intros Hdiv. apply Hd. apply Z.mod_divide; [|assumption].
          apply Z.pow_nonzero; lia.
      - right. eapply Z.le_lt_trans; [exact Hfloor|].
        eapply Z.lt_le_trans; [|exact H]. unfold scaled.
        apply Z.mul_lt_mono_pos_r; [apply Z.pow_pos_nonneg; lia | lia]. }
    destruct Hcases as [[El Hd]|Hlt].
    - rewrite (Hexact El Hd). fold m1. unfold m1, e1.
      rewrite scaled_floor_exact by assumption. exact Hle.
    - assert (Hcan : -1074 <= e1 /\ (-1074 < e1 -> 2 ^ 52 <= m1)).
      { destruct (Z.eq_dec mx 0) as [E0|Hne].
        - assert (Ee : e1 = -1074).
          { unfold e1, shift, exponent_of in *. rewrite E0 in *. cbn [Zdigits2] in *.
            rewrite fexp_eq in *. lia. }
          rewrite Ee. split; lia.
        - destruct (canonical_step mx ex ltac:(lia) Hex) as (A & _ & _ & D).
          fold e1 in A, D. fold m1 in D. pose proof (exponent_of_ge mx ex).
          split; [lia | exact D]. }
      destruct Hcan as [He1 Hcan].
      pose proof (ceil_step c mh eh m1 e1 Hhi Hc1 Hch Hm1 He1 Hcan Hlt) as Hceil.
      eapply Z.le_trans; [|exact Hceil]. apply scaled_le; [lia | assumption]. }
  pose proof (shift_nonneg m2 e1) as Hn'.
  pose proof (scaled_floor c m2 e1 (shift m2 e1) ltac:(lia) Hc1 Hn') as H3.
  destruct (m2 / 2 ^ shift m2 e1) as [|m3|m3] eqn:E3.
  - reflexivity.
  - destruct (e1 + shift m2 e1 <=? emax - prec) eqn:Ee.
    + split; [reflexivity | lia].
    + exfalso. apply Z.leb_gt in Ee. change (emax - prec) with 971 in Ee.
      set (e3 := e1 + shift m2 e1) in *.
      destruct (Z.eq_dec m2 0) as [E0|Hne2].
      { rewrite E0, Z.div_0_l in E3 by (apply Z.pow_nonzero; [lia | apply shift_nonneg]).
        discriminate. }
      assert (Hex2 : e3 = exponent_of m2 e1 \/ shift m2 e1 = 0).
      { unfold e3, shift. lia. }
      assert (Hbig : 2 ^ 52 <= Z.pos m3).
      { destruct (Z.le_gt_cases e1 (exponent_of m2 e1)) as [Hle2|Hgt2].
        - destruct (canonical_step m2 e1 ltac:(lia) Hle2) as (_ & _ & _ & D).
          rewrite E3 in D. apply D. fold e3. lia.
        - (* no second cut: the first one left a canonical mantissa *)
          assert (Es : shift m2 e1 = 0) by (unfold shift; lia).
          rewrite Es, Z.pow_0_r, Z.div_1_r in E3. unfold e3 in Ee. rewrite Es in Ee.
          destruct (Z.eq_dec mx 0) as [E0|Hne].
          + assert (e1 = -1074).
            { unfold e1, shift, exponent_of in *. rewrite E0 in *. cbn [Zdigits2] in *.
              rewrite fexp_eq in *. lia. }
            lia.
          + destruct (canonical_step mx ex ltac:(lia) Hex) as (_ & _ & _ & D).
            fold e1 in D. fold m1 in D. specialize (D ltac:(lia)). lia. }
      destruct Hhi as [[Hh0 Hh1] Hh2]. unfold scaled in H2, H3.
      assert (Hs : 2 ^ (eh - c) * 2 <= 2 ^ (e3 - c)) by (apply pow2_double; lia).
      assert (0 < 2 ^ (eh - c)) by (apply Z.pow_pos_nonneg; lia).
      change (2 ^ 53) with (2 ^ 52 * 2) in Hh1. nia.
  - assert (0 <= m2 / 2 ^ shift m2 e1).
    { apply Z.div_pos; [lia | apply Z.pow_pos_nonneg; lia]. }
    lia.
Qed.

(** *** The operations *)

Lemma roundable_canonical m e : roundable m e -> -1074 < e -> 2 ^ 52 <= m.
Proof.
  intros [Hm He] Hgt. pose proof (exponent_of_ge m e) as [X1 X2].
  assert (Hd : 53 <= Zdigits2 m).
  { unfold exponent_of in *. rewrite fexp_eq in *. lia. }
  assert (Hm0 : 0 < m) by (destruct m; simpl in Hd; lia).
  pose proof (Zdigits2_bounds m Hm0) as [Bl _].
  eapply Z.le_trans; [|exact Bl]. apply pow2_le. lia.
Qed.

(** A number of the format below the next number on the grid of a
    roundable mantissa is not above the mantissa. *)
Lemma below_next c ml el m e :
  in_format ml el -> roundable m e -> c <= e -> c <= el ->
  scaled c ml el < scaled c (m + 1) e -> scaled c ml el <= scaled c m e.
Proof.
  intros [[Hl0 Hl1] Hel] Hr Hce Hcl H. pose proof Hr as [Hm He]. unfold scaled in *.
  assert (HP : 0 < 2 ^ (e - c)) by (apply Z.pow_pos_nonneg; lia).
  destruct (Z.le_gt_cases e el) as [Hge|Hlt].
  - replace (el - c) with ((el - e) + (e - c)) in * by lia.
    rewrite Z.pow_add_r in * by lia.
    assert (HQ : 0 < 2 ^ (el - e)) by (apply Z.pow_pos_nonneg; lia).
    assert (ml * 2 ^ (el - e) < m + 1) by nia. nia.
  - pose proof (roundable_canonical m e Hr ltac:(lia)) as Hbig.
    assert (Hs : 2 ^ (el - c) * 2 <= 2 ^ (e - c)) by (apply pow2_double; lia).
    change (2 ^ 53) with (2 ^ 52 * 2) in Hl1.
    assert (0 < 2 ^ (el - c)) by (apply Z.pow_pos_nonneg; lia).
    nia.
Qed.

(** A number of the format above a roundable mantissa is not below the
    next number on its grid. *)
Lemma above_this c mh eh m e :
  in_format mh eh -> roundable m e -> c <= e -> c <= eh ->
  scaled c m e < scaled c mh eh -> scaled c (m + 1) e <= scaled c mh eh.
Proof.
  intros [[Hh0 Hh1] Heh] Hr Hce Hch H. pose proof Hr as [Hm He]. unfold scaled in *.
  assert (HP : 0 < 2 ^ (e - c)) by (apply Z.pow_pos_nonneg; lia).
  destruct (Z.le_gt_cases e eh) as [Hge|Hlt].
  - replace (eh - c) with ((eh - e) + (e - c)) in * by lia.
    rewrite Z.pow_add_r in * by lia.
    assert (HQ : 0 < 2 ^ (eh - e)) by (apply Z.pow_pos_nonneg; lia).
    assert (m < mh * 2 ^ (eh - e)) by nia. nia.
  - exfalso. pose proof (roundable_canonical m e Hr ltac:(lia)) as Hbig.
    assert (Hs : 2 ^ (eh - c) * 2 <= 2 ^ (e - c)) by (apply pow2_double; lia).
    change (2 ^ 53) with (2 ^ 52 * 2) in Hh1.
    assert (0 < 2 ^ (eh - c)) by (apply Z.pow_pos_nonneg; lia).
    nia.
Qed.

(** [2^k] as a number of the format, for [k] from -1074 to 1023. *)
Lemma pow2_in_format k :
  -1074 <= k <= 1023 ->
  exists m e, in_format m e /\ e <= 971 /\ e <= k /\
              forall c, c <= e -> scaled c m e = scaled c 1 k.
Proof.
  intros Hk. destruct (Z.le_gt_cases (-1022) k) as [Hn|Hs].
  - exists (2 ^ 52), (k - 52). unfold in_format. repeat split; try lia.
    intros c Hc. unfold scaled. rewrite <- Z.pow_add_r by lia.
    rewrite Z.mul_1_l. f_equal. lia.
  - exists (2 ^ (k + 1074)), (-1074). unfold in_format.
    assert (0 < 2 ^ (k + 1074)) by (apply Z.pow_pos_nonneg; lia).
    assert (2 ^ (k + 1074) < 2 ^ 53) by (apply pow2_lt; lia).
    repeat split; try lia.
    intros c Hc. unfold scaled. rewrite <- Z.pow_add_r by lia.
      rewrite Z.mul_1_l. f_equal. lia.
Qed.

(** Rounding keeps a value between two powers of two between them. *)
Lemma binary_round_aux_within c mx ex lx a b :
  roundable mx ex -> c <= ex -> c <= -1074 -> -1074 <= a <= b -> b <= 1023 ->
  scaled c 1 a <= scaled c mx ex ->
  scaled c (match lx with loc_Exact => mx | _ => mx + 1 end) ex <= scaled c 1 b ->
  within a b (binary_round_aux prec emax false mx ex lx).
Proof.
  intros Hr Hce Hc [Ha Hab] Hb Hlo Hhi. pose proof Hr as [Hm Hex].
  destruct (pow2_in_format b ltac:(lia)) as (mh & eh & Hfh & Heh & Hehb & Eh).
  assert (Hfa : in_format 1 a) by (unfold in_format; lia).
  pose proof (binary_round_aux_valid false mx ex lx Hm Hex) as Hv.
  pose proof (binary_round_aux_lower c false mx ex lx 1 a Hfa Hm Hce ltac:(lia) Hlo) as Hl.
  assert (Hch : c <= eh) by (destruct Hfh; lia).
  pose proof (binary_round_aux_upper c false mx ex lx mh eh Hfh Heh Hm Hex Hce Hch) as Hu.
  rewrite (Eh c Hch) in Hu. specialize (Hu Hhi).
  destruct (binary_round_aux prec emax false mx ex lx) as [s|s| |s m e]; try contradiction.
  destruct Hl as (-> & Hle & Hl). destruct Hu as (_ & Hu). cbn [valid_binary] in Hv.
  cbn [within]. split; [lia|]. split; [exact Hv|].
  apply bounded_mantissa in Hv as [He _].
  assert (HK : 0 < 2 ^ (-1074 - c)) by (apply Z.pow_pos_nonneg; lia).
  assert (R : forall m' e', -1074 <= e' -> scaled c m' e' = scaled (-1074) m' e' * 2 ^ (-1074 - c)).
  { intros m' e' He'. unfold scaled. replace (e' - c) with ((e' - -1074) + (-1074 - c)) by lia.
    rewrite Z.pow_add_r by lia. ring. }
  rewrite (R 1 a), (R (Z.pos m) e) in Hl by lia.
  rewrite (R 1 b), (R (Z.pos m) e) in Hu by lia.
  split; nia.
Qed.

Lemma scaled_mul c1 c2 m1 e1 m2 e2 :
  c1 <= e1 -> c2 <= e2 ->
  scaled (c1 + c2) (m1 * m2) (e1 + e2) = scaled c1 m1 e1 * scaled c2 m2 e2.
Proof.
  intros H1 H2. unfold scaled. replace (e1 + e2 - (c1 + c2)) with ((e1 - c1) + (e2 - c2)) by lia.
  rewrite Z.pow_add_r by lia. ring.
Qed.

Lemma Zdigits2_lower m k : 0 <= k -> 2 ^ k <= m -> k + 1 <= Zdigits2 m.
Proof.
  intros Hk H. assert (Hm : 0 < m).
  { assert (0 < 2 ^ k) by (apply Z.pow_pos_nonneg; lia). lia. }
  pose proof (Zdigits2_bounds m Hm) as [_ Bu]. pose proof (Zdigits2_pos m Hm).
  destruct (Z.le_gt_cases (k + 1) (Zdigits2 m)); [assumption|].
  assert (2 ^ Zdigits2 m <= 2 ^ k) by (apply pow2_le; lia). lia.
Qed.

Lemma roundable_mul mx ex my ey :
  bounded prec emax mx ex = true -> bounded prec emax my ey = true ->
  roundable (Z.pos (mx * my)) (ex + ey).
Proof.
  intros Hx Hy. apply bounded_mantissa in Hx as (Hex & Hmx & Hcx).
  apply bounded_mantissa in Hy as (Hey & Hmy & Hcy).
  split; [lia|]. rewrite Pos2Z.inj_mul.
  pose proof (exponent_of_ge (Z.pos mx * Z.pos my) (ex + ey)) as [X1 X2].
  destruct (Z.eq_dec ex (-1074)) as [Ex|Nx], (Z.eq_dec ey (-1074)) as [Ey|Ny].
  - lia.
  - specialize (Hcy ltac:(lia)).
    assert (53 <= Zdigits2 (Z.pos mx * Z.pos my)) by (apply (Zdigits2_lower _ 52); nia).
    lia.
  - specialize (Hcx ltac:(lia)).
    assert (53 <= Zdigits2 (Z.pos mx * Z.pos my)) by (apply (Zdigits2_lower _ 52); nia).
    lia.
  - specialize (Hcx ltac:(lia)). specialize (Hcy ltac:(lia)).
    assert (105 <= Zdigits2 (Z.pos mx * Z.pos my)).
    { apply (Zdigits2_lower _ 104); [lia|]. change (2 ^ 104) with (2 ^ 52 * 2 ^ 52). nia. }
    lia.
Qed.

Lemma scaled_pow2_mul a a' :
  -1074 <= a -> -1074 <= a' ->
  scaled (-1074 + -1074) 1 (a + a') = scaled (-1074) 1 a * scaled (-1074) 1 a'.
Proof. intros. rewrite <- scaled_mul by lia. reflexivity. Qed.

(** The product of two numbers between powers of two. *)
Lemma fmul_within a b a' b' x y :
  within a b x -> within a' b' y -> -1074 <= a + a' -> b + b' <= 1023 ->
  within (a + a') (b + b') (fmul x y).
Proof.
  destruct x as [| | |[] mx ex]; try contradiction.
  destruct y as [| | |[] my ey]; try contradiction.
  intros (Hab & Hx & Hxl & Hxu) (Hab' & Hy & Hyl & Hyu) Hlo Hhi.
  unfold fmul, SFmul. cbn [xorb].
  pose proof (bounded_mantissa _ _ Hx) as (Hex & _). pose proof (bounded_mantissa _ _ Hy) as (Hey & _).
  assert (P1 : 0 < scaled (-1074) 1 a) by (apply scaled_pos; lia).
  assert (P2 : 0 < scaled (-1074) 1 a') by (apply scaled_pos; lia).
  apply (binary_round_aux_within (-1074 + -1074)); try lia.
  - now apply roundable_mul.
  - rewrite Pos2Z.inj_mul, scaled_mul, scaled_pow2_mul by lia. nia.
  - rewrite Pos2Z.inj_mul, scaled_mul, scaled_pow2_mul by lia. nia.
Qed.

Lemma iter_xO m d : Z.pos (Pos.iter xO m d) = Z.pos m * 2 ^ Z.pos d.
Proof.
  induction d as [|d IH] using Pos.peano_ind.
  - cbn [Pos.iter]. rewrite Pos2Z.inj_xO. change (2 ^ 1) with 2. ring.
  - rewrite Pos.iter_succ, Pos2Z.inj_xO, IH, Pos2Z.inj_succ, Z.pow_succ_r by lia. ring.
Qed.

(** [binary_round] brings the mantissa down to its canonical exponent
    before it rounds: the value stays, and the rounding has digits to
    cut, or none. *)
Lemma binary_round_spec sx mx ex :
  exists mz ez,
    binary_round prec emax sx mx ex = binary_round_aux prec emax sx (Z.pos mz) ez loc_Exact /\
    roundable (Z.pos mz) ez /\
    ez = Z.min ex (exponent_of (Z.pos mx) ex) /\
    Z.pos mz = Z.pos mx * 2 ^ (ex - ez).
Proof.
  unfold binary_round, shl_align.
  change (fexp prec emax (Z.pos (digits2_pos mx) + ex)) with (exponent_of (Z.pos mx) ex).
  destruct (exponent_of (Z.pos mx) ex - ex) as [|d|d] eqn:E.
  - exists mx, ex. split; [reflexivity|]. split; [split; lia|]. split; [lia|].
    rewrite Z.sub_diag, Z.pow_0_r. lia.
  - exists mx, ex. split; [reflexivity|]. split; [split; lia|]. split; [lia|].
    rewrite Z.sub_diag, Z.pow_0_r. lia.
  - exists (Pos.iter xO mx d), (exponent_of (Z.pos mx) ex).
    split; [reflexivity|].
    assert (Ed : ex - exponent_of (Z.pos mx) ex = Z.pos d) by lia.
    rewrite iter_xO, Ed. split; [|split; [lia | reflexivity]].
    split; [lia|]. unfold exponent_of at 2.
    rewrite Zdigits2_mul_pow2 by lia. unfold exponent_of in *.
    replace (Zdigits2 (Z.pos mx) + Z.pos d + fexp prec emax (Zdigits2 (Z.pos mx) + ex))
      with (Zdigits2 (Z.pos mx) + ex) by lia.
    lia.
Qed.

Lemma binary_round_within c mx ex a b :
  c <= ex -> c <= -1074 -> -1074 <= a <= b -> b <= 1023 ->
  scaled c 1 a <= scaled c (Z.pos mx) ex <= scaled c 1 b ->
  within a b (binary_round prec emax false mx ex).
Proof.
  intros Hce Hc Hab Hb [Hlo Hhi].
  destruct (binary_round_spec false mx ex) as (mz & ez & -> & Hr & Hez & Hmz).
  pose proof (exponent_of_ge (Z.pos mx) ex) as [X1 _].
  assert (E : scaled c (Z.pos mz) ez = scaled c (Z.pos mx) ex).
  { unfold scaled. rewrite Hmz. replace (ex - c) with ((ex - ez) + (ez - c)) by lia.
    rewrite Z.pow_add_r by lia. ring. }
  apply (binary_round_aux_within c); try lia; try assumption; rewrite E; assumption.
Qed.

(** The [float] of an [int] between two powers of two. *)
Lemma float_of_Z_within a b z :
  0 <= a <= b -> b <= 1023 -> 2 ^ a <= z <= 2 ^ b -> within a b (float_of_Z z).
Proof.
  intros Hab Hb [Hl Hu]. assert (0 < 2 ^ a) by (apply Z.pow_pos_nonneg; lia).
  destruct z as [|p|p]; try lia. unfold float_of_Z, binary_normalize.
  apply (binary_round_within (-1074)); try lia.
  unfold scaled. rewrite !Z.mul_1_l.
  replace (a - -1074) with (a + 1074) by lia. replace (b - -1074) with (b + 1074) by lia.
  rewrite !Z.pow_add_r by lia. change (0 - -1074) with 1074.
  assert (0 < 2 ^ 1074) by (apply Z.pow_pos_nonneg; lia). nia.
Qed.

(** *** Division *)

Lemma new_location_exact n r : new_location n r = loc_Exact -> r = 0.
Proof.
  unfold new_location, new_location_even, new_location_odd.
  destruct (Z.even n); destruct (Z.eqb_spec r 0); congruence.
Qed.

Lemma new_location_zero n : new_location n 0 = loc_Exact.
Proof. unfold new_location, new_location_even, new_location_odd. now destruct (Z.even n). Qed.

(** What [SFdiv_core_binary] hands to the rounding: a quotient [q] at
    an exponent [e'] where it has digits enough, the exact quotient being
    [m1 x 2^s / m2] at that exponent. *)
Lemma SFdiv_core_binary_spec m1 e1 m2 e2 :
  exists q e' l s,
    SFdiv_core_binary prec emax (Z.pos m1) e1 (Z.pos m2) e2 = (q, e', l) /\
    0 <= s /\ e' + s = e1 - e2 /\
    q * Z.pos m2 <= Z.pos m1 * 2 ^ s < (q + 1) * Z.pos m2 /\
    (l = loc_Exact -> q * Z.pos m2 = Z.pos m1 * 2 ^ s) /\
    (l <> loc_Exact -> q * Z.pos m2 < Z.pos m1 * 2 ^ s) /\
    roundable q e'.
Proof.
  unfold SFdiv_core_binary.
  set (d1 := Zdigits2 (Z.pos m1)). set (d2 := Zdigits2 (Z.pos m2)).
  set (E := d1 + e1 - (d2 + e2)).
  set (e' := Z.min (fexp prec emax E) (e1 - e2)).
  set (s := e1 - e2 - e').
  assert (Hs : 0 <= s) by (unfold s, e'; lia).
  assert (Em : forall t, 0 <= t ->
                 match t with Z.pos _ => Z.shiftl (Z.pos m1) t | 0 => Z.pos m1 | Z.neg _ => 0 end
                 = Z.pos m1 * 2 ^ t).
  { intros [|p|p] Ht; try lia. apply Z.shiftl_mul_pow2. lia. }
  rewrite (Em s Hs). clear Em.
  pose proof (Z_div_mod (Z.pos m1 * 2 ^ s) (Z.pos m2) ltac:(lia)) as Hdiv.
  destruct (Z.div_eucl (Z.pos m1 * 2 ^ s) (Z.pos m2)) as [q r]. destruct Hdiv as [Hq Hr].
  exists q, e', (new_location (Z.pos m2) r), s.
  assert (HS : 0 < 2 ^ s) by (apply Z.pow_pos_nonneg; lia).
  assert (Hq0 : 0 <= q) by nia.
  split; [reflexivity|]. split; [assumption|]. split; [unfold s; lia|].
  split; [nia|]. split.
  { intros Hl. apply new_location_exact in Hl. nia. }
  split.
  { intros Hl. assert (r <> 0) by (intros ->; apply Hl, new_location_zero). nia. }
  split; [assumption|].
  pose proof (exponent_of_ge q e') as [X1 X2].
  assert (He' : e' <= fexp prec emax E) by (unfold e'; lia).
  destruct (Z.le_gt_cases (E - e') 0) as [Hsmall|Hbig].
  - rewrite fexp_eq in He'. lia.
  - pose proof (Zdigits2_bounds (Z.pos m1) ltac:(lia)) as [B1 _].
    pose proof (Zdigits2_bounds (Z.pos m2) ltac:(lia)) as [_ B2].
    pose proof (Zdigits2_pos (Z.pos m1) ltac:(lia)) as D1.
    pose proof (Zdigits2_pos (Z.pos m2) ltac:(lia)) as D2.
    fold d1 in B1, D1. fold d2 in B2, D2.
    assert (Ej : E - e' = d1 + s - d2) by (unfold E, s; lia).
    assert (Hq1 : 2 ^ (d1 + s - d2 - 1) <= q).
    { destruct (Z.le_gt_cases (2 ^ (d1 + s - d2 - 1)) q); [assumption|]. exfalso.
      assert (Hm : 2 ^ (d1 - 1) * 2 ^ s <= Z.pos m1 * 2 ^ s) by nia.
      assert (Hp : 2 ^ (d1 + s - d2 - 1) * 2 ^ d2 = 2 ^ (d1 - 1) * 2 ^ s).
      { rewrite <- !Z.pow_add_r by lia. f_equal. lia. }
      assert (0 < 2 ^ (d1 + s - d2 - 1)) by (apply Z.pow_pos_nonneg; lia).
      nia. }
    assert (Hd : d1 + s - d2 <= Zdigits2 q).
    { pose proof (Zdigits2_lower q (d1 + s - d2 - 1) ltac:(lia) Hq1). lia. }
    unfold exponent_of. eapply Z.le_trans; [exact He'|]. apply fexp_le. lia.
Qed.

Lemma scaled_rescale c c' m e : c' <= c -> c <= e -> scaled c' m e = scaled c m e * 2 ^ (c - c').
Proof.
  intros H1 H2. unfold scaled. replace (e - c') with ((e - c) + (c - c')) by lia.
  rewrite Z.pow_add_r by lia. ring.
Qed.

Lemma dyadic_le_scaled c m e m' e' :
  c <= e -> c <= e' -> (dyadic_le m e m' e' <-> scaled c m e <= scaled c m' e').
Proof.
  intros H1 H2. unfold dyadic_le.
  rewrite (scaled_rescale (Z.min e e') c m e), (scaled_rescale (Z.min e e') c m' e') by lia.
  assert (0 < 2 ^ (Z.min e e' - c)) by (apply Z.pow_pos_nonneg; lia).
  split; nia.
Qed.

(** The quotient of two finite numbers, between powers of two that
    bound the exact quotient. *)
Lemma fdiv_finite_within m1 e1 m2 e2 a b :
  -1074 <= a <= b -> b <= 1023 ->
  dyadic_le (Z.pos m2) (e2 + a) (Z.pos m1) e1 ->
  dyadic_le (Z.pos m1) e1 (Z.pos m2) (e2 + b) ->
  within a b (fdiv (S754_finite false m1 e1) (S754_finite false m2 e2)).
Proof.
  intros Hab Hb Hlo Hhi. unfold fdiv, SFdiv.
  destruct (SFdiv_core_binary_spec m1 e1 m2 e2)
    as (q & e' & l & s & -> & Hs & Hes & [Hq1 Hq2] & Hex & Hin & Hr).
  cbn [xorb]. pose proof Hr as [Hq0 _].
  assert (HS : 0 < 2 ^ s) by (apply Z.pow_pos_nonneg; lia).
  set (c := Z.min (-1074) e').
  assert (HC : 0 < 2 ^ (e' - c)) by (apply Z.pow_pos_nonneg; lia).
  apply (binary_round_aux_within c); try lia; try assumption.
  - (* from below *)
    unfold scaled. rewrite Z.mul_1_l.
    destruct (Z.le_gt_cases e' a) as [Hge|Hlt].
    + apply (dyadic_le_scaled (e2 + e')) in Hlo; [|lia|lia]. unfold scaled in Hlo.
      replace (e2 + a - (e2 + e')) with (a - e') in Hlo by lia.
      replace (e1 - (e2 + e')) with s in Hlo by lia.
      assert (HA : 0 < 2 ^ (a - e')) by (apply Z.pow_pos_nonneg; lia).
      assert (2 ^ (a - e') <= q) by nia.
      replace (a - c) with ((a - e') + (e' - c)) by lia. rewrite Z.pow_add_r by lia. nia.
    + pose proof (roundable_canonical q e' Hr ltac:(lia)) as Hbig.
      assert (2 ^ (a - c) <= 2 ^ (e' - c)) by (apply pow2_le; lia). nia.
  - (* from above *)
    destruct (Z.le_gt_cases e' b) as [Hge|Hlt].
    + apply (dyadic_le_scaled (e2 + e')) in Hhi; [|lia|lia]. unfold scaled in Hhi.
      replace (e2 + b - (e2 + e')) with (b - e') in Hhi by lia.
      replace (e1 - (e2 + e')) with s in Hhi by lia.
      assert (HB : 0 < 2 ^ (b - e')) by (apply Z.pow_pos_nonneg; lia).
      unfold scaled. rewrite Z.mul_1_l.
      replace (b - c) with ((b - e') + (e' - c)) by lia. rewrite Z.pow_add_r by lia.
      destruct l as [|cmp].
      * assert (q <= 2 ^ (b - e')) by nia. nia.
      * assert (Hlt : q * Z.pos m2 < Z.pos m1 * 2 ^ s) by (apply Hin; discriminate).
        assert (q + 1 <= 2 ^ (b - e')) by nia. nia.
    + exfalso. pose proof (roundable_canonical q e' Hr ltac:(lia)) as Hbig.
      apply (dyadic_le_scaled (e2 + b)) in Hhi; [|lia|lia]. unfold scaled in Hhi.
      replace (e2 + b - (e2 + b)) with 0 in Hhi by lia. rewrite Z.pow_0_r in Hhi.
      replace (e1 - (e2 + b)) with (s + (e' - b)) in Hhi by lia.
      rewrite Z.pow_add_r in Hhi by lia.
      assert (2 ^ 1 <= 2 ^ (e' - b)) by (apply pow2_le; lia).
      change (2 ^ 1) with 2 in *.
      assert (0 < 2 ^ 52) by reflexivity. nia.
Qed.

(** *** Square root *)

(** What [SFsqrt_core_binary] hands to the rounding: the integer square
    root [q] of [m x 2^s] at the exponent [e'], where [e = 2 e' + s]. *)
Lemma SFsqrt_core_binary_spec m e :
  exists q e' l s,
    SFsqrt_core_binary prec emax (Z.pos m) e = (q, e', l) /\
    0 <= s /\ 2 * e' + s = e /\
    1 <= q /\
    q * q <= Z.pos m * 2 ^ s < (q + 1) * (q + 1) /\
    (l <> loc_Exact -> q * q < Z.pos m * 2 ^ s) /\
    roundable q e'.
Proof.
  unfold SFsqrt_core_binary.
  set (d := Zdigits2 (Z.pos m)).
  set (F := fexp prec emax (Z.div2 (d + e + 1))).
  set (e' := Z.min F (Z.div2 e)).
  set (s := e - 2 * e').
  assert (He2 : 2 * Z.div2 e <= e).
  { rewrite Z.div2_div. pose proof (Z.mul_div_le e 2 ltac:(lia)). lia. }
  assert (Hs : 0 <= s) by (unfold s, e'; lia).
  assert (Em : forall t, 0 <= t ->
                 match t with Z.pos _ => Z.shiftl (Z.pos m) t | 0 => Z.pos m | Z.neg _ => 0 end
                 = Z.pos m * 2 ^ t).
  { intros [|p|p] Ht; try lia. apply Z.shiftl_mul_pow2. lia. }
  rewrite (Em s Hs). clear Em.
  assert (HS : 0 < 2 ^ s) by (apply Z.pow_pos_nonneg; lia).
  set (m' := Z.pos m * 2 ^ s). assert (Hm' : 0 < m') by (unfold m'; nia).
  pose proof (Z.sqrtrem_spec m' ltac:(lia)) as Hsq.
  destruct (Z.sqrtrem m') as [q r]. destruct Hsq as [Hq Hr].
  exists q, e', (if r =? 0 then loc_Exact else loc_Inexact (if r <=? q then Lt else Gt)), s.
  assert (Hq1 : 1 <= q) by nia.
  split; [reflexivity|]. split; [assumption|]. split; [unfold s; lia|].
  split; [assumption|]. split; [nia|]. split.
  { destruct (Z.eqb_spec r 0); [congruence|]. intros _. nia. }
  split; [lia|].
  (* the digits of the root *)
  pose proof (Zdigits2_bounds (Z.pos m) ltac:(lia)) as [B1 _].
  pose proof (Zdigits2_pos (Z.pos m) ltac:(lia)) as D1. fold d in B1, D1.
  set (j := (d + s - 1) / 2).
  assert (Hj : 0 <= j /\ 2 * j <= d + s - 1 /\ d + s - 1 <= 2 * j + 1).
  { unfold j. pose proof (Z.div_mod (d + s - 1) 2 ltac:(lia)).
    pose proof (Z.mod_pos_bound (d + s - 1) 2 ltac:(lia)).
    assert (0 <= (d + s - 1) / 2) by (apply Z.div_pos; lia). lia. }
  assert (Hqj : 2 ^ j <= q).
  { destruct (Z.le_gt_cases (2 ^ j) q); [assumption|]. exfalso.
    assert (Hp : 2 ^ j * 2 ^ j <= 2 ^ (d - 1) * 2 ^ s).
    { rewrite <- !Z.pow_add_r by lia. apply pow2_le. lia. }
    assert (2 ^ (d - 1) * 2 ^ s <= m') by (unfold m'; nia).
    assert (0 < 2 ^ j) by (apply Z.pow_pos_nonneg; lia). nia. }
  pose proof (Zdigits2_lower q j ltac:(lia) Hqj) as Hdq.
  assert (Hdiv : Z.div2 (d + e + 1) <= j + 1 + e').
  { rewrite Z.div2_div.
    assert ((d + e + 1) / 2 < j + 2 + e'); [|lia].
    apply Z.div_lt_upper_bound; [lia|]. unfold s in Hj. lia. }
  unfold exponent_of. apply Z.le_trans with F; [unfold e'; lia|].
  unfold F. apply fexp_le. lia.
Qed.

(** The square root of a number between [2^(2a)] and [2^(2b)]. *)
Lemma fsqrt_within a b x :
  within (2 * a) (2 * b) x -> b <= 1023 -> within a b (fsqrt x).
Proof.
  destruct x as [| | |[] m e]; try contradiction.
  intros (Hab & Hv & Hlo & Hhi) Hb. unfold fsqrt, SFsqrt.
  destruct (SFsqrt_core_binary_spec m e)
    as (q & e' & l & s & -> & Hs & Hes & Hq1 & [Hq2 Hq3] & Hin & Hr).
  pose proof (bounded_mantissa _ _ Hv) as (He & _).
  assert (HS : 0 < 2 ^ s) by (apply Z.pow_pos_nonneg; lia).
  set (c := Z.min (-1074) e').
  assert (HC : 0 < 2 ^ (e' - c)) by (apply Z.pow_pos_nonneg; lia).
  fold (dyadic_le 1 (2 * a) (Z.pos m) e) in Hlo.
  assert (Hlo' : dyadic_le 1 (2 * a) (Z.pos m) e).
  { apply (dyadic_le_scaled (-1074)); [lia | lia | exact Hlo]. }
  assert (Hhi' : dyadic_le (Z.pos m) e 1 (2 * b)).
  { apply (dyadic_le_scaled (-1074)); [lia | lia | exact Hhi]. }
  apply (binary_round_aux_within c); try lia; try assumption.
  - unfold scaled. rewrite Z.mul_1_l.
    destruct (Z.le_gt_cases e' a) as [Hge|Hlt].
    + apply (dyadic_le_scaled (2 * e')) in Hlo'; [|lia|lia]. unfold scaled in Hlo'.
      replace (e - 2 * e') with s in Hlo' by lia.
      replace (2 * a - 2 * e') with ((a - e') + (a - e')) in Hlo' by lia.
      rewrite Z.pow_add_r, Z.mul_1_l in Hlo' by lia.
      assert (HA : 0 < 2 ^ (a - e')) by (apply Z.pow_pos_nonneg; lia).
      assert (2 ^ (a - e') <= q) by nia.
      replace (a - c) with ((a - e') + (e' - c)) by lia. rewrite Z.pow_add_r by lia. nia.
    + assert (2 ^ (a - c) <= 2 ^ (e' - c)) by (apply pow2_le; lia). nia.
  - destruct (Z.le_gt_cases e' b) as [Hge|Hlt].
    + apply (dyadic_le_scaled (2 * e')) in Hhi'; [|lia|lia]. unfold scaled in Hhi'.
      replace (e - 2 * e') with s in Hhi' by lia.
      replace (2 * b - 2 * e') with ((b - e') + (b - e')) in Hhi' by lia.
      rewrite Z.pow_add_r, Z.mul_1_l in Hhi' by lia.
      assert (HB : 0 < 2 ^ (b - e')) by (apply Z.pow_pos_nonneg; lia).
      unfold scaled. rewrite Z.mul_1_l.
      replace (b - c) with ((b - e') + (e' - c)) by lia. rewrite Z.pow_add_r by lia.
      destruct l as [|cmp].
      * assert (q <= 2 ^ (b - e')) by nia. nia.
      * assert (Hlt : q * q < Z.pos m * 2 ^ s) by (apply Hin; discriminate).
        assert (q + 1 <= 2 ^ (b - e')) by nia. nia.
    + exfalso. apply (dyadic_le_scaled (2 * b)) in Hhi'; [|lia|lia]. unfold scaled in Hhi'.
      rewrite Z.sub_diag, Z.pow_0_r in Hhi'.
      assert (2 ^ 1 <= 2 ^ (e - 2 * b)) by (apply pow2_le; lia).
      change (2 ^ 1) with 2 in *. nia.
Qed.

Lemma within_bounds a b x :
  within a b x ->
  exists m e, x = S754_finite false m e /\ -1074 <= a <= b /\ -1074 <= e /\
              bounded prec emax m e = true /\
              2 ^ (a + 1074) <= Z.pos m * 2 ^ (e + 1074) <= 2 ^ (b + 1074).
Proof.
  destruct x as [| | |[] m e]; try contradiction. intros (Hab & Hv & H).
  exists m, e. pose proof (bounded_mantissa _ _ Hv) as (He & _).
  unfold scaled in H. rewrite !Z.mul_1_l in H.
  replace (a - -1074) with (a + 1074) in H by lia.
  replace (b - -1074) with (b + 1074) in H by lia.
  replace (e - -1074) with (e + 1074) in H by lia. auto.
Qed.

(** The quotient of two numbers between powers of two. *)
Lemma fdiv_within a b a' b' x y :
  within a b x -> within a' b' y -> -1074 <= a - b' -> b - a' <= 1023 ->
  within (a - b') (b - a') (fdiv x y).
Proof.
  intros Hx Hy Hlo Hhi.
  destruct (within_bounds _ _ _ Hx) as (m1 & e1 & -> & Hab & He1 & _ & Hx1 & Hx2).
  destruct (within_bounds _ _ _ Hy) as (m2 & e2 & -> & Hab' & He2 & _ & Hy1 & Hy2).
  assert (P1 : 0 < 2 ^ (a + 1074)) by (apply Z.pow_pos_nonneg; lia).
  assert (P2 : 0 < 2 ^ (a' + 1074)) by (apply Z.pow_pos_nonneg; lia).
  apply fdiv_finite_within; try lia.
  - (* 2^(a - b') y <= x *)
    destruct (Z.le_gt_cases b' a) as [Hge|Hlt].
    + apply (dyadic_le_scaled (-1074)); [lia | lia|]. unfold scaled.
      replace (e2 + (a - b') - -1074) with ((e2 + 1074) + (a - b')) by lia.
      replace (e1 - -1074) with (e1 + 1074) by lia.
      rewrite (Z.pow_add_r 2 (e2 + 1074) (a - b')) by lia.
      assert (E : 2 ^ (b' + 1074) * 2 ^ (a - b') = 2 ^ (a + 1074)).
      { rewrite <- Z.pow_add_r by lia. f_equal. lia. }
      assert (0 < 2 ^ (a - b')) by (apply Z.pow_pos_nonneg; lia). nia.
    + apply (dyadic_le_scaled (-1074 + (a - b'))); [lia | lia|]. unfold scaled.
      replace (e2 + (a - b') - (-1074 + (a - b'))) with (e2 + 1074) by lia.
      replace (e1 - (-1074 + (a - b'))) with ((e1 + 1074) + (b' - a)) by lia.
      rewrite (Z.pow_add_r 2 (e1 + 1074) (b' - a)) by lia.
      assert (E : 2 ^ (a + 1074) * 2 ^ (b' - a) = 2 ^ (b' + 1074)).
      { rewrite <- Z.pow_add_r by lia. f_equal. lia. }
      assert (0 < 2 ^ (b' - a)) by (apply Z.pow_pos_nonneg; lia). nia.
  - (* x <= 2^(b - a') y *)
    destruct (Z.le_gt_cases a' b) as [Hge|Hlt].
    + apply (dyadic_le_scaled (-1074)); [lia | lia|]. unfold scaled.
      replace (e2 + (b - a') - -1074) with ((e2 + 1074) + (b - a')) by lia.
      replace (e1 - -1074) with (e1 + 1074) by lia.
      rewrite (Z.pow_add_r 2 (e2 + 1074) (b - a')) by lia.
      assert (E : 2 ^ (a' + 1074) * 2 ^ (b - a') = 2 ^ (b + 1074)).
      { rewrite <- Z.pow_add_r by lia. f_equal. lia. }
      assert (0 < 2 ^ (b - a')) by (apply Z.pow_pos_nonneg; lia). nia.
    + apply (dyadic_le_scaled (-1074 + (b - a'))); [lia | lia|]. unfold scaled.
      replace (e2 + (b - a') - (-1074 + (b - a'))) with (e2 + 1074) by lia.
      replace (e1 - (-1074 + (b - a'))) with ((e1 + 1074) + (a' - b)) by lia.
      rewrite (Z.pow_add_r 2 (e1 + 1074) (a' - b)) by lia.
      assert (E : 2 ^ (b + 1074) * 2 ^ (a' - b) = 2 ^ (a' + 1074)).
      { rewrite <- Z.pow_add_r by lia. f_equal. lia. }
      assert (0 < 2 ^ (a' - b)) by (apply Z.pow_pos_nonneg; lia). nia.
Qed.

(** The quotient of two positive [int]s, between powers of two that
    bound it. *)
Lemma fdiv_Z_within a b p q :
  0 < p -> 0 < q -> -1074 <= a <= b -> b <= 1023 ->
  dyadic_le q a p 0 -> dyadic_le p 0 q b ->
  within a b (fdiv_Z p q).
Proof.
  intros Hp Hq Hab Hb Hlo Hhi. unfold fdiv_Z.
  destruct p as [|p|p], q as [|q|q]; try lia. cbn [Z2SF].
  apply fdiv_finite_within; assumption.
Qed.

(** The ceiling of a positive number is at least 1. *)
Lemma float_ceil_within a b x :
  within a b x -> exists z, float_ceil x = Ok z /\ 1 <= z.
Proof.
  destruct x as [| | |[] m e]; try contradiction. intros _.
  unfold float_ceil. eexists. split; [reflexivity|].
  destruct e as [|p|p]; cbn [cond_Zopp].
  - lia.
  - assert (0 < 2 ^ Z.pos p) by (apply Z.pow_pos_nonneg; lia). nia.
  - assert (Hd : 0 < 2 ^ Z.pos p) by (apply Z.pow_pos_nonneg; lia).
    pose proof (Z.div_mod (- Z.pos m) (2 ^ Z.pos p) ltac:(lia)) as E.
    pose proof (Z.mod_pos_bound (- Z.pos m) (2 ^ Z.pos p) Hd) as B. nia.
Qed.

Lemma within_weaken a b a' b' x :
  within a b x -> -1074 <= a' <= a -> b <= b' -> within a' b' x.
Proof.
  destruct x as [| | |[] m e]; try contradiction. intros (Hab & Hv & Hl & Hu) Ha Hb.
  split; [lia|]. split; [assumption|].
  assert (scaled (-1074) 1 a' <= scaled (-1074) 1 a).
  { unfold scaled. rewrite !Z.mul_1_l. apply pow2_le. lia. }
  assert (scaled (-1074) 1 b <= scaled (-1074) 1 b').
  { unfold scaled. rewrite !Z.mul_1_l. apply pow2_le. lia. }
  lia.
Qed.

(** ** The inventory parameters of counted products *)

Lemma to_float_small z : 0 <= z <= 2 ^ 1000 -> to_float z = Ok (float_of_Z z).
Proof.
  intros Hz. apply to_float_ok. apply (quotient_fits_mono z (2 ^ 1000)); [lia | reflexivity].
Qed.

Lemma literals_within :
  within (-3) (-2) ANNUAL_HOLDING_COST_PERCENTAGE /\
  within 5 6 COST_PER_ORDER /\
  within (-3) (-2) DEMAND_VARIABILITY_FACTOR /\
  within 0 1 service_level_z_score /\
  within 1 2 sqrt_lead_time.
Proof. repeat split; try lia; try reflexivity; vm_compute; discriminate. Qed.

Lemma within_positive a b h :
  within a b h -> num_gt (NFloat h) (NInt 0) = true /\ float_is_zero h = false.
Proof.
  intros H. destruct (within_bounds _ _ _ H) as (m & e & -> & _ & He & _).
  split; [|reflexivity].
  unfold num_gt, num_lt, xlt. cbn [num_scaled float_scaled xcompare cond_Zopp].
  change (Z.shiftl 0 1074) with 0. pose proof (scaled_finite_pos m e He) as Hp.
  destruct (Z.compare_spec 0 (Z.shiftl (Z.pos m) (e + 1074))); try reflexivity; lia.
Qed.

Lemma holding_cost_counted c :
  1 <= c <= 2 ^ 64 ->
  exists h, holding_cost (NInt c) = Ok (NFloat h) /\ within (-3) 62 h.
Proof.
  intros Hc. unfold holding_cost, num_mul, num_arith. cbn [num_float].
  rewrite to_float_small by lia. cbn [rbind]. eexists. split; [reflexivity|].
  destruct literals_within as (H15 & _).
  apply (fmul_within 0 64 (-3) (-2)); try lia; try assumption.
  apply float_of_Z_within; lia.
Qed.

Lemma eoq_quotient_counted f h :
  1 <= f <= 2 ^ 64 -> within (-3) 62 h ->
  exists q, eoq_quotient (NInt f) (NFloat h) = Ok q /\ within (-56) 74 q.
Proof.
  intros Hf Hh. unfold eoq_quotient, num_mul, num_arith. cbn [rbind num_float].
  rewrite to_float_small by lia. cbn [rbind].
  unfold num_truediv. cbn [num_float rbind].
  destruct (within_positive _ _ _ Hh) as [_ ->].
  eexists. split; [reflexivity|].
  destruct literals_within as (_ & H50 & _).
  apply (fdiv_within 6 71 (-3) 62); try lia; [|assumption].
  apply (fmul_within 1 65 5 6); try lia; [|assumption].
  apply float_of_Z_within; lia.
Qed.

Lemma math_sqrt_within a b q :
  within (2 * a) (2 * b) q -> b <= 1023 ->
  math_sqrt q = Ok (fsqrt q) /\ within a b (fsqrt q).
Proof.
  intros Hq Hb. split; [|now apply fsqrt_within].
  destruct q as [| | |[] m e]; try contradiction. reflexivity.
Qed.

Lemma safety_stock_counted f :
  1 <= f <= 2 ^ 64 ->
  exists per_day,
    num_truediv (NInt f) (NInt 365) = Ok per_day /\
    within (-11) 65
      (fmul (fmul service_level_z_score (fmul per_day DEMAND_VARIABILITY_FACTOR))
         sqrt_lead_time).
Proof.
  intros Hf. unfold num_truediv. change (365 =? 0) with false. cbv iota.
  assert (Hfit : quotient_fits f 365 = true).
  { unfold quotient_fits. apply Z.ltb_lt. rewrite Z.abs_eq by lia.
    change (Z.abs 365) with 365.
    assert (2 ^ 64 < 2 ^ 1025 - 2 ^ 971) by reflexivity. lia. }
  rewrite Hfit. eexists. split; [reflexivity|].
  destruct literals_within as (_ & _ & H02 & Hz & Hs7).
  assert (Hpd : within (-9) 64 (fdiv_Z f 365)).
  { apply fdiv_Z_within; try lia.
    - unfold dyadic_le, scaled. change (Z.min (-9) 0) with (-9).
      change (2 ^ (-9 - -9)) with 1. change (2 ^ (0 - -9)) with 512. lia.
    - unfold dyadic_le, scaled. change (Z.min 0 64) with 0.
      change (2 ^ (0 - 0)) with 1. change (64 - 0) with 64. lia. }
  apply (fmul_within (-12) 63 1 2); try lia; [|assumption].
  apply (fmul_within 0 1 (-12) 62); try lia; [assumption|].
  apply (fmul_within (-9) 64 (-3) (-2)); try lia; assumption.
Qed.

(** The EOQ of a product with a frequency and a unit cost from 1 on. *)
Lemma eoq_units_counted p f c :
  py_getitem p "frequency" = Ok (VInt f) -> py_getitem p "unit_cost" = Ok (VInt c) ->
  1 <= f <= 2 ^ 64 -> 1 <= c <= 2 ^ 64 ->
  exists eoq eoq_units, eoq_of p = Ok eoq /\ math_ceil eoq = Ok eoq_units /\ 1 <= eoq_units.
Proof.
  intros Hf Hc Bf Bc.
  destruct (holding_cost_counted c Bc) as (h & Hh & Wh).
  destruct (eoq_quotient_counted f h Bf Wh) as (q & Hq & Wq).
  destruct (math_sqrt_within (-28) 37 q Wq ltac:(lia)) as [Hroot Wroot].
  destruct (float_ceil_within _ _ _ Wroot) as (eoq & Heoq & Heoq1).
  exists (NFloat (fsqrt q)), eoq. split; [|split; assumption].
  rewrite (eoq_of_spec p (VInt f) (VInt c) (NInt f) (NInt c) Hf eq_refl Hc eq_refl).
  rewrite Hh. cbn [rbind]. destruct (within_positive _ _ _ Wh) as [-> _].
  rewrite Hq. cbn [rbind]. rewrite Hroot. reflexivity.
Qed.

(** The safety stock of a product with a frequency from 1 on. *)
Lemma safety_units_counted p f :
  py_getitem p "frequency" = Ok (VInt f) -> 1 <= f <= 2 ^ 64 ->
  exists safety_stock safety_units,
    safety_stock_of p = Ok safety_stock /\ float_ceil safety_stock = Ok safety_units /\
    1 <= safety_units.
Proof.
  intros Hf Bf.
  destruct (safety_stock_counted f Bf) as (per_day & Hpd & Wss).
  destruct (float_ceil_within _ _ _ Wss) as (ss & Hss & Hss1).
  eexists. exists ss. split; [|split; eassumption].
  rewrite (safety_stock_of_spec p (VInt f) (NInt f) Hf eq_refl), Hpd. reflexivity.
Qed.

(** X13. A counted product that is picked and costs something is kept in
    stock: for a SKU that is a string, a frequency and a unit cost that
    are [int]s from 1 to [2^64], the inventory step completes and stores
    an EOQ of at least 1 and a safety stock of at least 1. *)
Theorem counted_product_is_stocked :
  forall (p : value) (inventory_metrics : list (string * value)),
    counted_product 1 p ->
    exists (sku : string) (eoq_units safety_units : Z),
      sku_of p = Some sku /\
      inventory_step p inventory_metrics
      = Ok (assign sku (inventory_entry eoq_units safety_units) inventory_metrics) /\
      1 <= eoq_units /\
      1 <= safety_units.
Proof.
  intros p inv (sku & f & c & Hsku & Hf & Hc & Bf & Bc).
  destruct (eoq_units_counted p f c Hf Hc Bf Bc) as (eoq & eoq_units & He & Hce & He1).
  destruct (safety_units_counted p f Hf Bf) as (ss & safety_units & Hs & Hcs & Hs1).
  exists sku, eoq_units, safety_units. split; [unfold sku_of; now rewrite Hsku|].
  split; [|split; assumption].
  unfold inventory_step. rewrite He, Hs. cbn [rbind]. rewrite Hce. cbn [rbind math_ceil].
  rewrite Hcs. cbn [rbind]. rewrite Hsku. reflexivity.
Qed.

Lemma counted_product_is_stocked_witness :
  exists sku eoq_units safety_units,
    sku_of product_100 = Some sku /\
    inventory_step product_100 []
    = Ok (assign sku (inventory_entry eoq_units safety_units) []) /\
    1 <= eoq_units /\ 1 <= safety_units.
Proof.
  apply (counted_product_is_stocked product_100 []).
  exists "P-100", 100, 10. repeat split; try reflexivity; try lia.
  all: vm_compute; discriminate.
Defined.

(** ** The buckets are runs of the sorted sequence *)




















(** ** The run on counted products *)

Lemma eoq_units_counted0 p f c :
  py_getitem p "frequency" = Ok (VInt f) -> py_getitem p "unit_cost" = Ok (VInt c) ->
  0 <= f <= 2 ^ 64 -> 0 <= c <= 2 ^ 64 ->
  exists eoq eoq_units, eoq_of p = Ok eoq /\ math_ceil eoq = Ok eoq_units.
Proof.
  intros Hf Hc Bf Bc.
  destruct (Z.eq_dec c 0) as [->|Hc0].
  { exists (NInt 0), 0. split; [|reflexivity].
    now rewrite (eoq_of_spec p (VInt f) (VInt 0) (NInt f) (NInt 0) Hf eq_refl Hc eq_refl). }
  destruct (Z.eq_dec f 0) as [->|Hf0].
  - destruct (holding_cost_counted c ltac:(lia)) as (h & Hh & Wh).
    destruct (within_positive _ _ _ Wh) as [Hgt Hnz].
    destruct (within_bounds _ _ _ Wh) as (m & e & -> & _).
    exists (NFloat (S754_zero false)), 0. split; [|reflexivity].
    rewrite (eoq_of_spec p (VInt 0) (VInt c) (NInt 0) (NInt c) Hf eq_refl Hc eq_refl).
    rewrite Hh. cbn [rbind]. rewrite Hgt. reflexivity.
  - destruct (eoq_units_counted p f c Hf Hc ltac:(lia) ltac:(lia)) as (eoq & z & H1 & H2 & _).
    eauto.
Qed.

Lemma safety_units_counted0 p f :
  py_getitem p "frequency" = Ok (VInt f) -> 0 <= f <= 2 ^ 64 ->
  exists safety_stock safety_units,
    safety_stock_of p = Ok safety_stock /\ float_ceil safety_stock = Ok safety_units.
Proof.
  intros Hf Bf. destruct (Z.eq_dec f 0) as [->|Hf0].
  - exists (S754_zero false), 0. split; [|reflexivity].
    now rewrite (safety_stock_of_spec p (VInt 0) (NInt 0) Hf eq_refl).
  - destruct (safety_units_counted p f Hf ltac:(lia)) as (ss & z & H1 & H2 & _). eauto.
Qed.

Lemma inventory_loop_counted products : forall inventory_metrics,
  Forall (counted_product 0) products ->
  exists inventory_metrics', inventory_loop products inventory_metrics = Ok inventory_metrics'.
Proof.
  induction products as [|p rest IH]; intros inv Hall; cbn [inventory_loop]; [eauto|].
  inversion Hall as [|? ? (sku & f & c & Hsku & Hf & Hc & Bf & Bc) Hrest]; subst.
  destruct (eoq_units_counted0 p f c Hf Hc Bf Bc) as (eoq & eu & He & Hce).
  destruct (safety_units_counted0 p f Hf Bf) as (ss & su & Hs & Hcs).
  unfold inventory_step. rewrite He, Hs. cbn [rbind]. rewrite Hce. cbn [rbind math_ceil].
  rewrite Hcs. cbn [rbind]. rewrite Hsku. cbn [rbind dict_key]. apply IH. assumption.
Qed.

Lemma counted_frequencies products :
  Forall (counted_product 0) products ->
  exists fs, int_frequencies products fs /\ Forall (fun f => 0 <= f <= 2 ^ 64) fs.
Proof.
  unfold int_frequencies. induction 1 as [|p rest (sku & f & c & _ & Hf & _ & Bf & _) _ IH].
  - exists []. split; [reflexivity | constructor].
  - destruct IH as (fs & Hfs & Hall). exists (f :: fs). split; [|now constructor].
    cbn [map]. rewrite Hfs. unfold frequency_of, field_num. now rewrite Hf.
Qed.

Lemma add_all_ints fs : forall a, add_all (NInt a) (map NInt fs) = Ok (NInt (a + plain_sum fs)).
Proof.
  unfold plain_sum. induction fs as [|f fs IH]; intros a; cbn [map add_all fold_right].
  - now rewrite Z.add_0_r.
  - cbn [num_add num_arith rbind]. rewrite IH. do 2 f_equal. lia.
Qed.

Lemma total_frequency_int products fs :
  int_frequencies products fs -> total_frequency products = Ok (NInt (plain_sum fs)).
Proof.
  intros H. rewrite (total_frequency_add_all products (map NInt fs)).
  - apply add_all_ints.
  - unfold int_frequencies in H. now rewrite H, map_map.
Qed.

Lemma plain_sum_bound B fs :
  Forall (fun f => 0 <= f <= B) fs -> 0 <= plain_sum fs <= B * Z.of_nat (List.length fs).
Proof.
  unfold plain_sum. induction 1 as [|f fs Hf _ IH]; cbn [fold_right List.length]; [lia|].
  rewrite Nat2Z.inj_succ. lia.
Qed.

Lemma weighted_sum_upper B fs : Forall (fun f => 0 <= f <= B) fs ->
  forall position, 0 <= position ->
    0 <= weighted_sum position fs
    <= 2 * B * Z.of_nat (List.length fs) * (position + Z.of_nat (List.length fs)).
Proof.
  induction 1 as [|f fs Hf _ IH]; intros position Hp; cbn [weighted_sum List.length]; [lia|].
  specialize (IH (position + 1) ltac:(lia)). rewrite Nat2Z.inj_succ.
  set (n := Z.of_nat (List.length fs)) in *. assert (0 <= n) by (unfold n; lia).
  assert (0 <= B) by lia. nia.
Qed.

Lemma picked_total products fs :
  int_frequencies products fs -> Forall (fun f => 0 <= f) fs -> Exists (frequency_from 1) products ->
  0 < plain_sum fs.
Proof.
  unfold int_frequencies, plain_sum. intros H Hall Hex. revert fs H Hall.
  induction Hex as [p rest (f & Hf & Hf1)|p rest _ IH]; intros [|f' fs] H Hall; try discriminate.
  - cbn [map] in H. injection H as Hp Hrest. inversion Hall; subst.
    unfold frequency_of, field_num in Hp. rewrite Hf in Hp. cbn [as_num] in Hp.
    injection Hp as <-. cbn [fold_right].
    assert (0 <= fold_right Z.add 0 fs) by now apply plain_sum_nonneg. lia.
  - cbn [map] in H. injection H as Hp Hrest. inversion Hall; subst.
    specialize (IH fs Hrest ltac:(assumption)). cbn [fold_right]. lia.
Qed.

Lemma counted_has_sku products :
  Forall (counted_product 0) products ->
  Forall (fun p => exists s, sku_of p = Some s) products.
Proof.
  apply Forall_impl. intros p (sku & f & c & Hsku & _). exists sku.
  unfold sku_of. now rewrite Hsku.
Qed.

Lemma hours_of_distance z :
  0 <= z <= 2 ^ 1000 ->
  value_truediv (VInt z) (NFloat metres_per_hour) = Ok (fdiv (float_of_Z z) metres_per_hour).
Proof.
  intros Hz. unfold value_truediv. cbn [as_num]. unfold num_truediv.
  cbn [num_float]. rewrite (to_float_small z Hz). reflexivity.
Qed.

Lemma _calculate_financial_metrics_spec s original optimized t1 t2 :
  lookup "original_distance" (metrics (self s)) = Some original ->
  lookup "optimized_distance" (metrics (self s)) = Some optimized ->
  value_truediv original (NFloat metres_per_hour) = Ok t1 ->
  value_truediv optimized (NFloat metres_per_hour) = Ok t2 ->
  _calculate_financial_metrics s
  = (with_self (fun o => set_metrics (update (metrics o) (financial_entries t1 t2)) o) s, Ok tt).
Proof.
  intros L1 L2 H1 H2. unfold _calculate_financial_metrics, bind, get_self, lift.
  rewrite speed_is_metres_per_hour. unfold dict_getitem. rewrite L1, L2, H1, H2.
  reflexivity.
Qed.

Lemma _calculate_inventory_metrics_spec s inventory_metrics :
  inventory_loop (products (self s)) [] = Ok inventory_metrics ->
  _calculate_inventory_metrics s
  = (with_self (fun o => set_report_data
       (assign "inventory_metrics" (VDict inventory_metrics) (report_data o)) o) s, Ok tt).
Proof.
  intros H. unfold _calculate_inventory_metrics, bind, get_self, lift. now rewrite H.
Qed.

Lemma calculate_all_metrics_steps s :
  products (self s) <> [] ->
  calculate_all_metrics s
  = bind _calculate_distance_metrics (fun _ =>
      bind _calculate_financial_metrics (fun _ => _calculate_inventory_metrics)) s.
Proof.
  intros Hne. unfold calculate_all_metrics. unfold bind at 1, get_self.
  destruct (products (self s)); [contradiction | reflexivity].
Qed.

Lemma Forall_app_parts {A} (P : A -> Prop) a b c :
  Forall P (a ++ b ++ c) -> Forall P a /\ Forall P b /\ Forall P c.
Proof.
  intros H. apply Forall_app in H. destruct H as [Ha H].
  apply Forall_app in H. tauto.
Qed.

Lemma calculate_all_metrics_counted s a b c :
  products (self s) <> [] ->
  Forall (counted_product 0) (products (self s)) ->
  Z.of_nat (List.length (products (self s))) <= 2 ^ 64 ->
  categories (self s) = categories_of a b c ->
  Permutation (a ++ b ++ c) (products (self s)) ->
  exists (m : distance_metrics) (t1 t2 : float) (inventory_metrics : list (string * value)),
    distance_metrics_of (products (self s)) a b c = Ok m /\
    inventory_loop (products (self s)) [] = Ok inventory_metrics /\
    calculate_all_metrics s
    = (with_self (fun o =>
         set_report_data
           (assign "inventory_metrics" (VDict inventory_metrics) (report_data o))
           (set_metrics
              (update (update (metrics o) (distance_entries m)) (financial_entries t1 t2))
              o)) s, Ok tt).
Proof.
  intros Hne Hall Hlen Hcat Hperm.
  destruct (counted_frequencies _ Hall) as (fs & Hfs & Bfs).
  assert (Hparts : Forall (counted_product 0) (a ++ b ++ c)).
  { rewrite Forall_forall in *. intros p Hp. apply Hall. now apply (Permutation_in _ Hperm). }
  destruct (Forall_app_parts _ _ _ _ Hparts) as (Ha & Hb & Hc).
  destruct (counted_frequencies _ Ha) as (fa & Hfa & Bfa).
  destruct (counted_frequencies _ Hb) as (fb & Hfb & Bfb).
  destruct (counted_frequencies _ Hc) as (fc & Hfc & Bfc).
  assert (Pfs : Forall (fun f => 0 <= f) fs) by (revert Bfs; apply Forall_impl; lia).
  pose proof (distance_metrics_of_int _ a b c fs fa fb fc Hfs Hfa Hfb Hfc Pfs Hperm) as Hm.
  destruct (inventory_loop_counted _ [] Hall) as (inv & Hinv).
  (* the sizes of the two distances *)
  assert (Hn : List.length fs = List.length (products (self s))).
  { unfold int_frequencies in Hfs. apply (f_equal (@List.length _)) in Hfs.
    now rewrite !length_map in Hfs. }
  pose proof (weighted_sum_upper _ _ Bfs 1 ltac:(lia)) as Hw. rewrite Hn in Hw.
  pose proof (plain_sum_bound _ _ Bfs) as Hp. rewrite Hn in Hp.
  assert (Hsum : plain_sum fa + plain_sum fb + plain_sum fc = plain_sum fs).
  { rewrite <- (plain_sum_perm (fa ++ fb ++ fc) fs).
    - rewrite !plain_sum_app. lia.
    - apply (int_frequencies_perm (a ++ b ++ c) (products (self s))); try assumption.
      now repeat apply int_frequencies_app. }
  pose proof (plain_sum_bound _ _ Bfa) as Hpa.
  pose proof (plain_sum_bound _ _ Bfb) as Hpb.
  pose proof (plain_sum_bound _ _ Bfc) as Hpc.
  set (n := Z.of_nat (List.length (products (self s)))) in *.
  assert (Hn0 : 0 <= n) by (unfold n; lia).
  assert (Hbig : 2 ^ 1000 = 2 ^ 64 * 2 ^ 64 * 2 ^ 64 * 2 ^ 808)
    by (rewrite <- !Z.pow_add_r by lia; reflexivity).
  assert (H64 : 0 < 2 ^ 64) by (apply Z.pow_pos_nonneg; lia).
  assert (H808 : 2 ^ 10 <= 2 ^ 808) by (apply Z.pow_le_mono_r; lia).
  change (2 ^ 10) with 1024 in H808.
  assert (Hw1 : 0 <= weighted_sum 1 fs <= 2 ^ 1000).
  { split; [lia|]. rewrite Hbig. revert Hw Hlen H64 H808 Hn0.
    generalize (weighted_sum 1 fs), (2 ^ 64), (2 ^ 808). intros w B T Hw Hlen HB HT Hn0.
    assert (n * (1 + n) <= B * (2 * B)) by (apply Z.mul_le_mono_nonneg; lia).
    assert (0 <= B * B * B) by (apply Z.mul_nonneg_nonneg; nia).
    assert (2 * B * n * (1 + n) <= 4 * (B * B * B)) by nia.
    assert (4 * (B * B * B) <= B * B * B * T) by nia. lia. }
  assert (Hw2 : 0 <= plain_sum fa * 5 + plain_sum fb * 15 + plain_sum fc * 30 <= 2 ^ 1000).
  { split; [lia|]. rewrite Hbig. revert Hp Hlen H64 H808 Hn0 Hpa Hpb Hpc Hsum.
    generalize (plain_sum fa), (plain_sum fb), (plain_sum fc), (plain_sum fs),
      (2 ^ 64), (2 ^ 808).
    intros pa pb pc p B T Hp Hlen HB HT Hn0 Hpa Hpb Hpc Hsum.
    assert (p <= B * B) by nia.
    assert (0 <= B * B * B) by (apply Z.mul_nonneg_nonneg; nia).
    assert (30 * (B * B) <= B * B * B * T) by nia. lia. }
  eexists _, _, _, inv. split; [exact Hm|]. split; [exact Hinv|].
  rewrite (calculate_all_metrics_steps s Hne).
  unfold bind. rewrite (_calculate_distance_metrics_spec s a b c Hcat), Hm.
  erewrite _calculate_financial_metrics_spec.
  2,3: unfold with_self; cbn [self metrics set_metrics];
       rewrite lookup_update by
         (cbn [distance_entries map fst]; repeat constructor; cbn [In]; intros H;
          repeat (destruct H as [H|H]; [discriminate|]); exact H);
       reflexivity.
  2,3: cbn [of_num original_distance optimized_distance]; apply hours_of_distance; assumption.
  erewrite _calculate_inventory_metrics_spec by exact Hinv.
  reflexivity.
Qed.

Lemma _create_results_data_for_json_counted o inventory_metrics :
  Forall (counted_product 0) (products o) ->
  lookup "inventory_metrics" (report_data o) = Some inventory_metrics ->
  exists document, _create_results_data_for_json o = Ok document.
Proof.
  intros Hall Hinv. destruct (sorted_by_sku_strings _ (counted_has_sku _ Hall)) as (l & Hl & _).
  unfold _create_results_data_for_json, dict_getitem. rewrite Hl, Hinv. cbn [rbind]. eauto.
Qed.

(** X15. The run of a stock list completes.  For a non-empty list that
    validates, of at most [2^64] products whose SKUs are strings and whose
    frequencies and unit costs are [int]s from 0 to [2^64], one product at
    least being picked, [run] raises nothing: it keeps the products, prints
    its four lines and writes, to [warehouse_analysis_results.json], the
    report built from the final object. *)
Theorem run_writes_the_report :
  forall (py_repr : value -> string) (catalog : list value),
    validate_all py_repr (VList catalog) = Ok [] ->
    Forall (counted_product 0) catalog ->
    Exists (frequency_from 1) catalog ->
    Z.of_nat (List.length catalog) <= 2 ^ 64 ->
    exists (s : state) (document : value),
      main py_repr (Decoded (VList catalog)) Writable = (s, Ok tt) /\
      products (self s) = catalog /\
      _create_results_data_for_json (self s) = Ok document /\
      output_file s = Some (default_filepath, document) /\
      stdout s = ["Initializing Warehouse Optimizer...";
                  "Data loaded and validated successfully.";
                  "Data loaded successfully. Starting analysis...";
                  String "010"
                    "Analysis complete. Results saved to 'warehouse_analysis_results.json'."].
Proof.
  intros py_repr catalog Hv Hall Hex Hlen.
  assert (Hne : catalog <> []) by (intros ->; inversion Hex).
  destruct (counted_frequencies _ Hall) as (fs & Hfs & Bfs).
  assert (Pfs : Forall (fun f => 0 <= f) fs) by (revert Bfs; apply Forall_impl; lia).
  pose proof (total_frequency_int _ _ Hfs) as Ht.
  pose proof (picked_total _ _ Hfs Pfs Hex) as Hpos.
  assert (Hnz : num_eq (NInt (plain_sum fs)) (NInt 0) = false)
    by (rewrite num_eq_int; apply Z.eqb_neq; lia).
  unfold main. rewrite (run_decoded_valid py_repr catalog Writable _ Hv Hne).
  cbn [self stdout output_file app].
  set (s1 := {| self := set_products catalog (init "real_world_product_data.json");
                stdout := _; output_file := None |}).
  destruct (run_abc_analysis_classifies s1 (NInt (plain_sum fs)) Hne
              (validated_products py_repr catalog Hv) Ht Hnz)
    as (sorted & shares & _ & Hperm & _ & _ & Hshares & Hrun).
  pose proof (records_in_partition sorted shares Hshares) as Hparts.
  set (a := records_in BucketA sorted shares) in *.
  set (b := records_in BucketB sorted shares) in *.
  set (c := records_in BucketC sorted shares) in *.
  set (s2 := with_self (set_categories (categories_of a b c)) s1) in *.
  destruct (calculate_all_metrics_counted s2 a b c Hne Hall Hlen eq_refl
              (Permutation_trans Hparts Hperm))
    as (m & t1 & t2 & inv & _ & _ & Hcalc).
  set (s3 := with_self _ s2) in Hcalc.
  destruct (_create_results_data_for_json_counted (self s3) (VDict inv) Hall
              (lookup_assign_same _ _ _)) as (document & Hdoc).
  unfold bind at 1. rewrite Hrun. unfold bind at 1. rewrite Hcalc.
  unfold save_results_to_file, bind, get_self, lift. rewrite Hdoc.
  eexists _, document. split; [reflexivity|].
  cbn [self stdout output_file fst snd write_file print].
  split; [reflexivity|]. split; [exact Hdoc|]. split; reflexivity.
Qed.

Lemma run_writes_the_report_witness :
  exists s document,
    main sample_repr (Decoded (VList [product_50; product_10; product_100])) Writable
    = (s, Ok tt) /\
    products (self s) = [product_50; product_10; product_100] /\
    _create_results_data_for_json (self s) = Ok document /\
    output_file s = Some (default_filepath, document) /\
    stdout s = ["Initializing Warehouse Optimizer...";
                "Data loaded and validated successfully.";
                "Data loaded successfully. Starting analysis...";
                String "010"
                  "Analysis complete. Results saved to 'warehouse_analysis_results.json'."].
Proof.
  apply (run_writes_the_report sample_repr [product_50; product_10; product_100]).
  - reflexivity.
  - repeat constructor.
    + exists "P-050", 50, 4. repeat split; try reflexivity; try lia; vm_compute; discriminate.
    + exists "P-010", 10, 25. repeat split; try reflexivity; try lia; vm_compute; discriminate.
    + exists "P-100", 100, 10. repeat split; try reflexivity; try lia; vm_compute; discriminate.
  - constructor. exists 50. split; [reflexivity | lia].
  - vm_compute. discriminate.
Defined.

(** ** The range of the efficiency improvement *)

Lemma binary_round_aux_bounded_by c sx mx ex lx mh eh :
  in_format mh eh -> eh <= 971 -> roundable mx ex -> c <= ex -> c <= -1074 ->
  scaled c (match lx with loc_Exact => mx | _ => mx + 1 end) ex <= scaled c mh eh ->
  bounded_by sx mh eh (binary_round_aux prec emax sx mx ex lx).
Proof.
  intros Hf Heh [Hm Hex] Hce Hc Hhi. pose proof Hf as [_ Hel].
  pose proof (binary_round_aux_valid sx mx ex lx Hm Hex) as Hv.
  pose proof (binary_round_aux_upper c sx mx ex lx mh eh Hf Heh Hm Hex Hce ltac:(lia) Hhi) as Hu.
  destruct (binary_round_aux prec emax sx mx ex lx) as [s|s| |s m e]; try contradiction.
  - exact Hu.
  - destruct Hu as [-> Hu]. cbn [valid_binary] in Hv. cbn [bounded_by].
    split; [reflexivity|]. split; [exact Hv|].
    apply bounded_mantissa in Hv as [He _].
    assert (HK : 0 < 2 ^ (-1074 - c)) by (apply Z.pow_pos_nonneg; lia).
    rewrite (scaled_rescale (-1074) c (Z.pos m) e), (scaled_rescale (-1074) c mh eh) in Hu by lia.
    nia.
Qed.

Lemma fdiv_Z_bounded_by p q k :
  0 < q -> 0 < k < 2 ^ 53 -> Z.abs p <= k * q ->
  bounded_by (p <? 0) k 0 (fdiv_Z p q).
Proof.
  intros Hq Hk Hp. unfold fdiv_Z, fdiv.
  destruct q as [|m2|]; try lia. destruct p as [|m1|m1]; cbn [Z2SF SFdiv Z.ltb Z.compare xorb].
  1: reflexivity.
  all: destruct (SFdiv_core_binary_spec m1 0 m2 0)
         as (q & e' & l & s & -> & Hs & Hes & [Hq1 Hq2] & Hex & Hin & Hr);
       pose proof Hr as [Hq0 _];
       assert (HS : 0 < 2 ^ s) by (apply Z.pow_pos_nonneg; lia);
       apply (binary_round_aux_bounded_by (-1074 + e')); try lia; try assumption;
         [unfold in_format; lia|];
       assert (HC : 0 < 2 ^ (e' - (-1074 + e'))) by (apply Z.pow_pos_nonneg; lia);
       unfold scaled;
       replace (0 - (-1074 + e')) with (s + (e' - (-1074 + e'))) by lia;
       rewrite Z.pow_add_r by lia;
       change (Z.abs (Z.neg m1)) with (Z.pos m1) in *; change (Z.abs (Z.pos m1)) with (Z.pos m1) in *;
       (destruct l as [|cmp];
        [ assert (q <= k * 2 ^ s) by nia; nia
        | assert (Hlt : q * Z.pos m2 < Z.pos m1 * 2 ^ s) by (apply Hin; discriminate);
          assert (q + 1 <= k * 2 ^ s) by nia; nia ]).
Qed.

Lemma hundred : float_of_Z 100 = S754_finite false 7036874417766400 (-46).
Proof. reflexivity. Qed.

Lemma fmul_100_bounded_by sx k x :
  0 < k < 2 ^ 40 -> bounded_by sx k 0 x ->
  bounded_by sx (k * 100) 0 (fmul x (float_of_Z 100)).
Proof.
  intros Hk Hx. rewrite hundred. unfold fmul.
  assert (H40 : 2 ^ 53 = 2 ^ 40 * 8192) by reflexivity.
  destruct x as [s|s| |s mx ex]; try contradiction; cbn [bounded_by SFmul] in *.
  - subst s. now destruct sx.
  - destruct Hx as (-> & Hb & Hle). rewrite xorb_false_r.
    pose proof (bounded_mantissa _ _ Hb) as (Hex & _).
    apply (binary_round_aux_bounded_by (-1074 + -1074)); try lia.
    + unfold in_format. lia.
    + now apply roundable_mul.
    + rewrite Pos2Z.inj_mul, scaled_mul by lia.
      replace (scaled (-1074 + -1074) (k * 100) 0)
        with (scaled (-1074) k 0 * scaled (-1074) 7036874417766400 (-46)).
      * apply Z.mul_le_mono_nonneg_r; [|exact Hle]. unfold scaled. lia.
      * unfold scaled. replace (0 - (-1074 + -1074)) with (1074 + 1074) by lia.
        rewrite Z.pow_add_r by lia.
        replace (0 - -1074) with 1074 by lia.
        replace (-46 - -1074) with 1028 by lia.
        replace (2 ^ 1074) with (2 ^ 1028 * 2 ^ 46) at 3 by (rewrite <- Z.pow_add_r by lia; reflexivity).
        change (2 ^ 46) with 70368744177664. ring.
Qed.

Lemma bounded_by_range sx k x :
  0 <= k -> bounded_by sx k 0 x ->
  num_le (NInt (if sx then - k else 0)) (NFloat x) = true /\
  num_le (NFloat x) (NInt (if sx then 0 else k)) = true.
Proof.
  intros Hk Hx. unfold num_le, xle.
  assert (HP : 0 < 2 ^ 1074) by (apply Z.pow_pos_nonneg; lia).
  destruct x as [s|s| |s m e]; try contradiction; cbn [bounded_by] in Hx;
    cbn [num_scaled float_scaled xcompare].
  - subst s. rewrite !Z.shiftl_mul_pow2 by lia. split.
    + destruct (Z.compare_spec ((if sx then - k else 0) * 2 ^ 1074) 0); try reflexivity.
      destruct sx; nia.
    + destruct (Z.compare_spec 0 ((if sx then 0 else k) * 2 ^ 1074)); try reflexivity.
      destruct sx; nia.
  - destruct Hx as (-> & Hb & Hle). apply bounded_mantissa in Hb as (He & _).
    rewrite !Z.shiftl_mul_pow2 by lia. unfold scaled in Hle.
    replace (e - -1074) with (e + 1074) in Hle by lia.
    replace (0 - -1074) with 1074 in Hle by lia.
    assert (HE : 0 < Z.pos m * 2 ^ (e + 1074))
      by (apply Z.mul_pos_pos; [lia | apply Z.pow_pos_nonneg; lia]).
    split.
    + destruct (Z.compare_spec ((if sx then - k else 0) * 2 ^ 1074)
                  (cond_Zopp sx (Z.pos m * 2 ^ (e + 1074)))); try reflexivity.
      destruct sx; cbn [cond_Zopp] in *; lia.
    + destruct (Z.compare_spec (cond_Zopp sx (Z.pos m * 2 ^ (e + 1074)))
                  ((if sx then 0 else k) * 2 ^ 1074)); try reflexivity.
      destruct sx; cbn [cond_Zopp] in *; lia.
Qed.

Lemma frequencies_from low products :
  Forall (frequency_from low) products ->
  exists fs, int_frequencies products fs /\ Forall (fun f => low <= f) fs.
Proof.
  unfold int_frequencies. induction 1 as [|p rest (f & Hf & Bf) _ IH].
  - exists []. split; [reflexivity | constructor].
  - destruct IH as (fs & Hfs & Hall). exists (f :: fs). split; [|now constructor].
    cbn [map]. rewrite Hfs. unfold frequency_of, field_num. now rewrite Hf.
Qed.

(** X16. The efficiency improvement is a percentage between -1400 and 100.
    With [int] frequencies from 0 on and buckets that hold the products,
    [_calculate_distance_metrics] completes; the improvement it stores
    lies between 0 and 100 when the distance saved is not negative, and
    between -1400 and 0 when it is: the optimized walk is never more than
    fifteen times the original one. *)
Theorem efficiency_improvement_range :
  forall (s : state) (a b c : list value),
    categories (self s) = categories_of a b c ->
    Permutation (a ++ b ++ c) (products (self s)) ->
    Forall (frequency_from 0) (products (self s)) ->
    exists (m : distance_metrics) (saved : Z),
      _calculate_distance_metrics s
      = (with_self (fun o => set_metrics (update (metrics o) (distance_entries m)) o) s,
         Ok tt) /\
      distance_saved m = NInt saved /\
      (0 <= saved ->
       num_le (NInt 0) (efficiency_improvement m) = true /\
       num_le (efficiency_improvement m) (NInt 100) = true) /\
      (saved < 0 ->
       num_le (NInt (-1400)) (efficiency_improvement m) = true /\
       num_le (efficiency_improvement m) (NInt 0) = true).
Proof.
  intros s a b c Hcat Hperm Hall.
  destruct (frequencies_from _ _ Hall) as (fs & Hfs & Pfs).
  assert (Hparts : Forall (frequency_from 0) (a ++ b ++ c)).
  { rewrite Forall_forall in *. intros p Hp. apply Hall. now apply (Permutation_in _ Hperm). }
  destruct (Forall_app_parts _ _ _ _ Hparts) as (Ha & Hb & Hc).
  destruct (frequencies_from _ _ Ha) as (fa & Hfa & Pfa).
  destruct (frequencies_from _ _ Hb) as (fb & Hfb & Pfb).
  destruct (frequencies_from _ _ Hc) as (fc & Hfc & Pfc).
  pose proof (distance_metrics_of_int _ a b c fs fa fb fc Hfs Hfa Hfb Hfc Pfs Hperm) as Hm.
  assert (Hsum : plain_sum fa + plain_sum fb + plain_sum fc = plain_sum fs).
  { rewrite <- (plain_sum_perm (fa ++ fb ++ fc) fs).
    - rewrite !plain_sum_app. lia.
    - apply (int_frequencies_perm (a ++ b ++ c) (products (self s))); try assumption.
      now repeat apply int_frequencies_app. }
  pose proof (plain_sum_nonneg _ Pfa) as Na. pose proof (plain_sum_nonneg _ Pfb) as Nb.
  pose proof (plain_sum_nonneg _ Pfc) as Nc.
  pose proof (weighted_sum_bound fs Pfs 1 ltac:(lia)) as Hw.
  set (original := weighted_sum 1 fs) in *.
  set (optimized := plain_sum fa * 5 + plain_sum fb * 15 + plain_sum fc * 30) in *.
  eexists _, (original - optimized).
  rewrite (_calculate_distance_metrics_spec s a b c Hcat), Hm.
  split; [reflexivity|]. split; [reflexivity|]. cbn [efficiency_improvement].
  destruct (Z.ltb_spec 0 original) as [Hpos|Hzero].
  - split; intros Hs.
    + pose proof (fdiv_Z_bounded_by (original - optimized) original 1 Hpos
                    ltac:(split; [lia | reflexivity]) ltac:(lia)) as Hq.
      replace (original - optimized <? 0) with false in Hq by (symmetry; apply Z.ltb_ge; lia).
      apply fmul_100_bounded_by in Hq; [|split; [lia | reflexivity]].
      apply (bounded_by_range false (1 * 100)) in Hq; [exact Hq | lia].
    + pose proof (fdiv_Z_bounded_by (original - optimized) original 14 Hpos
                    ltac:(split; [lia | reflexivity]) ltac:(lia)) as Hq.
      replace (original - optimized <? 0) with true in Hq by (symmetry; apply Z.ltb_lt; lia).
      apply fmul_100_bounded_by in Hq; [|split; [lia | reflexivity]].
      apply (bounded_by_range true (14 * 100)) in Hq; [exact Hq | lia].
  - split; intros Hs; [split; reflexivity|]. unfold optimized in Hs. lia.
Qed.

Lemma efficiency_improvement_range_witness :
  exists m saved,
    _calculate_distance_metrics
      (with_self (set_categories (categories_of [product_100] [product_50] [product_10]))
         (loaded [product_100; product_10; product_50]))
    = (with_self (fun o => set_metrics (update (metrics o) (distance_entries m)) o)
         (with_self (set_categories (categories_of [product_100] [product_50] [product_10]))
            (loaded [product_100; product_10; product_50])), Ok tt) /\
    distance_saved m = NInt saved /\
    (0 <= saved ->
     num_le (NInt 0) (efficiency_improvement m) = true /\
     num_le (efficiency_improvement m) (NInt 100) = true) /\
    (saved < 0 ->
     num_le (NInt (-1400)) (efficiency_improvement m) = true /\
     num_le (efficiency_improvement m) (NInt 0) = true).
Proof.
  apply (efficiency_improvement_range
           (with_self (set_categories (categories_of [product_100] [product_50] [product_10]))
              (loaded [product_100; product_10; product_50]))
           [product_100] [product_50] [product_10]).
  - reflexivity.
  - apply Permutation_cons; [reflexivity|]. apply perm_swap.
  - repeat constructor.
    + exists 100. split; [reflexivity | lia].
    + exists 10. split; [reflexivity | lia].
    + exists 50. split; [reflexivity | lia].
Defined.

(** ** Running the analysis again *)

Lemma assign_present {A} k (v : A) d : lookup k d = Some v -> assign k v d = d.
Proof.
  induction d as [|[k' v'] rest IH]; cbn [lookup assign]; [discriminate|].
  destruct (String.eqb_spec k k') as [->|Hne].
  - now intros [= ->].
  - intros H. now rewrite IH.
Qed.

Lemma update_present {A} (items : list (string * A)) : forall d,
  (forall k v, In (k, v) items -> lookup k d = Some v) -> update d items = d.
Proof.
  unfold update. induction items as [|[k v] rest IH]; intros d H; [reflexivity|].
  cbn [fold_left fst snd]. rewrite (assign_present k v d) by (apply H; now left).
  apply IH. intros k' v' Hin. apply H. now right.
Qed.

Lemma with_self_fixed f s : f (self s) = self s -> with_self f s = s.
Proof. destruct s. unfold with_self. simpl. now intros ->. Qed.

Lemma set_metrics_fixed ms o : ms = metrics o -> set_metrics ms o = o.
Proof. intros ->. now destruct o. Qed.

Lemma set_report_data_fixed rd o : rd = report_data o -> set_report_data rd o = o.
Proof. intros ->. now destruct o. Qed.

Lemma run_abc_analysis_again s :
  self (fst (run_abc_analysis (fst (run_abc_analysis s)))) = self (fst (run_abc_analysis s)) /\
  snd (run_abc_analysis (fst (run_abc_analysis s))) = snd (run_abc_analysis s).
Proof.
  destruct (run_abc_analysis s) as [s1 r1] eqn:H1. cbn [fst snd].
  pose proof (run_abc_analysis_products _ _ _ H1) as Hp. revert H1.
  unfold run_abc_analysis, bind, get_self, lift, print, modify_self, ret. rewrite Hp.
  clear Hp.
  destruct (products (self s)) as [|p rest].
  { intros [= <- <-]. now split. }
  destruct (total_frequency (p :: rest)) as [total|e]; [|intros [= <- <-]; now split].
  destruct (num_eq total (NInt 0)); [intros [= <- <-]; now split|].
  destruct (sorted_by_frequency (p :: rest)) as [sorted|e]; [|intros [= <- <-]; now split].
  destruct (abc_loop total sorted (S754_zero false) [] [] []) as [[[a b] c]|e];
    intros [= <- <-]; now split.
Qed.

(** What [_calculate_distance_metrics] does depends on the products and
    the buckets only. *)
Lemma _calculate_distance_metrics_again s s' :
  products (self s') = products (self s) ->
  categories (self s') = categories (self s) ->
  match _calculate_distance_metrics s with
  | (s1, Ok _) =>
      exists m,
        s1 = with_self (fun o => set_metrics (update (metrics o) (distance_entries m)) o) s /\
        _calculate_distance_metrics s'
        = (with_self (fun o => set_metrics (update (metrics o) (distance_entries m)) o) s',
           Ok tt)
  | (s1, Raise e) => s1 = s /\ _calculate_distance_metrics s' = (s', Raise e)
  end.
Proof.
  intros Hp Hc. unfold _calculate_distance_metrics, bind, get_self, lift. rewrite Hp, Hc.
  destruct (original_distance_of (products (self s))) as [original|]; [|now split].
  destruct (dict_getitem (categories (self s)) "categoryA") as [a|]; [|now split].
  destruct (zone_distance a ZONE_A_DISTANCE_M) as [in_a|]; [|now split].
  destruct (dict_getitem (categories (self s)) "categoryB") as [b|]; [|now split].
  destruct (zone_distance b ZONE_B_DISTANCE_M) as [in_b|]; [|now split].
  destruct (num_add in_a in_b) as [in_ab|]; [|now split].
  destruct (dict_getitem (categories (self s)) "categoryC") as [c|]; [|now split].
  destruct (zone_distance c ZONE_C_DISTANCE_M) as [in_c|]; [|now split].
  destruct (num_add in_ab in_c) as [optimized|]; [|now split].
  destruct (num_sub original optimized) as [saved|]; [|now split].
  destruct (if num_gt original (NInt 0)
            then (ratio <- num_truediv saved original ;; num_mul (NFloat ratio) (NInt 100))%result
            else Ok (NInt 0)) as [efficiency|]; [|now split].
  exists {| original_distance := original; optimized_distance := optimized;
            distance_saved := saved; efficiency_improvement := efficiency |}.
  now split.
Qed.

(** What [_calculate_financial_metrics] does depends on the two stored
    distances only. *)
Lemma _calculate_financial_metrics_again s s' :
  lookup "original_distance" (metrics (self s'))
  = lookup "original_distance" (metrics (self s)) ->
  lookup "optimized_distance" (metrics (self s'))
  = lookup "optimized_distance" (metrics (self s)) ->
  match _calculate_financial_metrics s with
  | (s1, Ok _) =>
      exists t1 t2,
        s1 = with_self (fun o => set_metrics (update (metrics o) (financial_entries t1 t2)) o) s /\
        _calculate_financial_metrics s'
        = (with_self (fun o => set_metrics (update (metrics o) (financial_entries t1 t2)) o) s',
           Ok tt)
  | (s1, Raise e) => s1 = s /\ _calculate_financial_metrics s' = (s', Raise e)
  end.
Proof.
  intros H1 H2. unfold _calculate_financial_metrics, bind, get_self, lift.
  rewrite speed_is_metres_per_hour. unfold dict_getitem. rewrite H1, H2.
  destruct (lookup "original_distance" (metrics (self s))) as [original|]; [|now split].
  destruct (value_truediv original (NFloat metres_per_hour)) as [t1|]; [|now split].
  destruct (lookup "optimized_distance" (metrics (self s))) as [optimized|]; [|now split].
  destruct (value_truediv optimized (NFloat metres_per_hour)) as [t2|]; [|now split].
  exists t1, t2. now split.
Qed.

(** What [_calculate_inventory_metrics] does depends on the products only. *)
Lemma _calculate_inventory_metrics_again s s' :
  products (self s') = products (self s) ->
  match _calculate_inventory_metrics s with
  | (s1, Ok _) =>
      exists inventory_metrics,
        s1 = with_self (fun o => set_report_data
               (assign "inventory_metrics" (VDict inventory_metrics) (report_data o)) o) s /\
        _calculate_inventory_metrics s'
        = (with_self (fun o => set_report_data
             (assign "inventory_metrics" (VDict inventory_metrics) (report_data o)) o) s',
           Ok tt)
  | (s1, Raise e) => s1 = s /\ _calculate_inventory_metrics s' = (s', Raise e)
  end.
Proof.
  intros Hp. unfold _calculate_inventory_metrics, bind, get_self, lift. rewrite Hp.
  destruct (inventory_loop (products (self s)) []) as [inv|]; [|now split].
  exists inv. now split.
Qed.

Lemma NoDup_distance_entries m : NoDup (map fst (distance_entries m)).
Proof.
  cbn [distance_entries map fst].
  repeat constructor; cbn [In]; intros H; repeat (destruct H as [H|H]; [discriminate|]); exact H.
Qed.

Lemma NoDup_financial_entries t1 t2 : NoDup (map fst (financial_entries t1 t2)).
Proof.
  cbn [financial_entries map fst].
  repeat constructor; cbn [In]; intros H; repeat (destruct H as [H|H]; [discriminate|]); exact H.
Qed.

(** A state that holds the distances that a call has stored is left as it
    is by the next call. *)
Lemma _calculate_distance_metrics_settles s sd x :
  _calculate_distance_metrics s = (sd, Ok tt) ->
  products (self x) = products (self s) ->
  categories (self x) = categories (self s) ->
  (forall k, In k (map fst (distance_entries
                              {| original_distance := NInt 0; optimized_distance := NInt 0;
                                 distance_saved := NInt 0;
                                 efficiency_improvement := NInt 0 |})) ->
             lookup k (metrics (self x)) = lookup k (metrics (self sd))) ->
  _calculate_distance_metrics x = (x, Ok tt).
Proof.
  intros ED Hp Hc Hl.
  pose proof (_calculate_distance_metrics_again s x Hp Hc) as H. rewrite ED in H.
  destruct H as (m & -> & ->). f_equal. apply with_self_fixed, set_metrics_fixed, update_present.
  intros k v Hin. rewrite Hl.
  - unfold with_self. cbn [self]. unfold set_metrics. cbn [metrics].
    rewrite (lookup_update _ _ _ (NoDup_distance_entries m)).
    cbn [distance_entries In] in Hin.
    repeat (destruct Hin as [[= <- <-]|Hin]; [reflexivity|]). contradiction.
  - cbn [distance_entries In map fst] in *.
    repeat (destruct Hin as [[= <- <-]|Hin]; [tauto|]). contradiction.
Qed.

Lemma _calculate_financial_metrics_settles s sf x :
  _calculate_financial_metrics s = (sf, Ok tt) ->
  lookup "original_distance" (metrics (self x))
  = lookup "original_distance" (metrics (self s)) ->
  lookup "optimized_distance" (metrics (self x))
  = lookup "optimized_distance" (metrics (self s)) ->
  (forall k, In k (map fst (financial_entries (S754_zero false) (S754_zero false))) ->
             lookup k (metrics (self x)) = lookup k (metrics (self sf))) ->
  _calculate_financial_metrics x = (x, Ok tt).
Proof.
  intros EF H1 H2 Hl.
  pose proof (_calculate_financial_metrics_again s x H1 H2) as H. rewrite EF in H.
  destruct H as (t1 & t2 & -> & ->). f_equal.
  apply with_self_fixed, set_metrics_fixed, update_present.
  intros k v Hin. rewrite Hl.
  - unfold with_self. cbn [self]. unfold set_metrics. cbn [metrics].
    rewrite (lookup_update _ _ _ (NoDup_financial_entries t1 t2)).
    cbn [financial_entries In] in Hin.
    repeat (destruct Hin as [[= <- <-]|Hin]; [reflexivity|]). contradiction.
  - cbn [financial_entries In map fst] in *.
    repeat (destruct Hin as [[= <- <-]|Hin]; [tauto|]). contradiction.
Qed.

Lemma _calculate_inventory_metrics_settles s si x :
  _calculate_inventory_metrics s = (si, Ok tt) ->
  products (self x) = products (self s) ->
  lookup "inventory_metrics" (report_data (self x))
  = lookup "inventory_metrics" (report_data (self si)) ->
  _calculate_inventory_metrics x = (x, Ok tt).
Proof.
  intros EI Hp Hl.
  pose proof (_calculate_inventory_metrics_again s x Hp) as H. rewrite EI in H.
  destruct H as (inv & -> & ->). f_equal.
  apply with_self_fixed, set_report_data_fixed, assign_present.
  rewrite Hl. unfold with_self. cbn [self]. unfold set_report_data. cbn [report_data].
  apply lookup_assign_same.
Qed.

Lemma calculate_all_metrics_again s :
  calculate_all_metrics (fst (calculate_all_metrics s)) = calculate_all_metrics s.
Proof.
  destruct (products (self s)) as [|p rest] eqn:Ep.
  { assert (H : calculate_all_metrics s = (s, Ok tt)).
    { unfold calculate_all_metrics. unfold bind at 1, get_self. now rewrite Ep. }
    rewrite H. cbn [fst]. exact H. }
  assert (Hne : products (self s) <> []) by (rewrite Ep; discriminate). clear Ep.
  destruct (calculate_all_metrics s) as [s1 r1] eqn:H1. cbn [fst].
  rewrite (calculate_all_metrics_steps s Hne) in H1. unfold bind in H1.
  (* the distances *)
  pose proof (_calculate_distance_metrics_again s s eq_refl eq_refl) as HD.
  destruct (_calculate_distance_metrics s) as [sd [[]|e]] eqn:ED.
  2:{ destruct HD as [-> _]. injection H1 as <- <-.
      rewrite (calculate_all_metrics_steps s Hne). unfold bind at 1. now rewrite ED. }
  destruct HD as (m & Hsd & _).
  assert (Hpd : products (self sd) = products (self s)) by now rewrite Hsd.
  assert (Hcd : categories (self sd) = categories (self s)) by now rewrite Hsd.
  (* the hours and costs *)
  pose proof (_calculate_financial_metrics_again sd sd eq_refl eq_refl) as HF.
  destruct (_calculate_financial_metrics sd) as [sf [[]|e]] eqn:EF.
  2:{ destruct HF as [-> _]. injection H1 as <- <-.
      rewrite (calculate_all_metrics_steps sd) by now rewrite Hpd.
      unfold bind.
      rewrite (_calculate_distance_metrics_settles s sd sd ED Hpd Hcd) by reflexivity.
      now rewrite EF. }
  destruct HF as (t1 & t2 & Hsf & _).
  assert (Hpf : products (self sf) = products (self sd)) by now rewrite Hsf.
  assert (Hcf : categories (self sf) = categories (self sd)) by now rewrite Hsf.
  assert (Hlf : forall k, lookup k (financial_entries t1 t2) = None ->
                          lookup k (metrics (self sf)) = lookup k (metrics (self sd))).
  { intros k Hk. rewrite Hsf. unfold with_self. cbn [self]. unfold set_metrics. cbn [metrics].
    now rewrite (lookup_update _ _ _ (NoDup_financial_entries t1 t2)), Hk. }
  assert (HDf : _calculate_distance_metrics sf = (sf, Ok tt)).
  { apply (_calculate_distance_metrics_settles s sd sf ED); try congruence.
    intros k Hin. apply Hlf. cbn [distance_entries In map fst] in Hin.
    repeat (destruct Hin as [<-|Hin]; [reflexivity|]). contradiction. }
  assert (HFf : _calculate_financial_metrics sf = (sf, Ok tt)).
  { apply (_calculate_financial_metrics_settles sd sf sf EF); try reflexivity.
    all: now apply Hlf. }
  (* the inventory parameters *)
  pose proof (_calculate_inventory_metrics_again sf sf eq_refl) as HI.
  destruct (_calculate_inventory_metrics sf) as [si [[]|e]] eqn:EI.
  2:{ destruct HI as [-> _]. injection H1 as <- <-.
      rewrite (calculate_all_metrics_steps sf) by congruence.
      unfold bind. now rewrite HDf, HFf, EI. }
  destruct HI as (inv & Hsi & _). injection H1 as <- <-.
  assert (Hpi : products (self si) = products (self sf)) by now rewrite Hsi.
  assert (Hci : categories (self si) = categories (self sf)) by now rewrite Hsi.
  assert (Hmi : metrics (self si) = metrics (self sf)) by now rewrite Hsi.
  rewrite (calculate_all_metrics_steps si) by congruence.
  unfold bind.
  rewrite (_calculate_distance_metrics_settles s sd si ED).
  2,3: congruence.
  2:{ intros k Hin. rewrite Hmi. apply Hlf. cbn [distance_entries In map fst] in Hin.
      repeat (destruct Hin as [<-|Hin]; [reflexivity|]). contradiction. }
  rewrite (_calculate_financial_metrics_settles sd sf si EF).
  2,3: rewrite Hmi; now apply Hlf.
  2:{ intros k _. now rewrite Hmi. }
  now rewrite (_calculate_inventory_metrics_settles sf si si EI Hpi eq_refl).
Qed.

(** X17. The analysis can be run again.  A second call of
    [run_abc_analysis] ends as the first did and leaves the object as the
    first call left it (it may print its diagnostic a second time); a
    second call of [calculate_all_metrics] ends as the first did and
    changes nothing at all, whether the first call returned or raised. *)
Theorem analysis_can_be_repeated :
  forall s : state,
    (self (fst (run_abc_analysis (fst (run_abc_analysis s))))
     = self (fst (run_abc_analysis s)) /\
     snd (run_abc_analysis (fst (run_abc_analysis s))) = snd (run_abc_analysis s)) /\
    calculate_all_metrics (fst (calculate_all_metrics s)) = calculate_all_metrics s.
Proof.
  intros s. split; [apply run_abc_analysis_again | apply calculate_all_metrics_again].
Qed.
